(** * Eureka! Stage 5 (light-curve fitting driver) and its run-directory helpers

    A shallow embedding of
      - [eureka/S5_lightcurve_fitting/s5_fit.py]:
          [make_longparamlist], [fit_channel], [read_s4_meta],
          [load_general_s4_meta_info], and of [fitJWST] the directory
          loops, the scan for shared parameters, the shared-mode flux
          flattening and the per-channel normalization;
      - [eureka/lib/util.py]:
          [trim], [check_nans], [makedirectory], [pathdirectory],
          [find_fits].

    Python exceptions are values of [Py.exn]; code that can raise returns a
    [Py.result].  Objects that the Python code mutates (the [Parameters]
    object, the metadata object, the file system) are threaded explicitly. *)

From Stdlib Require Import List String Ascii Bool Arith ZArith QArith Lia.
From Stdlib Require Import DecimalString DecimalNat DecimalZ Sorted Permutation.
From Stdlib Require PrimFloat.
Import ListNotations.

Open Scope string_scope.
Open Scope list_scope.

(* ------------------------------------------------------------------ *)
(** ** The fragment of Python the sources rely on *)

Module Py.

Inductive exn : Type :=
| IndexError
| KeyError
| AssertionError
| PermissionError
| FileExistsError
| FileNotFoundError
| FitterError.

Inductive result (A : Type) : Type :=
| Ok (a : A)
| Raise (e : exn).
Arguments Ok {A} a.
Arguments Raise {A} e.

Definition bind {A B} (m : result A) (k : A -> result B) : result B :=
  match m with
  | Ok a => k a
  | Raise e => Raise e
  end.

(** [for x in xs: body] over a state threaded through the iterations. *)
Fixpoint for_each {A S} (xs : list A) (body : A -> S -> result S) (s : S)
  : result S :=
  match xs with
  | [] => Ok s
  | x :: xs' => bind (body x s) (for_each xs' body)
  end.

(** [range(n)] / [np.arange(n)]: empty when [n <= 0]. *)
Definition range (n : Z) : list nat := seq 0 (Z.to_nat n).

(** [str(z)] of an integer. *)
Definition str_int (z : Z) : string :=
  NilEmpty.string_of_int (Z.to_int z).

(** [str(n)] of a non-negative integer. *)
Definition str_nat (n : nat) : string := str_int (Z.of_nat n).

(** [s[-1]] on a string. *)
Fixpoint last_char (s : string) : result ascii :=
  match s with
  | EmptyString => Raise IndexError
  | String c EmptyString => Ok c
  | String _ s' => last_char s'
  end.

(** [s[:-1]] on a string. *)
Fixpoint drop_last (s : string) : string :=
  match s with
  | EmptyString => EmptyString
  | String _ EmptyString => EmptyString
  | String c s' => String c (drop_last s')
  end.

(** [x in xs] for a string [x] and a list of strings [xs]. *)
Definition str_in (x : string) (xs : list string) : bool :=
  existsb (String.eqb x) xs.

(** [l[i]] on a list. *)
Definition index {A} (l : list A) (i : nat) : result A :=
  match nth_error l i with
  | Some a => Ok a
  | None => Raise IndexError
  end.

(** [ll[c].append(x)] on a list of lists. *)
Fixpoint append_at {A} (c : nat) (x : A) (ll : list (list A))
  : result (list (list A)) :=
  match ll, c with
  | [], _ => Raise IndexError
  | l :: ll', O => Ok ((l ++ [x]) :: ll')
  | l :: ll', S c' =>
      match append_at c' x ll' with
      | Ok r => Ok (l :: r)
      | Raise e => Raise e
      end
  end.

End Py.

Import Py.

Notation "x <- m ;; k" := (Py.bind m (fun x => k))
  (at level 61, m at next level, right associativity).
Notation "' pat <- m ;; k" := (Py.bind m (fun x => match x with pat => k end))
  (at level 61, pat pattern, m at next level, right associativity).

(* ------------------------------------------------------------------ *)
(** ** The parameter set *)

Module Params.

(** The values a parameter entry holds: numbers, strings ([ptype], prior
    family, string-valued parameters such as [limb_dark]). *)
Inductive pyval : Type :=
| PNum (q : Q)
| PStr (s : string).

(** [params.dict[name]] is the list [value, ptype, priorpar1, priorpar2,
    prior] with the absent trailing fields left out (the tests build
    parameters as [123.456, 'free'] and as [234.567, 'free', 200, 300]). *)
Definition entry : Type := list pyval.

(** [s in e] for a string [s]: a string never equals a number. *)
Definition py_in (s : string) (e : entry) : bool :=
  existsb (fun v => match v with
                    | PStr t => String.eqb s t
                    | PNum _ => false
                    end) e.

(** The value and the kind of an entry. *)
Definition value_of (e : entry) : option pyval := nth_error e 0.
Definition ptype_of (e : entry) : option pyval := nth_error e 1.

(** Modelled from the spec: the class [Parameters] of
    [S5_lightcurve_fitting/parameters.py], which is not among the sources.
    The parameter set is "an ordered mapping name -> Parameter"; the
    sources read it through [params.dict], with [.keys()], [.items()] and
    [params.dict[param]]. *)
Definition Parameters : Type := list (string * entry).

(** [list(params.dict.keys())] *)
Definition keys (d : Parameters) : list string := map fst d.

Fixpoint dict_get (d : Parameters) (k : string) : option entry :=
  match d with
  | [] => None
  | (k', e) :: d' => if String.eqb k k' then Some e else dict_get d' k
  end.

(** [params.dict[k]] *)
Definition getitem (d : Parameters) (k : string) : result entry :=
  match dict_get d k with
  | Some e => Ok e
  | None => Raise KeyError
  end.

(** Modelled from the spec: [Parameters.__setattr__] of
    [S5_lightcurve_fitting/parameters.py], which is not among the sources.
    The parameter set is "an ordered mapping name -> Parameter" that the
    expander mutates "for per-channel duplication": setting the attribute
    [k] to the values [e] makes [k] a parameter whose value, kind and priors
    are copied from [e].  An existing name keeps its place in the order and
    gets the new entry; a new name goes last. *)
Fixpoint setattr (d : Parameters) (k : string) (e : entry) : Parameters :=
  match d with
  | [] => [(k, e)]
  | (k', e') :: d' =>
      if String.eqb k k' then (k', e) :: d' else (k', e') :: setattr d' k e
  end.

End Params.

Import Params.

(* ------------------------------------------------------------------ *)
(** ** The metadata object *)

(** The attributes of [MetaClass] that the embedded functions read or write. *)
Record Meta : Type := mkMeta {
  sharedp : bool;
  nspecchan : Z;
  fit_method : list string;
  run_myfuncs : list string;
  testing_S5 : bool;
  isplots_S5 : Z;
  topdir : string;
  inputdir : string;
  outputdir_raw : string;
  eventlabel : string;
  datetime : option string
}.

(* ------------------------------------------------------------------ *)
(** ** [make_longparamlist] *)

Module Expander.

Definition is_free (e : entry) : bool := py_in "free" e.
Definition is_shared (e : entry) : bool := py_in "shared" e.

(** [param+'_'+str(c+1)] *)
Definition title (param : string) (c : nat) : string :=
  param ++ "_" ++ str_nat (c + 1).

Definition state : Type := (Parameters * list (list string))%type.

(** The inner loop of the [free] branch:
    [for c in np.arange(nspecchan-1): ...] *)
Definition expand_free (nchan : Z) (param : string) (st : state)
  : result state :=
  for_each (range (nchan - 1))
    (fun c (st : state) =>
       let '(params, longparamlist) := st in
       e <- getitem params param ;;
       let params' := setattr params (title param c) e in
       longparamlist' <- append_at (c + 1) (title param c) longparamlist ;;
       Ok (params', longparamlist'))
    st.

(** [for c in np.arange(nspecchan): longparamlist[c].append(param)] *)
Definition append_all (nchan : Z) (param : string)
  (longparamlist : list (list string)) : result (list (list string)) :=
  for_each (range nchan) (fun c ll => append_at c param ll) longparamlist.

(** The body of [for param in tlist]. *)
Definition process_param (nchan : Z) (param : string) (st : state)
  : result state :=
  let '(params, longparamlist) := st in
  e <- getitem params param ;;
  if is_free e then
    longparamlist0 <- append_at 0 param longparamlist ;;
    expand_free nchan param (params, longparamlist0)
  else
    e' <- getitem params param ;;
    if is_shared e' then
      longparamlist' <- append_all nchan param longparamlist ;;
      Ok (params, longparamlist')
    else
      longparamlist' <- append_all nchan param longparamlist ;;
      Ok (params, longparamlist').

(** The channel count the expander works with. *)
Definition effective_nspecchan (meta : Meta) : Z :=
  if sharedp meta then nspecchan meta else 1%Z.

(** Returns the mutated parameter set together with
    [(longparamlist, paramtitles)]. *)
Definition make_longparamlist (meta : Meta) (params : Parameters)
  : result (Parameters * (list (list string) * list string)) :=
  let nchan := effective_nspecchan meta in
  let longparamlist := map (fun _ => @nil string) (range nchan) in
  let tlist := keys params in
  '(params', longparamlist') <-
     for_each tlist (process_param nchan) (params, longparamlist) ;;
  paramtitles <- index longparamlist' 0 ;;
  Ok (params', (longparamlist', paramtitles)).

End Expander.

(* ------------------------------------------------------------------ *)
(** ** Shared-mode flattening of flux and uncertainty in [fitJWST] *)

Module Flatten.

Section Generic.
(** The sample type of the arrays, with NumPy's elementwise division by a
    scalar and [np.mean] over one row. *)
Context {F : Type} (fdiv : F -> F -> F) (fmean : list F -> F).

(** [row / np.mean(ref)] *)
Definition normalize_by (ref row : list F) : list F :=
  map (fun x => fdiv x (fmean ref)) row.

(** The loop [for i in np.arange(meta.nspecchan)] of the shared branch;
    the state is [(flux, flux_err)], both starting as [np.array([])];
    [lcdata[i,:]] and [lcerr[i,:]] raise [IndexError] past the last row. *)
Definition flatten_shared (nchan : Z) (lcdata lcerr : list (list F))
  : result (list F * list F) :=
  for_each (range nchan)
    (fun i (st : list F * list F) =>
       let '(flux, flux_err) := st in
       row <- index lcdata i ;;
       let flux' := flux ++ normalize_by row row in
       erow <- index lcerr i ;;
       row' <- index lcdata i ;;
       let flux_err' := flux_err ++ normalize_by row' erow in
       Ok (flux', flux_err'))
    ([], []).

(** The [i]-th block of [L] samples of a flattened array. *)
Definition block (L i : nat) (a : list F) : list F :=
  firstn L (skipn (i * L) a).
End Generic.

(** Exact arithmetic on rationals, for sample inputs only: the arrays of
    the code hold float64 values, for which see [Float64]. *)
Definition Qsum (l : list Q) : Q := fold_right Qplus 0%Q l.
Definition Qmean (l : list Q) : Q :=
  (Qsum l / inject_Z (Z.of_nat (List.length l)))%Q.

End Flatten.

(* ------------------------------------------------------------------ *)
(** ** float64 arithmetic *)

Module Float64.

(** IEEE 754 binary64 with round-to-nearest-even, the [float64] of
    NumPy. *)
Definition float64 : Set := PrimFloat.float.

(** A count as a float64; exact below [2^53]. *)
Fixpoint of_count (n : nat) : float64 :=
  match n with
  | O => PrimFloat.zero
  | S n' => PrimFloat.add (of_count n') PrimFloat.one
  end.

(** [np.sum] of a one-dimensional float64 array of fewer than 8 samples:
    NumPy adds them to 0 one after the other.  (From 8 samples on it
    adds in blocks, which this definition does not follow.) *)
Definition sum64 (a : list float64) : float64 :=
  fold_left PrimFloat.add a PrimFloat.zero.

(** [np.mean] of such an array: the sum divided by the count. *)
Definition mean64 (a : list float64) : float64 :=
  PrimFloat.div (sum64 a) (of_count (List.length a)).

(** The float64 nearest to [k/10], as the literals [0.1], [0.2], ... *)
Definition tenths (k : nat) : float64 :=
  PrimFloat.div (of_count k) (of_count 10).

(** The samples [0.1, 0.2, 0.3] and [1.0, 1.0, 1.0]. *)
Definition row_tenths : list float64 := [tenths 1; tenths 2; tenths 3].
Definition row_ones : list float64 :=
  [PrimFloat.one; PrimFloat.one; PrimFloat.one].

End Float64.

(* ------------------------------------------------------------------ *)
(** ** [fit_channel] *)

Module FitChannel.

(** What [fit_channel] does to its collaborators, in program order. *)
Inductive event : Type :=
| NewLightCurve
| Log (msg : string)
| MakeModel (name : string)
| ApplyFakeRamp
| MakeComposite
| SetFitter (kind : string)
| Fit (kind : string)
| Plot.

(** A computation that leaves a trace and returns or raises. *)
Definition io (A : Type) : Type := (list event * result A)%type.

Definition ret {A} (a : A) : io A := ([], Ok a).

Definition seq_io {A B} (m : io A) (k : A -> io B) : io B :=
  match m with
  | (tr, Ok a) => let '(tr', r) := k a in (tr ++ tr', r)
  | (tr, Raise e) => (tr, Raise e)
  end.

Definition emit (ev : event) : io unit := ([ev], Ok tt).

Definition when (b : bool) (m : io unit) : io unit :=
  if b then m else ret tt.

Section WithBackends.
(** Whether the backend behind [lc_model.fit(..., fitter=kind)] raises;
    [fit_channel] has no handler, so the exception leaves it. *)
Variable fit_raises : string -> bool.

Definition lc_fit (kind : string) : io unit :=
  ([Fit kind], if fit_raises kind then Raise FitterError else Ok tt).

(** One [if kind in meta.fit_method:] block. *)
Definition fit_stage (meta : Meta) (kind : string) : io unit :=
  when (str_in kind (fit_method meta))
    (seq_io (emit (Log ("Starting " ++ kind ++ " fit."))) (fun _ =>
     seq_io (emit (SetFitter kind)) (fun _ =>
     seq_io (lc_fit kind) (fun _ =>
     seq_io (emit (Log ("Completed " ++ kind ++ " fit."))) (fun _ =>
     emit (Log "-------------------------")))))).

Definition fit_channel (meta : Meta) : io Meta :=
  seq_io (emit NewLightCurve) (fun _ =>
  seq_io (when (testing_S5 meta)
            (seq_io (emit (Log "****Adding exponential ramp systematic to light curve****")) (fun _ =>
             seq_io (emit (MakeModel "ramp")) (fun _ =>
             emit ApplyFakeRamp)))) (fun _ =>
  seq_io (when (str_in "transit" (run_myfuncs meta))
            (emit (MakeModel "transit"))) (fun _ =>
  seq_io (when (str_in "polynomial" (run_myfuncs meta))
            (emit (MakeModel "polynom"))) (fun _ =>
  seq_io (when (str_in "expramp" (run_myfuncs meta))
            (emit (MakeModel "ramp"))) (fun _ =>
  seq_io (emit MakeComposite) (fun _ =>
  seq_io (emit (Log "=========================")) (fun _ =>
  seq_io (fit_stage meta "lsq") (fun _ =>
  seq_io (fit_stage meta "emcee") (fun _ =>
  seq_io (fit_stage meta "dynesty") (fun _ =>
  seq_io (fit_stage meta "lmfit") (fun _ =>
  seq_io (emit (Log "=========================")) (fun _ =>
  seq_io (when (1 <=? isplots_S5 meta)%Z (emit Plot)) (fun _ =>
  ret meta))))))))))))).
End WithBackends.

(** The fitter kinds of the [lc_model.fit] calls of a trace, in order. *)
Definition fit_calls (tr : list event) : list string :=
  flat_map (fun ev => match ev with Fit k => [k] | _ => [] end) tr.

(** A list up to and including its first element on which [f] holds. *)
Fixpoint upto {A} (f : A -> bool) (l : list A) : list A :=
  match l with
  | [] => []
  | x :: l' => if f x then [x] else x :: upto f l'
  end.

(** The order in which the source tests the fitter kinds. *)
Definition priority : list string := ["lsq"; "emcee"; "dynesty"; "lmfit"].

Definition requested (meta : Meta) : list string :=
  filter (fun k => str_in k (fit_method meta)) priority.

End FitChannel.

(* ------------------------------------------------------------------ *)
(** ** [os.path] and a file system *)

Module Os.

Definition sep : ascii := "/"%char.

Definition is_sep (c : ascii) : bool := Ascii.eqb c sep.

(** [s.split(os.sep)]: always at least one piece. *)
Fixpoint split (s : string) : list string :=
  match s with
  | EmptyString => [EmptyString]
  | String c s' =>
      if is_sep c then EmptyString :: split s'
      else match split s' with
           | [] => [String c EmptyString]
           | h :: t => String c h :: t
           end
  end.

Definition startswith_sep (s : string) : bool :=
  match s with
  | String c _ => is_sep c
  | EmptyString => false
  end.

Definition endswith_sep (s : string) : bool :=
  match last_char s with
  | Ok c => is_sep c
  | Raise _ => false
  end.

(** One round of the loop of [posixpath.join]. *)
Definition join_step (path b : string) : string :=
  if startswith_sep b then b
  else if (String.eqb path "" || endswith_sep path)%bool then (path ++ b)%string
  else (path ++ "/" ++ b)%string.

(** [os.path.join(a, *ps)] *)
Definition path_join (a : string) (ps : list string) : string :=
  fold_left join_step ps a.

(** A path as the file system resolves it: absolute or not, and its
    non-empty components ([.], [..] and links are not interpreted). *)
Definition node : Type := (bool * list string)%type.

Definition norm (p : string) : node :=
  (startswith_sep p, filter (fun c => negb (String.eqb c "")) (split p)).

Fixpoint is_prefix (a b : list string) : bool :=
  match a, b with
  | [], _ => true
  | _ :: _, [] => false
  | x :: a', y :: b' => (String.eqb x y && is_prefix a' b')%bool
  end.

Definition node_within (n e : node) : bool :=
  (Bool.eqb (fst n) (fst e) && is_prefix (snd n) (snd e))%bool.

(** The directories made so far (each stands for itself and all its
    ancestors), and whether the user may create directories. *)
Record FileSystem : Type := mkFS {
  entries : list node;
  writable : bool
}.

(** [os.path.exists(p)] *)
Definition path_exists (fs : FileSystem) (p : string) : bool :=
  existsb (node_within (norm p)) (entries fs).

(** [os.makedirs(p)] *)
Definition makedirs (fs : FileSystem) (p : string) : result FileSystem :=
  if negb (writable fs) then Raise PermissionError
  else if path_exists fs p then Raise FileExistsError
  else Ok (mkFS (norm p :: entries fs) (writable fs)).

End Os.

Import Os.

(* ------------------------------------------------------------------ *)
(** ** [eureka/lib/util.py] *)

Module Util.

Local Open Scope string_scope.

(** *** [check_nans] *)

(** An array element: a number or one of the IEEE specials. *)
Inductive float : Type :=
| Finite (q : Q)
| Inf (negative : bool)
| NaN.

Definition isnan (x : float) : bool :=
  match x with
  | NaN => true
  | _ => false
  end.

(** What [log.writelog] receives: the array name and the NaN count that
    the warning text is formatted from. *)
Inductive log_entry : Type :=
| WarnNaNs (name : string) (num_nans : nat).

(** [np.where(b)] on a flat boolean array. *)
Fixpoint where_from (i : nat) (b : list bool) : list nat :=
  match b with
  | [] => []
  | h :: t => ((if h then [i] else []) ++ where_from (S i) t)%list
  end.

Definition where_ (b : list bool) : list nat := where_from 0 b.

(** [l[i] = v] *)
Fixpoint set_item {A} (l : list A) (i : nat) (v : A) : result (list A) :=
  match l, i with
  | [], _ => Raise IndexError
  | _ :: t, O => Ok (v :: t)
  | h :: t, S i' =>
      match set_item t i' v with
      | Ok r => Ok (h :: r)
      | Raise e => Raise e
      end
  end.

(** [np.sum(b)] on a boolean array. *)
Definition count_true (b : list bool) : nat :=
  List.length (filter (fun x => x) b).

(** Arrays are taken flat.  Returns the log lines written and, unless an
    exception is raised, the two arrays as they are afterwards. *)
Definition check_nans (data : list float) (mask : list Z) (name : string)
  : list log_entry * result (list float * list Z) :=
  let num_nans := count_true (map isnan data) in
  if (0 <? num_nans)%nat then
    let inan := where_ (map isnan data) in
    ([WarnNaNs name num_nans],
     mask' <- for_each inan (fun i m => set_item m i 0%Z) mask ;;
     Ok (data, mask'))
  else ([], Ok (data, mask)).

(** *** [makedirectory] and [pathdirectory] *)

Definition set_datetime (meta : Meta) (d : string) : Meta :=
  mkMeta (sharedp meta) (nspecchan meta) (fit_method meta)
         (run_myfuncs meta) (testing_S5 meta) (isplots_S5 meta)
         (topdir meta) (inputdir meta) (outputdir_raw meta)
         (eventlabel meta) (Some d).

(** The keyword arguments, in call order; the values are the integer
    half-widths [ap=..., bg=...]. *)
Definition kwargs : Type := list (string * Z).

(** The loop [while os.path.exists(outputdir+str(counter)): counter += 1];
    [fuel] bounds the number of times the condition is tested. *)
Fixpoint find_counter (fs : FileSystem) (outputdir : string)
  (fuel counter : nat) : option nat :=
  match fuel with
  | O => None
  | S fuel' =>
      if path_exists fs (outputdir ++ str_nat counter)
      then find_counter fs outputdir fuel' (counter + 1)
      else Some counter
  end.

(** Returns the metadata object and file system as they are afterwards,
    the run number, and the arguments of the [os.makedirs] calls made.
    [today] is what [time.strftime('%Y-%m-%d')] gives; the outer [option]
    is [None] when [fuel] runs out in the counter loop. *)
Definition makedirectory (fuel : nat) (today : string) (meta : Meta)
  (stage : string) (counter : option Z) (kw : kwargs) (fs : FileSystem)
  : option (result (Meta * FileSystem * Z * list string)) :=
  let meta1 := match datetime meta with
               | None => set_datetime meta today
               | Some _ => meta
               end in
  let datetime := match datetime meta1 with Some d => d | None => today end in
  let rootdir := path_join (topdir meta1) (split (outputdir_raw meta1)) in
  match last_char rootdir with
  | Raise e => Some (Raise e)
  | Ok c =>
    let rootdir : string :=
      if negb (is_sep c) then rootdir ++ "/" else rootdir in
    let outputdir : string :=
      rootdir ++ stage ++ "_" ++ datetime ++ "_" ++ eventlabel meta1 ++ "_run" in
    match (match counter with
           | None => option_map (fun k => (Z.of_nat k, str_nat k))
                       (find_counter fs outputdir fuel 1)
           | Some c => Some (c, str_int c)
           end) with
    | None => None
    | Some (counter, counter_str) =>
      Some (
        let outputdir : string := outputdir ++ counter_str ++ "/" in
        let outputdir : string :=
          fold_left (fun (o : string) (kv : string * Z) =>
                       (o ++ fst kv ++ str_int (snd kv) ++ "_")%string)
                    kw outputdir in
        c1 <- last_char outputdir ;;
        let outputdir : string :=
          if Ascii.eqb c1 "_" then drop_last outputdir else outputdir in
        c2 <- last_char outputdir ;;
        let outputdir : string :=
          if negb (is_sep c2) then outputdir ++ "/" else outputdir in
        '(fs1, made1) <-
           (if negb (path_exists fs outputdir) then
              match makedirs fs outputdir with
              | Ok fs' => Ok (fs', [outputdir])
              | Raise _ => Raise PermissionError
              end
            else Ok (fs, [])) ;;
        let figs := path_join outputdir ["figs"] in
        '(fs2, made2) <-
           (if negb (path_exists fs1 figs) then
              fs' <- makedirs fs1 figs ;; Ok (fs', [figs])
            else Ok (fs1, [])) ;;
        Ok (meta1, fs2, counter, (made1 ++ made2)%list))
    end
  end.

(** Returns the metadata object as it is afterwards and the path. *)
Definition pathdirectory (today : string) (meta : Meta) (stage : string)
  (run : Z) (old_datetime : option string) (kw : kwargs)
  : result (Meta * string) :=
  let '(meta1, datetime) :=
    match old_datetime with
    | Some d => (meta, d)
    | None =>
        match datetime meta with
        | None => (set_datetime meta today, today)
        | Some d => (meta, d)
        end
    end in
  let rootdir := path_join (topdir meta1) (split (outputdir_raw meta1)) in
  c <- last_char rootdir ;;
  let rootdir : string :=
      if negb (is_sep c) then rootdir ++ "/" else rootdir in
  let outputdir : string :=
    rootdir ++ stage ++ "_" ++ datetime ++ "_" ++ eventlabel meta1 ++ "_run"
            ++ str_int run ++ "/" in
  let outputdir : string :=
    fold_left (fun (o : string) (kv : string * Z) =>
                 (o ++ fst kv ++ str_int (snd kv) ++ "_")%string)
              kw outputdir in
  c1 <- last_char outputdir ;;
  let outputdir : string :=
    if Ascii.eqb c1 "_" then drop_last outputdir else outputdir in
  c2 <- last_char outputdir ;;
  let outputdir : string :=
    if negb (is_sep c2) then outputdir ++ "/" else outputdir in
  Ok (meta1, outputdir).

End Util.

(* ------------------------------------------------------------------ *)
(** ** [read_s4_meta] *)

Module ReadS4.

Local Open Scope string_scope.

(** What [print] receives: the folder searched and the file chosen, from
    which the warning text is formatted. *)
Inductive output : Type :=
| WarnMultiple (rootdir chosen : string).

Section WithCollaborators.
(** [glob.glob(pattern)] and [glob.glob(pattern, recursive=True)], in the
    order the file system lists the matches; [sort_nicely] of
    [lib/sort_nicely.py] and [loadevent] of [lib/manageevent.py], which
    are not among the sources. *)
Variable glob : string -> list string.
Variable glob_recursive : string -> list string.
Variable sort_nicely : list string -> list string.
Variable loadevent : string -> result Meta.

(** [l[-1]] *)
Definition last_item (l : list string) : result string :=
  match l with
  | [] => Raise IndexError
  | _ => Ok (last l EmptyString)
  end.

Definition read_s4_meta (meta : Meta) : list output * result Meta :=
  let rootdir := path_join (topdir meta) (split (inputdir meta)) in
  match last_char rootdir with
  | Raise e => ([], Raise e)
  | Ok c =>
    let rootdir : string :=
      if negb (Ascii.eqb c "/") then rootdir ++ "/" else rootdir in
    let files :=
      glob (rootdir ++ "S4_" ++ eventlabel meta ++ "*_Meta_Save.dat")%string in
    let files :=
      if (List.length files =? 0)%nat
      then sort_nicely
             (glob_recursive
                (rootdir ++ "**/S4_" ++ eventlabel meta
                         ++ "*_Meta_Save.dat")%string)
      else files in
    if (List.length files =? 0)%nat then ([], Raise AssertionError)
    else
      let printed :=
        if (1 <? List.length files)%nat
        then match last_item files with
             | Ok f => [WarnMultiple rootdir f]
             | Raise _ => []
             end
        else [] in
      (printed,
       fname <- last_item files ;;
       let fname := drop_last (drop_last (drop_last (drop_last fname))) in
       loadevent fname)
  end.
End WithCollaborators.

End ReadS4.

(* ------------------------------------------------------------------ *)
(** ** Closed forms of the loops of [make_longparamlist] *)

Module ExpanderModel.

Import Expander.

(** [f] applied to every element together with its index, counted from
    [i]. *)
Fixpoint imap_from {A B} (i : nat) (f : nat -> A -> B) (l : list A)
  : list B :=
  match l with
  | [] => []
  | x :: l' => f i x :: imap_from (S i) f l'
  end.

(** The entries that the [free] branch writes for [m] further channels. *)
Definition copies (m : nat) (param : string) (e : entry) (d : Parameters)
  : Parameters :=
  fold_left (fun d c => setattr d (title param c) e) (seq 0 m) d.

(** The name channel [c] receives for a parameter. *)
Definition chan_name (free : bool) (param : string) (c : nat) : string :=
  match c with
  | O => param
  | S c' => if free then title param c' else param
  end.

(** The parameter set after one round of [for param in tlist]. *)
Definition step (n : nat) (param : string) (d : Parameters) : Parameters :=
  match dict_get d param with
  | Some e => if is_free e then copies (n - 1) param e d else d
  | None => d
  end.

(** The parameter set after the whole loop. *)
Definition final (n : nat) (tlist : list string) (d : Parameters)
  : Parameters :=
  fold_left (fun d p => step n p d) tlist d.

(** The names channel [c] receives over the whole loop. *)
Fixpoint row_names (n c : nat) (tlist : list string) (d : Parameters)
  : list string :=
  match tlist with
  | [] => []
  | p :: t =>
      match dict_get d p with
      | Some e => chan_name (is_free e) p c :: row_names n c t (step n p d)
      | None => []
      end
  end.

(** Every name of [tlist] is a key of [d]. *)
Definition gettable (tlist : list string) (d : Parameters) : Prop :=
  forall p, In p tlist -> dict_get d p <> None.

(** No declared name is the per-channel name [q_c] that the expander makes
    for a declared free parameter [q] over [n] channels. *)
Definition no_collision (n : nat) (d : Parameters) : Prop :=
  forall q e c, dict_get d q = Some e -> is_free e = true ->
                (c < n - 1)%nat -> dict_get d (title q c) = None.

(** [base] holds [e0], and every entry that tests as free is [e0]. *)
Definition only_free (base : string) (e0 : entry) (d : Parameters) : Prop :=
  dict_get d base = Some e0 /\
  forall q e, dict_get d q = Some e -> is_free e = true -> e = e0.

(** Every declared name still holds its declared entry. *)
Definition declared_kept (params d : Parameters) : Prop :=
  forall k, dict_get params k <> None -> dict_get d k = dict_get params k.

End ExpanderModel.

(* ------------------------------------------------------------------ *)
(** ** The path both directory functions build *)

Module UtilModel.

Import Util.
Local Open Scope string_scope.

(** No character of [s] is the separator. *)
Fixpoint no_sep (s : string) : bool :=
  match s with
  | EmptyString => true
  | String c s' => (negb (is_sep c) && no_sep s')%bool
  end.

(** The non-empty pieces of a path. *)
Definition components (p : string) : list string :=
  filter (fun c => negb (String.eqb c "")) (split p).

(** The metadata object once [meta.datetime] is set. *)
Definition dated (today : string) (meta : Meta) : Meta :=
  match datetime meta with
  | None => set_datetime meta today
  | Some _ => meta
  end.

Definition date_of (today : string) (meta : Meta) : string :=
  match datetime meta with
  | Some d => d
  | None => today
  end.

(** [rootdir] once it ends with the separator. *)
Definition rootdir_of (meta : Meta) : string :=
  let r := path_join (topdir meta) (split (outputdir_raw meta)) in
  if endswith_sep r then r else r ++ "/".

(** [outputdir] before the run number is appended. *)
Definition run_prefix (today : string) (meta : Meta) (stage : string)
  : string :=
  rootdir_of meta ++ stage ++ "_" ++ date_of today meta ++ "_"
             ++ eventlabel meta ++ "_run".

(** What the loop over the keyword arguments appends. *)
Definition kw_string (kw : kwargs) : string :=
  fold_right (fun (kv : string * Z) (acc : string) =>
                fst kv ++ str_int (snd kv) ++ "_" ++ acc) "" kw.

(** The steps "remove trailing _" and "add trailing slash". *)
Definition finish (o : string) : string :=
  let o1 := match last_char o with
            | Ok c => if Ascii.eqb c "_" then drop_last o else o
            | Raise _ => o
            end in
  if endswith_sep o1 then o1 else o1 ++ "/".

(** The directory of run [ks] with its keyword-argument folder. *)
Definition run_path (today : string) (meta : Meta) (stage ks : string)
  (kw : kwargs) : string :=
  finish (run_prefix today meta stage ++ ks ++ "/" ++ kw_string kw).

(** The two guarded [os.makedirs] calls at the end of [makedirectory]:
    the file system afterwards and the directories asked for. *)
Definition create_dirs (fs : FileSystem) (p : string)
  : result (FileSystem * list string) :=
  '(fs1, made1) <-
     (if negb (path_exists fs p) then
        match makedirs fs p with
        | Ok fs' => Ok (fs', [p])
        | Raise _ => Raise PermissionError
        end
      else Ok (fs, [])) ;;
  '(fs2, made2) <-
     (if negb (path_exists fs1 (p ++ "figs")) then
        fs' <- makedirs fs1 (p ++ "figs") ;; Ok (fs', [p ++ "figs"])
      else Ok (fs1, [])) ;;
  Ok (fs2, (made1 ++ made2)%list).

End UtilModel.

(* ------------------------------------------------------------------ *)
(** ** Sample inputs *)

Module Samples.

Definition meta_of (shared : bool) (nchan : Z) : Meta :=
  mkMeta shared nchan ["lsq"; "emcee"] ["transit"] false 0%Z
         "/home/user" "data/S4" "data/S5" "wasp43b" None.

Definition rp_free : entry :=
  [PNum (22 # 100); PStr "free"; PNum 0; PNum (4 # 10); PStr "U"].

(** One free parameter with priors, one fixed and one independent. *)
Definition params_one_free : Parameters :=
  [("rp", rp_free);
   ("per", [PNum (1072149 # 100000); PStr "fixed"]);
   ("limb_dark", [PStr "kipping2013"; PStr "independent"])].

(** No free parameter. *)
Definition params_no_free : Parameters :=
  [("per", [PNum (1072149 # 100000); PStr "fixed"]);
   ("limb_dark", [PStr "kipping2013"; PStr "independent"])].

(** A fixed parameter whose name is the channel-1 name of a free one. *)
Definition params_colliding : Parameters :=
  [("rp", [PNum (1 # 10); PStr "free"]);
   ("rp_1", [PNum (2 # 10); PStr "fixed"])].

(** A free and a shared parameter, the free one without prior bounds. *)
Definition params_free_shared : Parameters :=
  [("rp", [PNum (1 # 10); PStr "free"]);
   ("per", [PNum (1072149 # 100000); PStr "shared"])].

Definition ap_bg : Util.kwargs := [("ap", 8%Z); ("bg", 10%Z)].

(** Two S4 metadata files directly in the input folder: the save file of
    the run, and an older one kept under another name.  The folder lists
    them in name order. *)
Definition s4_newer : string :=
  "/home/user/data/S4/S4_wasp43b_Meta_Save.dat".
Definition s4_older : string :=
  "/home/user/data/S4/S4_wasp43b_old_Meta_Save.dat".

Definition glob_two (pattern : string) : list string :=
  if String.eqb pattern "/home/user/data/S4/S4_wasp43b*_Meta_Save.dat"
  then [s4_newer; s4_older] else [].

(** Modification times, in seconds. *)
Definition getmtime (f : string) : Z :=
  if String.eqb f s4_newer then 1641500000%Z
  else if String.eqb f s4_older then 1641400000%Z
  else 0%Z.

Definition meta_newer : Meta := Util.set_datetime (meta_of true 3) "2022-01-06".
Definition meta_older : Meta := Util.set_datetime (meta_of true 3) "2022-01-05".

Definition loadevent_two (fname : string) : result Meta :=
  if String.eqb fname "/home/user/data/S4/S4_wasp43b_Meta_Save"
  then Ok meta_newer
  else if String.eqb fname "/home/user/data/S4/S4_wasp43b_old_Meta_Save"
  then Ok meta_older
  else Raise FileNotFoundError.

Definition empty_fs : FileSystem := mkFS [] true.

End Samples.

(* ------------------------------------------------------------------ *)
(** ** Further pieces of [fitJWST] *)

Module FitJWST.

Import Expander.

(** The scan [for arg, val in params.dict.items(): if 'shared' in val:
    sharedp = True], starting from [sharedp = False]. *)
Definition detect_shared (params : Parameters) : bool :=
  fold_left (fun (sharedp : bool) (item : string * entry) =>
               if is_shared (snd item) then true else sharedp)
            params false.

(** [meta.sharedp = sharedp] *)
Definition set_sharedp (meta : Meta) (b : bool) : Meta :=
  mkMeta b (nspecchan meta) (fit_method meta) (run_myfuncs meta)
         (testing_S5 meta) (isplots_S5 meta) (topdir meta) (inputdir meta)
         (outputdir_raw meta) (eventlabel meta) (datetime meta).

Section Arrays.
(** The sample type, elementwise division by a scalar and the mean, as in
    [Flatten]. *)
Context {F : Type} (fdiv : F -> F -> F) (fmean : list F -> F).

(** The body of the per-channel loop up to the call of [fit_channel]:
    [flux = meta.lcdata[channel,:]], [flux_err = meta.lcerr[channel,:]],
    then [flux_err = flux_err / flux.mean()] and, after it,
    [flux = flux / flux.mean()]. *)
Definition normalize_channel (lcdata lcerr : list (list F)) (channel : nat)
  : result (list F * list F) :=
  flux <- index lcdata channel ;;
  flux_err <- index lcerr channel ;;
  let flux_err := map (fun x => fdiv x (fmean flux)) flux_err in
  let flux := map (fun x => fdiv x (fmean flux)) flux in
  Ok (flux, flux_err).
End Arrays.

(** The state of the loops that create the Stage 5 directories: the
    metadata object, the file system and [meta.runs_s5]. *)
Definition runs_state : Type := (Meta * FileSystem * list Z)%type.

(** [for bg_hw_val in meta.bg_hw_range: run = util.makedirectory(meta, 'S5',
    ap=spec_hw_val, bg=bg_hw_val); meta.runs_s5.append(run)]; [None] when
    the fuel of a counter loop runs out. *)
Fixpoint make_runs_bg (fuel : nat) (today : string) (spec_hw_val : Z)
  (bg_hw_range : list Z) (st : runs_state) : option (result runs_state) :=
  match bg_hw_range with
  | [] => Some (Ok st)
  | bg_hw_val :: rest =>
      let '(meta, fs, runs_s5) := st in
      match Util.makedirectory fuel today meta "S5" None
              [("ap", spec_hw_val); ("bg", bg_hw_val)] fs with
      | None => None
      | Some (Raise e) => Some (Raise e)
      | Some (Ok (meta', fs', run, _)) =>
          make_runs_bg fuel today spec_hw_val rest
                       (meta', fs', runs_s5 ++ [run])
      end
  end.

(** [for spec_hw_val in meta.spec_hw_range: for bg_hw_val in ...] *)
Fixpoint make_runs_spec (fuel : nat) (today : string)
  (spec_hw_range bg_hw_range : list Z) (st : runs_state)
  : option (result runs_state) :=
  match spec_hw_range with
  | [] => Some (Ok st)
  | spec_hw_val :: rest =>
      match make_runs_bg fuel today spec_hw_val bg_hw_range st with
      | None => None
      | Some (Raise e) => Some (Raise e)
      | Some (Ok st') => make_runs_spec fuel today rest bg_hw_range st'
      end
  end.

(** [meta.runs_s5 = []] followed by the two loops. *)
Definition make_runs (fuel : nat) (today : string) (meta : Meta)
  (spec_hw_range bg_hw_range : list Z) (fs : FileSystem)
  : option (result runs_state) :=
  make_runs_spec fuel today spec_hw_range bg_hw_range (meta, fs, []).

End FitJWST.

(* ------------------------------------------------------------------ *)
(** ** Further notions used in the statements *)

Module MoreModel.

Import Expander.

(** The character [a] does not occur in [s]. *)
Fixpoint lacks (a : ascii) (s : string) : bool :=
  match s with
  | EmptyString => true
  | String c s' => (negb (Ascii.eqb c a) && lacks a s')%bool
  end.

(** The name channel [c] gets for the declared parameter [p]. *)
Definition renamed (params : Parameters) (c : nat) (p : string) : string :=
  match dict_get params p with
  | Some e =>
      if (is_free e && negb (c =? 0)%nat)%bool
      then (p ++ "_" ++ str_nat c)%string else p
  | None => p
  end.

(** Every character of [s] is the separator. *)
Fixpoint only_sep (s : string) : bool :=
  match s with
  | EmptyString => true
  | String c s' => (is_sep c && only_sep s')%bool
  end.

(** The keyword arguments as a folder name: [key1value1_key2value2]. *)
Definition kw_folder (kw : Util.kwargs) : string :=
  String.concat "_"
    (map (fun kv : string * Z => (fst kv ++ str_int (snd kv))%string) kw).

(** The keyword-argument folder with its separator, or nothing. *)
Definition kw_tail (kw : Util.kwargs) : string :=
  match kw with
  | [] => EmptyString
  | _ => (kw_folder kw ++ "/")%string
  end.

(** The folder [read_s4_meta] searches, once it ends with the separator. *)
Definition search_root (meta : Meta) : string :=
  let r := path_join (topdir meta) (split (inputdir meta)) in
  if endswith_sep r then r else (r ++ "/")%string.

(** A mask with 0 written wherever the flags are set. *)
Fixpoint zero_where (flags : list bool) (mask : list Z) : list Z :=
  match flags, mask with
  | b :: flags', m :: mask' =>
      (if b then 0%Z else m) :: zero_where flags' mask'
  | _, _ => mask
  end.

(** Every [Fit k] of a trace comes right after [SetFitter k]. *)
Fixpoint fitter_tagged (prev : option FitChannel.event)
  (tr : list FitChannel.event) : bool :=
  match tr with
  | [] => true
  | ev :: rest =>
      (match ev with
       | FitChannel.Fit k =>
           match prev with
           | Some (FitChannel.SetFitter k') => String.eqb k k'
           | _ => false
           end
       | _ => true
       end && fitter_tagged (Some ev) rest)%bool
  end.

(** The names of the models a trace constructs, in order. *)
Definition model_calls (tr : list FitChannel.event) : list string :=
  flat_map (fun ev => match ev with
                      | FitChannel.MakeModel n => [n]
                      | _ => []
                      end) tr.

(** No model is constructed once a fitter has been chosen. *)
Fixpoint models_first (started : bool) (tr : list FitChannel.event) : bool :=
  match tr with
  | [] => true
  | FitChannel.MakeModel _ :: rest =>
      (negb started && models_first started rest)%bool
  | FitChannel.SetFitter _ :: rest => models_first true rest
  | _ :: rest => models_first started rest
  end.

Definition is_plot (ev : FitChannel.event) : bool :=
  match ev with
  | FitChannel.Plot => true
  | _ => false
  end.

(** The two directory loops of [fitJWST] as one loop over the
    [(spec_hw_val, bg_hw_val)] pairs in the order they are visited. *)
Fixpoint make_runs_pairs (fuel : nat) (today : string)
  (pairs : list (Z * Z)) (st : FitJWST.runs_state)
  : option (result FitJWST.runs_state) :=
  match pairs with
  | [] => Some (Ok st)
  | (spec_hw_val, bg_hw_val) :: rest =>
      let '(meta, fs, runs_s5) := st in
      match Util.makedirectory fuel today meta "S5" None
              [("ap", spec_hw_val); ("bg", bg_hw_val)] fs with
      | None => None
      | Some (Raise e) => Some (Raise e)
      | Some (Ok (meta', fs', run, _)) =>
          make_runs_pairs fuel today rest (meta', fs', runs_s5 ++ [run])
      end
  end.

End MoreModel.

(* ------------------------------------------------------------------ *)
(** ** [trim] of [eureka/lib/util.py] *)

Module Trim.

(** What [trim] can raise: a window with fewer than two entries or an
    empty [diffmask] list, and a missing attribute. *)
Inductive exn : Type :=
| IndexError
| AttributeError.

Inductive outcome (A : Type) : Type :=
| Returns (a : A)
| Raises (e : exn).
Arguments Returns {A} a.
Arguments Raises {A} e.

Definition and_then {A B} (m : outcome A) (k : A -> outcome B) : outcome B :=
  match m with
  | Returns a => k a
  | Raises e => Raises e
  end.

(** [l[i]] and [l[-1]] on a list. *)
Definition item {A} (l : list A) (i : nat) : outcome A :=
  match nth_error l i with
  | Some a => Returns a
  | None => Raises IndexError
  end.

Definition last_of {A} (l : list A) : outcome A :=
  match rev l with
  | a :: _ => Returns a
  | [] => Raises IndexError
  end.

(** [obj.attr] for an attribute that may not be there. *)
Definition attr {A} (a : option A) : outcome A :=
  match a with
  | Some x => Returns x
  | None => Raises AttributeError
  end.

(** A slice bound brought into [0..n]: a negative bound counts from the
    end, and what is still outside is clipped. *)
Definition clip (i : Z) (n : nat) : nat :=
  if (i <? 0)%Z then Z.to_nat (Z.max (i + Z.of_nat n) 0)
  else Z.to_nat (Z.min i (Z.of_nat n)).

(** [l[a:b]] *)
Definition slice {A} (a b : Z) (l : list A) : list A :=
  let start := clip a (List.length l) in
  let stop := clip b (List.length l) in
  firstn (stop - start) (skipn start l).

(** [img[y0:y1, x0:x1]] and [cube[:, y0:y1, x0:x1]] *)
Definition crop2 {A} (y0 y1 x0 x1 : Z) (img : list (list A))
  : list (list A) :=
  map (slice x0 x1) (slice y0 y1 img).

Definition crop3 {A} (y0 y1 x0 x1 : Z) (cube : list (list (list A)))
  : list (list (list A)) :=
  map (crop2 y0 y1 x0 x1) cube.

Section Arrays.
(** The element types of the science arrays and of the data-quality
    array. *)
Context {F D : Type}.

(** The attributes of the data object that [trim] reads or writes; [None]
    stands for an attribute that is not there. *)
Record Data : Type := mkData {
  data : list (list (list F));
  err : list (list (list F));
  dq : list (list (list D));
  wave : list (list F);
  v0 : list (list (list F));
  variance : option (list (list (list F)));
  subdata : option (list (list (list F)));
  suberr : option (list (list (list F)));
  subdq : option (list (list (list D)));
  subwave : option (list (list F));
  subv0 : option (list (list (list F)));
  subvariance : option (list (list (list F)))
}.

(** The attributes of the metadata object that [trim] reads or writes. *)
Record TrimMeta : Type := mkTrimMeta {
  ywindow : list Z;
  xwindow : list Z;
  subny : option Z;
  subnx : option Z;
  diffmask : option (list (list (list (list F))));
  subdiffmask : option (list (list (list (list F))))
}.

Definition trim (d : Data) (meta : TrimMeta) : outcome (Data * TrimMeta) :=
  and_then (item (ywindow meta) 0) (fun y0 =>
  and_then (item (ywindow meta) 1) (fun y1 =>
  and_then (item (xwindow meta) 0) (fun x0 =>
  and_then (item (xwindow meta) 1) (fun x1 =>
  let d1 :=
    mkData (data d) (err d) (dq d) (wave d) (v0 d) (variance d)
           (Some (crop3 y0 y1 x0 x1 (data d)))
           (Some (crop3 y0 y1 x0 x1 (err d)))
           (Some (crop3 y0 y1 x0 x1 (dq d)))
           (Some (crop2 y0 y1 x0 x1 (wave d)))
           (Some (crop3 y0 y1 x0 x1 (v0 d)))
           (subvariance d) in
  let meta1 :=
    mkTrimMeta (ywindow meta) (xwindow meta)
               (Some (y1 - y0)%Z) (Some (x1 - x0)%Z)
               (diffmask meta) (subdiffmask meta) in
  match diffmask meta1 with
  | None => Returns (d1, meta1)
  | Some masks =>
      and_then (attr (subdiffmask meta1)) (fun subs =>
      and_then (last_of masks) (fun mask =>
      let meta2 :=
        mkTrimMeta (ywindow meta1) (xwindow meta1) (subny meta1)
                   (subnx meta1) (diffmask meta1)
                   (Some (subs ++ [crop3 y0 y1 x0 x1 mask])%list) in
      and_then (attr (variance d1)) (fun var =>
      let d2 :=
        mkData (data d1) (err d1) (dq d1) (wave d1) (v0 d1) None
               (subdata d1) (suberr d1) (subdq d1) (subwave d1) (subv0 d1)
               (Some (crop3 y0 y1 x0 x1 var)) in
      Returns (d2, meta2))))
  end)))).
End Arrays.

(** [cube[f, i, j]] and [img[i, j]] for indices inside the array. *)
Definition at2 {A} (img : list (list A)) (i j : nat) : option A :=
  match nth_error img i with
  | Some row => nth_error row j
  | None => None
  end.

Definition at3 {A} (cube : list (list (list A))) (f i j : nat) : option A :=
  match nth_error cube f with
  | Some img => at2 img i j
  | None => None
  end.

(** An image of [ny] rows of [nx] samples, and a cube of such images. *)
Definition shape2 {A} (ny nx : nat) (img : list (list A)) : Prop :=
  List.length img = ny /\ Forall (fun row => List.length row = nx) img.

Definition shape3 {A} (ny nx : nat) (cube : list (list (list A))) : Prop :=
  Forall (shape2 ny nx) cube.

(** [sub] is the window of [ny] rows and [nx] columns of [src] whose
    first sample is [src[y0, x0]]. *)
Definition window2 {A} (y0 x0 ny nx : nat) (src sub : list (list A))
  : Prop :=
  shape2 ny nx sub
  /\ forall i j, (i < ny)%nat -> (j < nx)%nat ->
       at2 sub i j = at2 src (y0 + i) (x0 + j)
       /\ at2 sub i j <> None.

Definition window3 {A} (y0 x0 ny nx : nat) (src sub : list (list (list A)))
  : Prop :=
  Forall2 (window2 y0 x0 ny nx) src sub.

End Trim.

Module TrimSamples.

Import Trim.

(** One image of two rows and three columns in every array. *)
Definition image23 : list (list Z) := [[1; 2; 3]; [4; 5; 6]]%Z.

Definition data23 : @Data Z Z :=
  mkData [image23] [image23] [image23] image23 [image23]
         None None None None None None None.

(** A window inside the image, and one that leaves it. *)
Definition meta_inside : @TrimMeta Z :=
  mkTrimMeta [0; 1]%Z [1; 3]%Z None None None None.

Definition meta_outside : @TrimMeta Z :=
  mkTrimMeta [0; 5]%Z [0; -1]%Z None None None None.

End TrimSamples.

(* ------------------------------------------------------------------ *)
(** ** [find_fits] of [eureka/lib/util.py] *)

Module FindFits.

Local Open Scope string_scope.

(** What [find_fits] can raise: its own [AssertionError], the
    [IndexError] of [meta.inputdir[-1]], the [OSError] of
    [os.path.getmtime] and the [UnboundLocalError] of reading [folder]
    before it is assigned. *)
Inductive exn : Type :=
| AssertionError
| IndexError
| OSError
| UnboundLocalError.

Inductive outcome (A : Type) : Type :=
| Returns (a : A)
| Raises (e : exn).
Arguments Returns {A} a.
Arguments Raises {A} e.

Definition and_then {A B} (m : outcome A) (k : A -> outcome B) : outcome B :=
  match m with
  | Returns a => k a
  | Raises e => Raises e
  end.

(** The attributes of the metadata object that [find_fits] reads or
    writes. *)
Record FitsMeta : Type := mkFitsMeta {
  inputdir : string;
  inputdir_raw : string;
  topdir : string;
  suffix : string;
  filename : string
}.

(** What [print] receives: the folder searched and the folder chosen. *)
Inductive output : Type :=
| WarnFolders (searched chosen : string).

(** [s[n:]] on a string. *)
Fixpoint str_from (n : nat) (s : string) : string :=
  match n, s with
  | O, _ => s
  | S n', String _ s' => str_from n' s'
  | S _, EmptyString => EmptyString
  end.

(** [os.sep.join(fname.split(os.sep)[:-1])] *)
Definition parent (fname : string) : string :=
  String.concat "/" (removelast (Os.split fname)).

(** [np.unique] on strings: the distinct values, sorted. *)
Fixpoint insert_sorted (x : string) (l : list string) : list string :=
  match l with
  | [] => [x]
  | y :: l' => if String.leb x y then x :: l else y :: insert_sorted x l'
  end.

Definition unique (l : list string) : list string :=
  fold_right insert_sorted [] (nodup string_dec l).

Section WithCollaborators.
(** [glob.glob(pattern)] and [glob.glob(pattern, recursive=True)];
    [sort_nicely] of [lib/sort_nicely.py], which is not among the sources;
    [os.path.getmtime], [None] when it raises. *)
Variable glob : string -> list string.
Variable glob_recursive : string -> list string.
Variable sort_nicely : list string -> list string.
Variable getmtime : string -> option Z.

(** [max(xs, key=os.path.getmtime)] once the first element is read: the
    key of every element is taken, in order, and a later element replaces
    the best one only when its key is larger. *)
Fixpoint max_from (best : string) (kbest : Z) (xs : list string)
  : outcome string :=
  match xs with
  | [] => Returns best
  | x :: xs' =>
      match getmtime x with
      | None => Raises OSError
      | Some k =>
          if (kbest <? k)%Z then max_from x k xs'
          else max_from best kbest xs'
      end
  end.

(** The files [find_fits] works with. *)
Definition found (meta : FitsMeta) : list string :=
  let fnames := glob (inputdir meta ++ "*" ++ suffix meta ++ ".fits") in
  if (List.length fnames =? 0)%nat
  then sort_nicely
         (glob_recursive
            (inputdir meta ++ "**" ++ "/" ++ "*" ++ suffix meta ++ ".fits"))
  else fnames.

Definition find_fits (meta : FitsMeta) : list output * outcome FitsMeta :=
  let fnames := found meta in
  if (List.length fnames =? 0)%nat then ([], Raises AssertionError)
  else
    let folders := unique (map parent fnames) in
    (* [if len(folders)>=1: folder = max(...)]; without it [folder] is
       unassigned when it is read. *)
    let folder : outcome string :=
      match folders with
      | [] => Raises UnboundLocalError
      | x :: xs =>
          match getmtime x with
          | None => Raises OSError
          | Some k => max_from x k xs
          end
      end in
    match folder with
    | Raises e => ([], Raises e)
    | Returns folder =>
        let printed :=
          if (1 <? List.length folders)%nat
          then [WarnFolders (inputdir meta) folder] else [] in
        let meta1 :=
          mkFitsMeta folder (str_from (String.length (topdir meta)) folder)
                     (topdir meta) (suffix meta) (filename meta) in
        (printed,
         match last_char (inputdir meta1) with
         | Raise _ => Raises IndexError
         | Ok c =>
             Returns
               (if negb (Os.is_sep c)
                then mkFitsMeta (inputdir meta1 ++ "/") (inputdir_raw meta1)
                                (topdir meta1) (suffix meta1) (filename meta1)
                else meta1)
         end)
    end.
End WithCollaborators.

End FindFits.

Module FindFitsSamples.

Import FindFits.
Local Open Scope string_scope.

(** Two runs below the input folder, the second one modified later. *)
Definition fits_meta : FitsMeta :=
  mkFitsMeta "/home/user/data/" "data/" "/home/user/" "rateints"
             "S3_wasp43b.ecf".

Definition glob_runs (pattern : string) : list string :=
  if String.eqb pattern "/home/user/data/*rateints.fits"
  then ["/home/user/data/S2_run1/seg1_rateints.fits";
        "/home/user/data/S2_run2/seg1_rateints.fits";
        "/home/user/data/S2_run2/seg2_rateints.fits"]
  else [].

Definition mtime_runs (folder : string) : option Z :=
  if String.eqb folder "/home/user/data/S2_run1" then Some 1641400000%Z
  else if String.eqb folder "/home/user/data/S2_run2" then Some 1641500000%Z
  else None.

End FindFitsSamples.

(* ------------------------------------------------------------------ *)
(** ** [load_general_s4_meta_info] of [s5_fit.py] *)

Module LoadS4.

Import FindFits.
Local Open Scope string_scope.

(** The attributes of the Stage 4 metadata object that
    [load_general_s4_meta_info] reads or writes; [None] stands for
    Python's [None] and for an attribute that is not set. *)
Record S4Meta : Type := mkS4Meta {
  topdir : string;
  outputdir : string;
  inputdir : string;
  inputdir_raw : string;
  outputdir_raw : string;
  eventlabel : string;
  datetime : option string;
  old_datetime : option string;
  allapers : bool;
  s4_allapers : option bool
}.

(** [s[0]] on a string. *)
Definition first_char (s : string) : result ascii :=
  match s with
  | String c _ => Ok c
  | EmptyString => Raise Py.IndexError
  end.

Section WithCollaborators.
(** [rd.read_ecf(ecffile)] followed by [rd.store_ecf(meta, ecf)], of
    [lib/readECF.py], which is not among the sources: given the file name
    and the metadata object, the object with the control file's values
    stored in it, or what was raised. *)
Variable apply_ecf : string -> S4Meta -> result S4Meta.

(** The first argument, the temporary Stage 5 object, is overwritten by
    [meta = s4_meta] before it is read. *)
Definition load_general_s4_meta_info (meta s4_meta : S4Meta)
  : result S4Meta :=
  let s4_outputdir :=
    str_from (String.length (topdir s4_meta)) (outputdir s4_meta) in
  c0 <- first_char s4_outputdir ;;
  let s4_outputdir :=
    if Ascii.eqb c0 "/" then str_from 1 s4_outputdir else s4_outputdir in
  c1 <- last_char s4_outputdir ;;
  let s4_outputdir :=
    if negb (Ascii.eqb c1 "/") then s4_outputdir ++ "/" else s4_outputdir in
  let allapers0 := allapers s4_meta in
  let meta := s4_meta in
  meta <- apply_ecf ("S5_" ++ eventlabel meta ++ ".ecf") meta ;;
  Ok (mkS4Meta (topdir meta) (outputdir meta)
               s4_outputdir s4_outputdir (outputdir meta)
               (eventlabel meta) None (datetime meta)
               (allapers meta) (Some allapers0)).
End WithCollaborators.

(** The Stage 4 output directory relative to [topdir], as
    [load_general_s4_meta_info] stores it: without a leading separator
    and with a trailing one. *)
Definition relative_dir (rest : string) : string :=
  let r := if Os.startswith_sep rest then str_from 1 rest else rest in
  if Os.endswith_sep r then r else r ++ "/".

End LoadS4.

Module LoadS4Samples.

Import LoadS4.
Local Open Scope string_scope.

(** The metadata object Stage 4 saved, and a Stage 5 control file that
    sets the output folder. *)
Definition s4_saved : S4Meta :=
  mkS4Meta "/home/user" "/home/user/data/S4_2022-01-05_wasp43b_run1/ap8_bg10/"
           "data/S3" "data/S3" "data" "wasp43b" (Some "2022-01-05") None
           true None.

Definition ecf_s5 (ecffile : string) (meta : S4Meta) : result S4Meta :=
  if String.eqb ecffile "S5_wasp43b.ecf"
  then Ok (mkS4Meta (topdir meta) "data/S5" "data/S4" (inputdir_raw meta)
                    (outputdir_raw meta) (eventlabel meta) (datetime meta)
                    (old_datetime meta) false (s4_allapers meta))
  else Raise FileNotFoundError.

End LoadS4Samples.

(* ================================================================== *)
(** * Properties *)

(** ** Strings and decimal numerals *)

Section StringFacts.

Local Open Scope string_scope.

Lemma append_cancel_l (p a b : string) : p ++ a = p ++ b -> a = b.
Proof.
  induction p as [|c p IH]; simpl; intro H; [exact H|].
  injection H as H. auto.
Qed.

Lemma append_assoc (a b c : string) : (a ++ b) ++ c = a ++ b ++ c.
Proof. induction a as [|x a IH]; simpl; [reflexivity | now rewrite IH]. Qed.

Lemma append_nil_r (a : string) : a ++ "" = a.
Proof. induction a as [|x a IH]; simpl; [reflexivity | now rewrite IH]. Qed.

Lemma length_append (a b : string) :
  String.length (a ++ b) = (String.length a + String.length b)%nat.
Proof. induction a as [|x a IH]; simpl; [reflexivity | now rewrite IH]. Qed.

Lemma str_int_inj (x y : Z) : str_int x = str_int y -> x = y.
Proof.
  unfold str_int. intro H.
  assert (E : Some (Z.to_int x) = Some (Z.to_int y)).
  { rewrite <- (NilEmpty.isi (Z.to_int x)), <- (NilEmpty.isi (Z.to_int y)).
    now rewrite H. }
  injection E as E.
  rewrite <- (DecimalZ.of_to x), <- (DecimalZ.of_to y). now rewrite E.
Qed.

Lemma str_nat_inj (x y : nat) : str_nat x = str_nat y -> x = y.
Proof. unfold str_nat. intro H. apply str_int_inj in H. lia. Qed.

End StringFacts.

(** ** The parameter set as a mapping *)

Section ParametersFacts.

Lemma dict_get_setattr (d : Parameters) (k q : string) (e : entry) :
  dict_get (setattr d k e) q =
  if String.eqb q k then Some e else dict_get d q.
Proof.
  induction d as [|[k' e'] d IH]; simpl.
  - destruct (String.eqb q k); reflexivity.
  - destruct (String.eqb_spec k k') as [->|Hk]; simpl.
    + destruct (String.eqb q k'); reflexivity.
    + destruct (String.eqb_spec q k') as [->|Hq].
      * destruct (String.eqb_spec k' k); [congruence | reflexivity].
      * exact IH.
Qed.

Lemma dict_get_keys (d : Parameters) (p : string) :
  In p (keys d) <-> dict_get d p <> None.
Proof.
  induction d as [|[k e] d IH]; simpl.
  - split; [tauto | congruence].
  - destruct (String.eqb_spec p k) as [->|Hp].
    + split; [discriminate | auto].
    + rewrite <- IH. split; [intros [H|H]; [congruence | exact H] | auto].
Qed.

Lemma getitem_some (d : Parameters) (p : string) (e : entry) :
  dict_get d p = Some e -> getitem d p = Ok e.
Proof. unfold getitem. now intros ->. Qed.

End ParametersFacts.

(** ** The loops of [make_longparamlist] compute the closed forms *)

Section ExpanderLoops.

Import Expander ExpanderModel.

Lemma title_neq (p : string) (c : nat) : title p c <> p.
Proof.
  intro H. apply (f_equal String.length) in H.
  unfold title in H. rewrite !length_append in H. simpl in H. lia.
Qed.

Lemma title_inj (p : string) (c c' : nat) : title p c = title p c' -> c = c'.
Proof.
  unfold title. intro H.
  apply append_cancel_l in H. apply append_cancel_l in H.
  apply str_nat_inj in H. lia.
Qed.

Lemma imap_from_ext {A B} (f g : nat -> A -> B) (l : list A) (i : nat) :
  (forall c x, f c x = g c x) -> imap_from i f l = imap_from i g l.
Proof.
  intro H. revert i. induction l as [|x l IH]; intro i; simpl;
    [reflexivity | now rewrite H, IH].
Qed.

Lemma imap_from_shift {A B} (f : nat -> A -> B) (l : list A) (i : nat) :
  imap_from (S i) f l = imap_from i (fun c => f (S c)) l.
Proof.
  revert i. induction l as [|x l IH]; intro i; simpl;
    [reflexivity | now rewrite IH].
Qed.

Lemma imap_from_imap_from {A B C} (f : nat -> B -> C) (g : nat -> A -> B)
  (l : list A) (i : nat) :
  imap_from i f (imap_from i g l) = imap_from i (fun c x => f c (g c x)) l.
Proof.
  revert i. induction l as [|x l IH]; intro i; simpl;
    [reflexivity | now rewrite IH].
Qed.

Lemma imap_from_map {A B C} (f : nat -> B -> C) (g : A -> B)
  (l : list A) (i : nat) :
  imap_from i f (map g l) = imap_from i (fun c x => f c (g x)) l.
Proof.
  revert i. induction l as [|x l IH]; intro i; simpl;
    [reflexivity | now rewrite IH].
Qed.

Lemma imap_from_const {A B} (f : nat -> B) (l : list A) (i : nat) :
  imap_from i (fun c _ => f c) l = map f (seq i (List.length l)).
Proof.
  revert i. induction l as [|x l IH]; intro i; simpl;
    [reflexivity | now rewrite IH].
Qed.

Lemma imap_from_length {A B} (f : nat -> A -> B) (l : list A) (i : nat) :
  List.length (imap_from i f l) = List.length l.
Proof.
  revert i. induction l as [|x l IH]; intro i; simpl;
    [reflexivity | now rewrite IH].
Qed.

Lemma imap_from_id_map {A B} (f : A -> B) (l : list A) (i : nat) :
  imap_from i (fun _ x => f x) l = map f l.
Proof.
  revert i. induction l as [|x l IH]; intro i; simpl;
    [reflexivity | now rewrite IH].
Qed.

Lemma append_at_app {A} (pre : list (list A)) (l : list A)
  (rest : list (list A)) (x : A) :
  append_at (List.length pre) x (pre ++ l :: rest)
  = Ok (pre ++ (l ++ [x]) :: rest).
Proof.
  induction pre as [|h pre IH]; simpl; [reflexivity | now rewrite IH].
Qed.

Lemma append_all_loop (p : string) (mid pre post : list (list string)) :
  for_each (seq (List.length pre) (List.length mid))
           (fun c ll => append_at c p ll) (pre ++ mid ++ post)
  = Ok (pre ++ map (fun l => l ++ [p]) mid ++ post).
Proof.
  revert pre. induction mid as [|l mid IH]; intro pre; simpl; [reflexivity|].
  rewrite append_at_app. simpl.
  replace (pre ++ (l ++ [p]) :: mid ++ post)
    with ((pre ++ [l ++ [p]]) ++ mid ++ post)
    by (rewrite <- app_assoc; reflexivity).
  replace (S (List.length pre)) with (List.length (pre ++ [l ++ [p]]))
    by (rewrite length_app; simpl; lia).
  rewrite IH. rewrite <- app_assoc. reflexivity.
Qed.

Lemma append_all_spec (n : nat) (p : string) (ll : list (list string)) :
  List.length ll = n ->
  append_all (Z.of_nat n) p ll = Ok (map (fun l => l ++ [p]) ll).
Proof.
  intro H. unfold append_all, range. rewrite Nat2Z.id. subst n.
  pose proof (append_all_loop p ll [] []) as E. simpl in E.
  rewrite !app_nil_r in E. exact E.
Qed.

Lemma dict_get_title_copy (d : Parameters) (p : string) (c : nat)
  (e : entry) :
  dict_get d p = Some e -> dict_get (setattr d (title p c) e) p = Some e.
Proof.
  intro H. rewrite dict_get_setattr.
  destruct (String.eqb_spec p (title p c)) as [E|_]; [|exact H].
  symmetry in E. now apply title_neq in E.
Qed.

Lemma expand_free_loop (p : string) (e : entry)
  (mid pre post : list (list string)) (a : nat) (d : Parameters) :
  dict_get d p = Some e ->
  List.length pre = S a ->
  for_each (seq a (List.length mid))
    (fun c (st : state) =>
       let '(params, longparamlist) := st in
       e <- getitem params p ;;
       let params' := setattr params (title p c) e in
       longparamlist' <- append_at (c + 1) (title p c) longparamlist ;;
       Ok (params', longparamlist'))
    (d, pre ++ mid ++ post)
  = Ok (fold_left (fun d c => setattr d (title p c) e)
                  (seq a (List.length mid)) d,
        pre ++ imap_from a (fun c l => l ++ [title p c]) mid ++ post).
Proof.
  revert pre a d. induction mid as [|l mid IH]; intros pre a d Hd Hpre;
    simpl; [reflexivity|].
  rewrite (getitem_some _ _ _ Hd). simpl.
  replace (a + 1)%nat with (List.length pre) by lia.
  rewrite append_at_app. simpl.
  replace (pre ++ (l ++ [title p a]) :: mid ++ post)
    with ((pre ++ [l ++ [title p a]]) ++ mid ++ post)
    by (rewrite <- app_assoc; reflexivity).
  rewrite IH.
  - rewrite <- app_assoc. reflexivity.
  - now apply dict_get_title_copy.
  - rewrite length_app. simpl. lia.
Qed.

Lemma process_param_spec (n : nat) (p : string) (e : entry)
  (d : Parameters) (ll : list (list string)) :
  (1 <= n)%nat -> List.length ll = n -> dict_get d p = Some e ->
  process_param (Z.of_nat n) p (d, ll)
  = Ok (step n p d,
        imap_from 0 (fun c l => l ++ [chan_name (is_free e) p c]) ll).
Proof.
  intros Hn Hlen Hd. unfold process_param, step.
  rewrite (getitem_some _ _ _ Hd), Hd. simpl.
  destruct (is_free e) eqn:Hfree.
  - destruct ll as [|l0 rest]; [simpl in Hlen; lia|]. simpl.
    unfold expand_free, range.
    replace (Z.to_nat (Z.of_nat n - 1)) with (List.length rest)
      by (simpl in Hlen; lia).
    pose proof (expand_free_loop p e rest [l0 ++ [p]] [] 0 d Hd eq_refl) as E.
    rewrite !app_nil_r in E. simpl in E. rewrite E.
    unfold copies. replace (n - 1)%nat with (List.length rest)
      by (simpl in Hlen; lia).
    rewrite imap_from_shift. reflexivity.
  - assert (E : append_all (Z.of_nat n) p ll
                = Ok (imap_from 0 (fun c l => l ++ [chan_name false p c]) ll)).
    { rewrite (append_all_spec n p ll Hlen).
      rewrite <- (imap_from_id_map _ ll 0). f_equal.
      apply imap_from_ext. intros [|c] x; reflexivity. }
    rewrite E. simpl. destruct (is_shared e); reflexivity.
Qed.

Lemma dict_get_copies (m : nat) (p q : string) (e : entry)
  (d : Parameters) :
  dict_get (copies m p e d) q = Some e
  \/ dict_get (copies m p e d) q = dict_get d q.
Proof.
  unfold copies. generalize (seq 0 m) as l. intro l. revert d.
  induction l as [|c l IH]; intro d; simpl; [now right|].
  destruct (IH (setattr d (title p c) e)) as [H|H]; [now left|].
  rewrite H, dict_get_setattr.
  destruct (String.eqb q (title p c)); [now left | now right].
Qed.

Lemma dict_get_copies_title (m c : nat) (p : string) (e : entry)
  (d : Parameters) :
  (c < m)%nat -> dict_get (copies m p e d) (title p c) = Some e.
Proof.
  intro Hc. unfold copies.
  assert (G : forall l d,
             In c l \/ dict_get d (title p c) = Some e ->
             dict_get (fold_left (fun d c => setattr d (title p c) e) l d)
                      (title p c) = Some e).
  { induction l as [|c' l IH]; intros d' H; simpl.
    - destruct H as [[]|H]; exact H.
    - apply IH. rewrite dict_get_setattr.
      destruct (String.eqb_spec (title p c) (title p c')) as [E|E].
      + now right.
      + destruct H as [[->|H]|H]; [congruence | now left | now right]. }
  apply G. left. apply in_seq. lia.
Qed.

Lemma dict_get_copies_other (m : nat) (p q : string) (e : entry)
  (d : Parameters) :
  (forall c, (c < m)%nat -> q <> title p c) ->
  dict_get (copies m p e d) q = dict_get d q.
Proof.
  intro Hq. unfold copies.
  assert (G : forall l d,
             (forall c, In c l -> (c < m)%nat) ->
             dict_get (fold_left (fun d c => setattr d (title p c) e) l d) q
             = dict_get d q).
  { induction l as [|c' l IH]; intros d' Hl; simpl; [reflexivity|].
    rewrite IH by (intros c Hc; apply Hl; now right).
    rewrite dict_get_setattr.
    destruct (String.eqb_spec q (title p c')) as [E|E]; [|reflexivity].
    exfalso. apply (Hq c'); [apply Hl; now left | exact E]. }
  apply G. intros c Hc. apply in_seq in Hc. lia.
Qed.

Lemma step_keeps_keys (n : nat) (p q : string) (d : Parameters) :
  dict_get d q <> None -> dict_get (step n p d) q <> None.
Proof.
  intro H. unfold step. destruct (dict_get d p) as [e|]; [|exact H].
  destruct (is_free e); [|exact H].
  destruct (dict_get_copies (n - 1) p q e d) as [E|E]; rewrite E;
    [discriminate | exact H].
Qed.

Lemma gettable_step (n : nat) (p : string) (tlist : list string)
  (d : Parameters) :
  gettable tlist d -> gettable tlist (step n p d).
Proof. intros H q Hq. apply step_keeps_keys. now apply H. Qed.

Lemma gettable_keys (d : Parameters) : gettable (keys d) d.
Proof. intros p Hp. now apply dict_get_keys. Qed.

Lemma gettable_tail (p : string) (t : list string) (d : Parameters) :
  gettable (p :: t) d -> gettable t d.
Proof. intros H q Hq. apply H. now right. Qed.

Lemma loop_spec (n : nat) (tlist : list string) (d : Parameters)
  (ll : list (list string)) :
  (1 <= n)%nat -> List.length ll = n -> gettable tlist d ->
  for_each tlist (process_param (Z.of_nat n)) (d, ll)
  = Ok (final n tlist d,
        imap_from 0 (fun c l => l ++ row_names n c tlist d) ll).
Proof.
  intros Hn. revert d ll.
  induction tlist as [|p t IH]; intros d ll Hlen Hget.
  - simpl. f_equal. f_equal. rewrite <- (map_id ll) at 1.
    rewrite <- (imap_from_id_map (fun x => x) ll 0).
    apply imap_from_ext. intros c x. now rewrite app_nil_r.
  - unfold final. cbn [for_each row_names fold_left]. fold (final n t).
    destruct (dict_get d p) as [e|] eqn:Hd;
      [|exfalso; apply (Hget p); [now left | exact Hd]].
    rewrite (process_param_spec n p e d ll Hn Hlen Hd).
    cbn [bind]. rewrite IH.
    + rewrite imap_from_imap_from. f_equal. f_equal.
      apply imap_from_ext. intros c x. now rewrite <- app_assoc.
    + now rewrite imap_from_length.
    + apply gettable_step. now apply gettable_tail in Hget.
Qed.

Lemma row_names_0 (n : nat) (tlist : list string) (d : Parameters) :
  gettable tlist d -> row_names n 0 tlist d = tlist.
Proof.
  revert d. induction tlist as [|p t IH]; intros d Hget; simpl;
    [reflexivity|].
  destruct (dict_get d p) as [e|] eqn:Hd;
    [|exfalso; apply (Hget p); [now left | exact Hd]].
  simpl. f_equal. apply IH. apply gettable_step.
  now apply gettable_tail in Hget.
Qed.

Lemma row_names_length (n c : nat) (tlist : list string) (d : Parameters) :
  gettable tlist d -> List.length (row_names n c tlist d) = List.length tlist.
Proof.
  revert d. induction tlist as [|p t IH]; intros d Hget; simpl;
    [reflexivity|].
  destruct (dict_get d p) as [e|] eqn:Hd;
    [|exfalso; apply (Hget p); [now left | exact Hd]].
  simpl. f_equal. apply IH. apply gettable_step.
  now apply gettable_tail in Hget.
Qed.

(** With at least one channel the expander returns, and what it returns
    is given by the closed forms. *)
Lemma make_longparamlist_closed (meta : Meta) (params : Parameters)
  (n : nat) :
  effective_nspecchan meta = Z.of_nat n -> (1 <= n)%nat ->
  make_longparamlist meta params
  = Ok (final n (keys params) params,
        (map (fun c => row_names n c (keys params) params) (seq 0 n),
         keys params)).
Proof.
  intros Heff Hn. unfold make_longparamlist. rewrite Heff.
  rewrite loop_spec; [|exact Hn| |apply gettable_keys].
  2:{ unfold range. now rewrite length_map, length_seq, Nat2Z.id. }
  cbn [bind]. rewrite imap_from_map. cbn [app].
  rewrite imap_from_const. unfold range.
  rewrite length_seq, Nat2Z.id.
  destruct n as [|n]; [lia|]. cbn [seq map index nth_error bind].
  rewrite row_names_0 by apply gettable_keys. reflexivity.
Qed.

End ExpanderLoops.

(** ** One free parameter *)

Section OneFreeParameter.

Import Expander ExpanderModel.

Variables (base : string) (e0 : entry).

Lemma only_free_copies (m : nat) (p : string) (d : Parameters) :
  only_free base e0 d -> only_free base e0 (copies m p e0 d).
Proof.
  intros [Hb Hf]. split.
  - destruct (dict_get_copies m p base e0 d) as [E|E]; rewrite E; auto.
  - intros q e Hq He.
    destruct (dict_get_copies m p q e0 d) as [E|E]; rewrite E in Hq.
    + congruence.
    + eauto.
Qed.

Lemma only_free_step (n : nat) (p : string) (d : Parameters) :
  only_free base e0 d -> only_free base e0 (step n p d).
Proof.
  intros H. unfold step. destruct (dict_get d p) as [e|] eqn:Hd; [|exact H].
  destruct (is_free e) eqn:He; [|exact H].
  rewrite (proj2 H p e Hd He). now apply only_free_copies.
Qed.

Lemma copy_survives_step (n : nat) (p q : string) (d : Parameters) :
  only_free base e0 d -> dict_get d q = Some e0 ->
  dict_get (step n p d) q = Some e0.
Proof.
  intros H Hq. unfold step.
  destruct (dict_get d p) as [e|] eqn:Hd; [|exact Hq].
  destruct (is_free e) eqn:He; [|exact Hq].
  rewrite (proj2 H p e Hd He).
  destruct (dict_get_copies (n - 1) p q e0 d) as [E|E]; rewrite E; auto.
Qed.

Lemma copy_survives_final (n : nat) (tlist : list string) (q : string)
  (d : Parameters) :
  only_free base e0 d -> dict_get d q = Some e0 ->
  dict_get (final n tlist d) q = Some e0.
Proof.
  revert d. induction tlist as [|p t IH]; intros d H Hq; simpl; [exact Hq|].
  apply IH; [now apply only_free_step | now apply copy_survives_step].
Qed.

Lemma final_has_copies (n c : nat) (tlist : list string) (d : Parameters) :
  only_free base e0 d -> is_free e0 = true -> In base tlist ->
  (c < n - 1)%nat ->
  dict_get (final n tlist d) (title base c) = Some e0.
Proof.
  intros H He0. revert d H.
  induction tlist as [|p t IH]; intros d H Hin Hc; [destruct Hin|].
  simpl. destruct (String.eqb_spec p base) as [->|Hp].
  - apply copy_survives_final; [now apply only_free_step|].
    unfold step. rewrite (proj1 H), He0.
    now apply dict_get_copies_title.
  - apply IH; [now apply only_free_step | | exact Hc].
    destruct Hin as [E|Hin]; [congruence | exact Hin].
Qed.

Lemma row_names_at_base (n c i : nat) (tlist : list string)
  (d : Parameters) :
  only_free base e0 d -> is_free e0 = true -> gettable tlist d ->
  nth_error tlist i = Some base ->
  nth_error (row_names n c tlist d) i = Some (chan_name true base c).
Proof.
  intros H He0. revert d i H.
  induction tlist as [|p t IH]; intros d i H Hget Hi;
    [destruct i; discriminate|].
  cbn [row_names].
  destruct (dict_get d p) as [e|] eqn:Hd;
    [|exfalso; apply (Hget p); [now left | exact Hd]].
  destruct i as [|i]; simpl in Hi |- *.
  - injection Hi as ->. rewrite (proj1 H) in Hd. injection Hd as <-.
    now rewrite He0.
  - apply IH; [now apply only_free_step | | exact Hi].
    apply gettable_step. now apply gettable_tail in Hget.
Qed.

End OneFreeParameter.

Section ListFacts.

Lemma NoDup_map_on {A B} (f : A -> B) (l : list A) :
  (forall x y, In x l -> In y l -> f x = f y -> x = y) ->
  NoDup l -> NoDup (map f l).
Proof.
  intros Hinj Hnd. induction Hnd as [|x l Hx Hnd IH]; simpl; constructor.
  - intro Hin. apply in_map_iff in Hin. destruct Hin as (y & E & Hy).
    assert (y = x) by (apply Hinj; [now right | now left | exact E]).
    subst. contradiction.
  - apply IH. intros a b Ha Hb. apply Hinj; now right.
Qed.

Lemma nth_error_map_seq {B} (f : nat -> B) (n c : nat) :
  (c < n)%nat -> nth_error (map f (seq 0 n)) c = Some (f c).
Proof.
  intro H. rewrite nth_error_map, nth_error_seq.
  destruct (Nat.ltb_spec c n); [reflexivity | lia].
Qed.

End ListFacts.

Section ExpanderClaims.

Import Expander ExpanderModel.
Local Open Scope string_scope.

Lemma chan_name_free (p : string) (c : nat) :
  (1 <= c)%nat -> chan_name true p c = p ++ "_" ++ str_nat c.
Proof.
  destruct c as [|c]; [lia|]. intros _. simpl. unfold title.
  now rewrite Nat.add_1_r.
Qed.

Lemma effective_shared (meta : Meta) :
  sharedp meta = true -> effective_nspecchan meta = nspecchan meta.
Proof. unfold effective_nspecchan. now intros ->. Qed.

(** C1.  In shared mode over [N >= 1] channels, for a parameter set whose
    only free parameter is [base]: the expander returns; there are [N]
    channel lists, all as long as the list of declared names; at the place
    of [base] in declaration order channel 0 has [base] and every channel
    [c] from 1 to [N-1] has [base_c]; in the parameter set as the expander
    leaves it, each [base_c] holds the same entry (value, kind, priors) as
    [base], so in particular the same value; and the [N] names are pairwise
    distinct. *)
Theorem make_longparamlist_one_free :
  forall (meta : Meta) (params : Parameters) (base : string) (e0 : entry)
         (N : nat),
    sharedp meta = true ->
    nspecchan meta = Z.of_nat N ->
    (1 <= N)%nat ->
    dict_get params base = Some e0 ->
    is_free e0 = true ->
    (forall q e, dict_get params q = Some e -> is_free e = true -> q = base) ->
    exists params' longparamlist paramtitles,
      make_longparamlist meta params
      = Ok (params', (longparamlist, paramtitles))
      /\ List.length longparamlist = N
      /\ (forall l, In l longparamlist ->
                    List.length l = List.length (keys params))
      /\ (exists i, nth_error (keys params) i = Some base)
      /\ (forall i, nth_error (keys params) i = Some base ->
            (exists l0, nth_error longparamlist 0 = Some l0
                        /\ nth_error l0 i = Some base)
            /\ (forall c, (1 <= c < N)%nat ->
                  exists lc, nth_error longparamlist c = Some lc
                             /\ nth_error lc i
                                = Some (base ++ "_" ++ str_nat c)))
      /\ dict_get params' base = Some e0
      /\ (forall c, (1 <= c < N)%nat ->
            exists e, dict_get params' (base ++ "_" ++ str_nat c) = Some e
                      /\ e = e0
                      /\ value_of e = value_of e0
                      /\ ptype_of e = ptype_of e0)
      /\ NoDup (base :: map (fun c => base ++ "_" ++ str_nat c)
                            (seq 1 (N - 1))).
Proof.
  intros meta params base e0 N Hsh HN Hpos Hbase He0 Huniq.
  assert (Hinv : only_free base e0 params).
  { split; [exact Hbase|]. intros q e Hq He.
    rewrite (Huniq q e Hq He) in Hq. congruence. }
  assert (Hin : In base (keys params))
    by (apply dict_get_keys; congruence).
  eexists _, _, _. split.
  { apply make_longparamlist_closed with (n := N); [|exact Hpos].
    now rewrite effective_shared. }
  split; [now rewrite length_map, length_seq|].
  split.
  { intros l Hl. apply in_map_iff in Hl. destruct Hl as (c & <- & _).
    apply row_names_length, gettable_keys. }
  split; [now apply In_nth_error|].
  split.
  { intros i Hi. split.
    - exists (row_names N 0 (keys params) params). split.
      + apply (nth_error_map_seq
                 (fun c => row_names N c (keys params) params)). lia.
      + rewrite row_names_0 by apply gettable_keys. exact Hi.
    - intros c Hc. exists (row_names N c (keys params) params). split.
      + apply (nth_error_map_seq
                 (fun c => row_names N c (keys params) params)). lia.
      + rewrite <- chan_name_free by lia.
        apply row_names_at_base with (e0 := e0); auto using gettable_keys. }
  split; [now apply copy_survives_final with (base := base)|].
  split.
  { intros c Hc. exists e0. repeat split.
    rewrite <- chan_name_free by lia.
    destruct c as [|c]; [lia|]. simpl.
    apply final_has_copies; auto. lia. }
  constructor.
  - intro H. apply in_map_iff in H. destruct H as (c & E & Hc).
    apply in_seq in Hc. rewrite <- chan_name_free in E by lia.
    destruct c as [|c]; [lia|]. simpl in E. now apply title_neq in E.
  - apply NoDup_map_on; [|apply seq_NoDup].
    intros x y _ _ E. apply append_cancel_l in E.
    apply append_cancel_l in E. now apply str_nat_inj.
Qed.

End ExpanderClaims.

Section ExpanderWitnesses.

Import Expander ExpanderModel Samples.

Lemma make_longparamlist_one_free_witness :
  exists r, make_longparamlist (meta_of true 3) params_one_free = Ok r.
Proof.
  destruct (make_longparamlist_one_free
              (meta_of true 3) params_one_free "rp" rp_free 3)
    as (params' & ll & pt & E & _).
  - reflexivity.
  - reflexivity.
  - lia.
  - reflexivity.
  - reflexivity.
  - intros q e. simpl.
    destruct (String.eqb_spec q "rp") as [->|_]; [reflexivity|].
    destruct (String.eqb q "per"); [intros [= <-]; discriminate|].
    destruct (String.eqb q "limb_dark"); [intros [= <-]|]; discriminate.
  - exists (params', (ll, pt)). exact E.
Defined.

End ExpanderWitnesses.

(** ** Parameters that are not free *)

Section NonFreeParameters.

Import Expander ExpanderModel.

Lemma chan_name_not_free (p : string) (c : nat) : chan_name false p c = p.
Proof. destruct c; reflexivity. Qed.

Lemma declared_kept_step (n : nat) (params d : Parameters) (p : string) :
  no_collision n params -> declared_kept params d ->
  dict_get params p <> None ->
  declared_kept params (step n p d).
Proof.
  intros Hnc Hk Hp k Hdecl. unfold step.
  rewrite (Hk p Hp).
  destruct (dict_get params p) as [e|] eqn:He; [|now apply Hk].
  destruct (is_free e) eqn:Hfree; [|now apply Hk].
  rewrite dict_get_copies_other; [now apply Hk|].
  intros c Hc ->. apply Hdecl. now apply (Hnc p e c).
Qed.

Lemma row_names_declared (n c : nat) (params : Parameters) :
  no_collision n params ->
  forall (tlist : list string) (d : Parameters) (i : nat) (p : string)
         (e : entry),
    declared_kept params d ->
    (forall q, In q tlist -> dict_get params q <> None) ->
    nth_error tlist i = Some p ->
    dict_get params p = Some e ->
    nth_error (row_names n c tlist d) i = Some (chan_name (is_free e) p c).
Proof.
  intros Hnc. induction tlist as [|p' t IH]; intros d i p e Hk Hdecl Hi He;
    [destruct i; discriminate|].
  cbn [row_names].
  assert (Hp' : dict_get params p' <> None) by (apply Hdecl; now left).
  rewrite (Hk p' Hp').
  destruct (dict_get params p') as [e'|] eqn:He'; [|congruence].
  destruct i as [|i]; simpl in Hi |- *.
  - injection Hi as ->. congruence.
  - apply IH; auto.
    + apply declared_kept_step; auto. congruence.
    + intros q Hq. apply Hdecl. now right.
Qed.

Lemma no_free_unchanged (n c : nat) (tlist : list string) (d : Parameters) :
  (forall p, In p tlist ->
             exists e, dict_get d p = Some e /\ is_free e = false) ->
  row_names n c tlist d = tlist /\ final n tlist d = d.
Proof.
  unfold final.
  induction tlist as [|p t IH]; intro H; [split; reflexivity|].
  destruct (H p (or_introl eq_refl)) as (e & Hd & He).
  assert (Hs : step n p d = d) by (unfold step; now rewrite Hd, He).
  cbn [row_names fold_left]. rewrite Hd, Hs, He.
  destruct IH as [IH1 IH2]; [intros q Hq; apply H; now right|].
  rewrite chan_name_not_free, IH1, IH2. split; reflexivity.
Qed.

End NonFreeParameters.

Section NonFreeClaims.

Import Expander ExpanderModel Samples.
Local Open Scope string_scope.

(** C2, as stated, fails: with a free [rp], a fixed [rp_1] and three
    channels, the list of channel 2 is [rp_2; rp_1_2], in which the fixed
    parameter's name [rp_1] does not occur. *)
Lemma make_longparamlist_fixed_renamed :
  ~ (forall p e,
       dict_get params_colliding p = Some e -> is_free e = false ->
       forall params' longparamlist paramtitles,
         make_longparamlist (meta_of true 3) params_colliding
         = Ok (params', (longparamlist, paramtitles)) ->
         forall l, In l longparamlist -> In p l).
Proof.
  intro H.
  assert (E : exists params',
             make_longparamlist (meta_of true 3) params_colliding
             = Ok (params', ([["rp"; "rp_1"]; ["rp_1"; "rp_1_1"];
                              ["rp_2"; "rp_1_2"]], ["rp"; "rp_1"])))
    by (eexists; vm_compute; reflexivity).
  destruct E as (params' & E).
  specialize (H "rp_1" [PNum (2 # 10); PStr "fixed"] eq_refl eq_refl
                _ _ _ E ["rp_2"; "rp_1_2"]).
  destruct H as [H|[H|[]]]; [simpl; tauto | discriminate | discriminate].
Qed.

(** C2, amended.  In shared mode over [N >= 1] channels, for a parameter
    set in which no declared name is a per-channel name [q_c] of a declared
    free parameter [q]: the expander returns [N] lists, and every parameter
    that is not free stands under its own name, at its place in declaration
    order, in every channel's list.  If no parameter is free, the parameter
    set is left as it was and every channel's list equals [paramtitles],
    the list of declared names. *)
Theorem make_longparamlist_nonfree_unchanged :
  forall (meta : Meta) (params : Parameters) (N : nat),
    sharedp meta = true ->
    nspecchan meta = Z.of_nat N ->
    (1 <= N)%nat ->
    no_collision N params ->
    exists params' longparamlist paramtitles,
      make_longparamlist meta params
      = Ok (params', (longparamlist, paramtitles))
      /\ List.length longparamlist = N
      /\ (forall i p e,
            nth_error (keys params) i = Some p ->
            dict_get params p = Some e ->
            is_free e = false ->
            forall l, In l longparamlist -> nth_error l i = Some p)
      /\ ((forall q e, dict_get params q = Some e -> is_free e = false) ->
          params' = params
          /\ paramtitles = keys params
          /\ forall l, In l longparamlist -> l = paramtitles).
Proof.
  intros meta params N Hsh HN Hpos Hnc.
  eexists _, _, _. split.
  { apply make_longparamlist_closed with (n := N); [|exact Hpos].
    now rewrite effective_shared. }
  split; [now rewrite length_map, length_seq|].
  split.
  - intros i p e Hi Hd He l Hl.
    apply in_map_iff in Hl. destruct Hl as (c & <- & _).
    rewrite (row_names_declared N c params Hnc (keys params) params i p e);
      auto.
    + now rewrite He, chan_name_not_free.
    + intros k _. reflexivity.
    + intros q Hq. now apply dict_get_keys.
  - intro Hnone.
    assert (G : forall p, In p (keys params) ->
                 exists e, dict_get params p = Some e /\ is_free e = false).
    { intros p Hp. apply dict_get_keys in Hp.
      destruct (dict_get params p) as [e|] eqn:E; [|congruence].
      exists e. split; [reflexivity | now apply (Hnone p)]. }
    split; [apply (no_free_unchanged N 0 _ _ G)|].
    split; [reflexivity|].
    intros l Hl. apply in_map_iff in Hl. destruct Hl as (c & <- & _).
    apply (no_free_unchanged N c _ _ G).
Qed.

Lemma make_longparamlist_nonfree_unchanged_witness :
  exists r, make_longparamlist (meta_of true 3) params_one_free = Ok r.
Proof.
  destruct (make_longparamlist_nonfree_unchanged
              (meta_of true 3) params_one_free 3)
    as (params' & ll & pt & E & _).
  - reflexivity.
  - reflexivity.
  - lia.
  - intros q e c. simpl.
    destruct (String.eqb_spec q "rp") as [->|_].
    + intros _ _ Hc.
      assert (Hc' : c = 0%nat \/ c = 1%nat) by lia.
      destruct Hc' as [->| ->]; reflexivity.
    + destruct (String.eqb q "per"); [intros [= <-]; discriminate|].
      destruct (String.eqb q "limb_dark"); [intros [= <-]|]; discriminate.
  - exists (params', (ll, pt)). exact E.
Defined.

End NonFreeClaims.

(** ** Calling the expander again, and the cases in which it raises *)

Section ExpanderRepeatAndErrors.

Import Expander ExpanderModel Samples.
Local Open Scope string_scope.

Lemma step_one_channel (p : string) (d : Parameters) : step 1 p d = d.
Proof.
  unfold step. destruct (dict_get d p) as [e|]; [|reflexivity].
  destruct (is_free e); reflexivity.
Qed.

Lemma final_one_channel (tlist : list string) (d : Parameters) :
  final 1 tlist d = d.
Proof.
  unfold final. induction tlist as [|p t IH]; simpl; [reflexivity|].
  now rewrite step_one_channel.
Qed.

Lemma final_no_free (n : nat) (d : Parameters) :
  (forall q e, dict_get d q = Some e -> is_free e = false) ->
  final n (keys d) d = d.
Proof.
  intro H. apply (no_free_unchanged n 0).
  intros p Hp. apply dict_get_keys in Hp.
  destruct (dict_get d p) as [e|] eqn:E; [|congruence].
  exists e. split; [reflexivity | now apply (H p)].
Qed.

(** C3, as stated, fails: with a free [rp], a shared [per] and two
    channels, the first call returns [[rp; per]; [rp_1; per]] and leaves
    [rp_1] in the parameter set, so the second call returns
    [[rp; per; rp_1]; [rp_1; per; rp_1_1]]. *)
Lemma make_longparamlist_second_call_differs :
  ~ (forall params1 r1,
       make_longparamlist (meta_of true 2) params_free_shared
       = Ok (params1, r1) ->
       exists params2,
         make_longparamlist (meta_of true 2) params1 = Ok (params2, r1)).
Proof.
  intro H.
  assert (E1 : exists params1,
             make_longparamlist (meta_of true 2) params_free_shared
             = Ok (params1, ([["rp"; "per"]; ["rp_1"; "per"]],
                             ["rp"; "per"]))
             /\ exists params2,
                  make_longparamlist (meta_of true 2) params1
                  = Ok (params2, ([["rp"; "per"; "rp_1"];
                                   ["rp_1"; "per"; "rp_1_1"]],
                                  ["rp"; "per"; "rp_1"])))
    by (eexists; split; [vm_compute; reflexivity
                        | eexists; vm_compute; reflexivity]).
  destruct E1 as (params1 & E1 & params2 & E2).
  destruct (H _ _ E1) as (params2' & E2').
  rewrite E2 in E2'. discriminate.
Qed.

(** C3, amended.  When the fit is not in shared mode, or there is one
    channel, or there is at least one channel and no parameter is free,
    the expander leaves the parameter set as it found it, and a second
    call on it returns the same [longparamlist] and [paramtitles] as the
    first. *)
Theorem make_longparamlist_repeatable :
  forall (meta : Meta) (params : Parameters),
    sharedp meta = false
    \/ nspecchan meta = 1%Z
    \/ ((1 <= nspecchan meta)%Z /\
        forall q e, dict_get params q = Some e -> is_free e = false) ->
    exists params1 r1 params2 r2,
      make_longparamlist meta params = Ok (params1, r1)
      /\ make_longparamlist meta params1 = Ok (params2, r2)
      /\ r1 = r2 /\ params1 = params /\ params2 = params.
Proof.
  intros meta params H.
  assert (G : exists r, make_longparamlist meta params = Ok (params, r)).
  { destruct H as [H|[H|[H1 H2]]].
    - eexists.
      rewrite (make_longparamlist_closed meta params 1);
        [rewrite final_one_channel; reflexivity | | lia].
      unfold effective_nspecchan. now rewrite H.
    - eexists.
      rewrite (make_longparamlist_closed meta params 1);
        [rewrite final_one_channel; reflexivity | | lia].
      unfold effective_nspecchan. rewrite H. now destruct (sharedp meta).
    - destruct (sharedp meta) eqn:Hsh.
      + eexists.
        rewrite (make_longparamlist_closed meta params
                   (Z.to_nat (nspecchan meta)));
          [rewrite final_no_free by exact H2; reflexivity | | lia].
        unfold effective_nspecchan. rewrite Hsh. lia.
      + eexists.
        rewrite (make_longparamlist_closed meta params 1);
          [rewrite final_one_channel; reflexivity | | lia].
        unfold effective_nspecchan. now rewrite Hsh. }
  destruct G as (r & G). exists params, r, params, r. auto.
Qed.

Lemma make_longparamlist_repeatable_witness :
  exists r,
    make_longparamlist (meta_of false 3) params_free_shared
    = Ok (params_free_shared, r).
Proof.
  destruct (make_longparamlist_repeatable
              (meta_of false 3) params_free_shared)
    as (params1 & r1 & params2 & r2 & E1 & _ & _ & -> & _).
  - left. reflexivity.
  - exists r1. exact E1.
Defined.

Lemma loop_without_channels (nchan : Z) (tlist : list string)
  (d : Parameters) :
  (nchan <= 0)%Z -> gettable tlist d ->
  for_each tlist (process_param nchan) (d, []) = Ok (d, [])
  \/ for_each tlist (process_param nchan) (d, []) = Raise IndexError.
Proof.
  intros Hn. induction tlist as [|p t IH]; intro Hget; [now left|].
  destruct (dict_get d p) as [e|] eqn:Hd;
    [|exfalso; apply (Hget p); [now left | exact Hd]].
  assert (E : append_all nchan p [] = Ok [])
    by (unfold append_all, range;
        now replace (Z.to_nat nchan) with 0%nat by lia).
  assert (P : process_param nchan p (d, [])
              = if is_free e then Raise IndexError else Ok (d, [])).
  { unfold process_param. rewrite (getitem_some _ _ _ Hd). cbn [bind].
    destruct (is_free e); [reflexivity|].
    rewrite E. cbn [bind]. destruct (is_shared e); reflexivity. }
  cbn [for_each]. rewrite P.
  destruct (is_free e); cbn [bind]; [now right|].
  apply IH. now apply gettable_tail in Hget.
Qed.

(** C6, as stated, fails: the free parameter [rp] has a value and a kind
    and no prior bounds, and the expander returns in shared mode over two
    channels; and outside shared mode it returns with a channel count of
    zero. *)
Lemma make_longparamlist_no_bounds_check :
  dict_get params_free_shared "rp" = Some [PNum (1 # 10); PStr "free"]
  /\ ~ (exists e, make_longparamlist (meta_of true 2) params_free_shared
                  = Raise e)
  /\ ~ (exists e, make_longparamlist (meta_of false 0) params_free_shared
                  = Raise e).
Proof.
  split; [reflexivity|].
  split; intros (e & E); vm_compute in E; discriminate.
Qed.

(** C6, amended.  The expander checks neither the channel count nor the
    prior bounds.  In shared mode with a channel count [<= 0] it raises
    [IndexError], from indexing channel 0 of an empty list of channel
    lists.  Whenever the fit is not in shared mode, or the channel count
    is at least 1, it returns, for every parameter set, with or without
    prior bounds. *)
Theorem make_longparamlist_failures :
  forall (meta : Meta) (params : Parameters),
    (sharedp meta = true -> (nspecchan meta <= 0)%Z ->
     make_longparamlist meta params = Raise IndexError)
    /\ (sharedp meta = false \/ (1 <= nspecchan meta)%Z ->
        exists r, make_longparamlist meta params = Ok r).
Proof.
  intros meta params. split.
  - intros Hsh Hn. unfold make_longparamlist.
    rewrite (effective_shared meta Hsh).
    assert (E : map (fun _ : nat => @nil string) (range (nspecchan meta)) = [])
      by (unfold range; now replace (Z.to_nat (nspecchan meta)) with 0%nat by lia).
    rewrite E.
    destruct (loop_without_channels (nspecchan meta) (keys params) params Hn
                (gettable_keys params)) as [G|G]; rewrite G; reflexivity.
  - intros H.
    assert (G : exists n, effective_nspecchan meta = Z.of_nat n /\ (1 <= n)%nat).
    { unfold effective_nspecchan. destruct (sharedp meta).
      - destruct H as [H|H]; [discriminate|].
        exists (Z.to_nat (nspecchan meta)). lia.
      - exists 1%nat. split; [reflexivity | lia]. }
    destruct G as (n & G1 & G2). eexists.
    apply (make_longparamlist_closed meta params n G1 G2).
Qed.

Lemma make_longparamlist_failures_witness :
  make_longparamlist (meta_of true 0) params_free_shared = Raise IndexError
  /\ exists r, make_longparamlist (meta_of true 2) params_free_shared = Ok r.
Proof.
  split.
  - apply (make_longparamlist_failures (meta_of true 0) params_free_shared);
      [reflexivity | simpl; lia].
  - apply (make_longparamlist_failures (meta_of true 2) params_free_shared).
    right. simpl. lia.
Defined.

End ExpanderRepeatAndErrors.

(** ** Shared-mode flattening *)

Section FlattenFacts.

Import Flatten.

Context {F : Type} (fdiv : F -> F -> F) (fmean : list F -> F).

Lemma skipn_nth_error {A} (l : list A) (a : nat) :
  (a < List.length l)%nat ->
  exists x, nth_error l a = Some x /\ skipn a l = x :: skipn (S a) l.
Proof.
  revert a. induction l as [|y l IH]; intros a Ha; [simpl in Ha; lia|].
  destruct a as [|a]; [exists y; split; reflexivity|].
  destruct (IH a) as (x & E1 & E2); [simpl in Ha; lia|].
  exists x. split; [exact E1 | exact E2].
Qed.

(** The arrays after the rounds [a, a+1, ..., a+k-1] of the loop. *)
Lemma flatten_loop (lcdata lcerr : list (list F)) (k a : nat)
  (flux flux_err : list F) :
  (a + k <= List.length lcdata)%nat ->
  (a + k <= List.length lcerr)%nat ->
  for_each (seq a k)
    (fun i (st : list F * list F) =>
       let '(flux, flux_err) := st in
       row <- index lcdata i ;;
       let flux' := flux ++ normalize_by fdiv fmean row row in
       erow <- index lcerr i ;;
       row' <- index lcdata i ;;
       let flux_err' := flux_err ++ normalize_by fdiv fmean row' erow in
       Ok (flux', flux_err'))
    (flux, flux_err)
  = Ok (flux ++ List.concat (map (fun r => normalize_by fdiv fmean r r)
                            (firstn k (skipn a lcdata))),
        flux_err ++ List.concat (map (fun re => normalize_by fdiv fmean
                                             (fst re) (snd re))
                                (combine (firstn k (skipn a lcdata))
                                         (firstn k (skipn a lcerr))))).
Proof.
  revert a flux flux_err.
  induction k as [|k IH]; intros a flux flux_err Hd He.
  - simpl. now rewrite !app_nil_r.
  - destruct (skipn_nth_error lcdata a) as (row & R1 & R2); [lia|].
    destruct (skipn_nth_error lcerr a) as (erow & E1 & E2); [lia|].
    cbn [seq for_each]. unfold index at 1 2 3. rewrite R1, E1.
    cbn [bind]. rewrite IH by lia. rewrite R2, E2. cbn [firstn map combine List.concat fst snd].
    now rewrite <- !app_assoc.
Qed.

Lemma flatten_shared_closed (N : nat) (lcdata lcerr : list (list F)) :
  List.length lcdata = N -> List.length lcerr = N ->
  flatten_shared fdiv fmean (Z.of_nat N) lcdata lcerr
  = Ok (List.concat (map (fun r => normalize_by fdiv fmean r r) lcdata),
        List.concat (map (fun re => normalize_by fdiv fmean (fst re) (snd re))
                    (combine lcdata lcerr))).
Proof.
  intros Hd He. unfold flatten_shared, range. rewrite Nat2Z.id.
  rewrite flatten_loop by lia. simpl.
  now rewrite <- Hd at 1 2; rewrite <- He; rewrite !firstn_all.
Qed.

Lemma concat_length_uniform {A} (L : nat) (rows : list (list A)) :
  Forall (fun r => List.length r = L) rows ->
  List.length (List.concat rows) = (List.length rows * L)%nat.
Proof.
  induction 1 as [|r rows Hr _ IH]; simpl; [reflexivity|].
  rewrite length_app, IH, Hr. reflexivity.
Qed.

Lemma block_of_concat {A} (L : nat) (rows : list (list A)) (i : nat)
  (r : list A) :
  Forall (fun r => List.length r = L) rows ->
  nth_error rows i = Some r ->
  block L i (List.concat rows) = r.
Proof.
  unfold block. intro H. revert i.
  induction H as [|r0 rows Hr0 _ IH]; intros i Hi;
    [destruct i; discriminate|].
  destruct i as [|i]; simpl in Hi |- *.
  - injection Hi as ->. rewrite firstn_app, <- Hr0, firstn_all.
    now rewrite Nat.sub_diag, firstn_O, app_nil_r.
  - rewrite skipn_app, <- Hr0.
    rewrite skipn_all2 by lia.
    replace (List.length r0 + i * List.length r0 - List.length r0)%nat
      with (i * List.length r0)%nat by lia.
    simpl. rewrite Hr0. now apply IH.
Qed.

End FlattenFacts.

Section FlattenClaims.

Import Flatten Float64.

Lemma nth_error_combine_some {A B} (l1 : list A) (l2 : list B) (i : nat)
  (x : A) (y : B) :
  nth_error l1 i = Some x -> nth_error l2 i = Some y ->
  nth_error (combine l1 l2) i = Some (x, y).
Proof.
  revert l2 i. induction l1 as [|a l1 IH]; intros l2 i H1 H2;
    [destruct i; discriminate|].
  destruct l2 as [|b l2]; [destruct i; discriminate|].
  destruct i as [|i]; simpl in *; [congruence | now apply IH].
Qed.

Lemma Forall_combine_snd {A B} (P : B -> Prop) (l1 : list A) (l2 : list B) :
  Forall P l2 -> Forall (fun ab => P (snd ab)) (combine l1 l2).
Proof.
  intro H. revert l1. induction H as [|b l2 Hb _ IH]; intros [|a l1];
    simpl; constructor; auto.
Qed.

(** C4.  For [N] channels of [L] samples each, whatever the sample type,
    the elementwise division and [np.mean] are, so for float64 too: the
    flattening returns two arrays of length [N*L]; the [i]-th block of
    [L] samples of the flux array is [lcdata[i]] divided by the mean of
    [lcdata[i]], and the [i]-th block of the uncertainty array is
    [lcerr[i]] divided by that same mean of [lcdata[i]]. *)
Theorem flatten_shared_normalized :
  forall (F : Type) (fdiv : F -> F -> F) (fmean : list F -> F)
         (N L : nat) (lcdata lcerr : list (list F)),
    List.length lcdata = N ->
    List.length lcerr = N ->
    Forall (fun r => List.length r = L) lcdata ->
    Forall (fun r => List.length r = L) lcerr ->
    exists flux flux_err,
      flatten_shared fdiv fmean (Z.of_nat N) lcdata lcerr
      = Ok (flux, flux_err)
      /\ List.length flux = (N * L)%nat
      /\ List.length flux_err = (N * L)%nat
      /\ forall i row erow,
           nth_error lcdata i = Some row ->
           nth_error lcerr i = Some erow ->
           block L i flux = map (fun x => fdiv x (fmean row)) row
           /\ block L i flux_err = map (fun x => fdiv x (fmean row)) erow.
Proof.
  intros F fdiv fmean N L lcdata lcerr Hd He Fd Fe.
  assert (Fd' : Forall (fun r => List.length r = L)
                  (map (fun r => normalize_by fdiv fmean r r) lcdata)).
  { apply Forall_map. eapply Forall_impl; [|exact Fd].
    intros r Hr. unfold normalize_by. now rewrite length_map. }
  assert (Fe' : Forall (fun r => List.length r = L)
                  (map (fun re => normalize_by fdiv fmean (fst re) (snd re))
                       (combine lcdata lcerr))).
  { apply Forall_map.
    eapply Forall_impl; [|apply (Forall_combine_snd _ lcdata lcerr Fe)].
    intros re Hr. unfold normalize_by. now rewrite length_map. }
  eexists _, _. split; [now apply flatten_shared_closed|].
  split.
  { rewrite (concat_length_uniform L _ Fd'), length_map. now rewrite Hd. }
  split.
  { rewrite (concat_length_uniform L _ Fe'), length_map, length_combine.
    rewrite Hd, He. now rewrite Nat.min_id. }
  intros i row erow Hr Her. split.
  - apply (block_of_concat L _ i _ Fd').
    rewrite nth_error_map, Hr. reflexivity.
  - apply (block_of_concat L _ i _ Fe').
    rewrite nth_error_map,
      (nth_error_combine_some lcdata lcerr i row erow Hr Her).
    reflexivity.
Qed.

Lemma flatten_shared_normalized_witness :
  exists flux flux_err,
    flatten_shared PrimFloat.div mean64 2
      [row_tenths; row_ones] [row_ones; row_tenths]
    = Ok (flux, flux_err)
    /\ List.length flux = 6%nat
    /\ block 3 1 flux_err
       = map (fun x => PrimFloat.div x (mean64 row_ones)) row_tenths.
Proof.
  destruct (flatten_shared_normalized float64 PrimFloat.div mean64
              2%nat 3%nat [row_tenths; row_ones] [row_ones; row_tenths])
    as (flux & flux_err & E & L1 & _ & B).
  - reflexivity.
  - reflexivity.
  - repeat constructor.
  - repeat constructor.
  - exists flux, flux_err. split; [exact E|]. split; [exact L1|].
    exact (proj2 (B 1%nat row_ones row_tenths eq_refl eq_refl)).
Defined.

(** C4, the parenthesis.  In float64 the row [0.1, 0.2, 0.3] has a
    non-zero mean, and the block the flattening builds from it,
    [0.49999999999999994, 0.9999999999999999, 1.4999999999999996], has a
    mean below 1, namely [0.9999999999999997]. *)
Lemma flatten_shared_float64_mean_not_one :
  exists flux flux_err,
    flatten_shared PrimFloat.div mean64 1 [row_tenths] [row_tenths]
    = Ok (flux, flux_err)
    /\ PrimFloat.eqb (mean64 row_tenths) PrimFloat.zero = false
    /\ PrimFloat.eqb (mean64 (block 3 0 flux)) PrimFloat.one = false
    /\ PrimFloat.ltb (mean64 (block 3 0 flux)) PrimFloat.one = true.
Proof.
  eexists _, _. split; [vm_compute; reflexivity|].
  repeat split; vm_compute; reflexivity.
Qed.

End FlattenClaims.

(** ** The order of the fits *)

Section FitChannelFacts.

Import FitChannel.

Variable fit_raises : string -> bool.

Lemma calls_seq_io {A B} (m : io A) (k : A -> io B) :
  fit_calls (fst (seq_io m k))
  = fit_calls (fst m)
    ++ match snd m with
       | Ok a => fit_calls (fst (k a))
       | Raise _ => []
       end.
Proof.
  destruct m as [tr [a|e]]; simpl.
  - destruct (k a) as [tr' r]. simpl. apply flat_map_app.
  - now rewrite app_nil_r.
Qed.

Lemma res_seq_io {A B} (m : io A) (k : A -> io B) :
  snd (seq_io m k)
  = match snd m with
    | Ok a => snd (k a)
    | Raise e => Raise e
    end.
Proof.
  destruct m as [tr [a|e]]; simpl; [|reflexivity].
  now destruct (k a).
Qed.

Lemma stage_calls (meta : Meta) (k : string) :
  fit_calls (fst (fit_stage fit_raises meta k))
  = if str_in k (fit_method meta) then [k] else [].
Proof.
  unfold fit_stage. destruct (str_in k (fit_method meta)); simpl;
    [|reflexivity].
  destruct (fit_raises k); reflexivity.
Qed.

Lemma stage_res (meta : Meta) (k : string) :
  snd (fit_stage fit_raises meta k)
  = if (str_in k (fit_method meta) && fit_raises k)%bool
    then Raise FitterError else Ok tt.
Proof.
  unfold fit_stage. destruct (str_in k (fit_method meta)); simpl;
    [|reflexivity].
  destruct (fit_raises k); reflexivity.
Qed.

Lemma when_res (b : bool) (m : io unit) :
  snd m = Ok tt -> snd (when b m) = Ok tt.
Proof. destruct b; simpl; auto. Qed.

Lemma when_calls (b : bool) (m : io unit) :
  fit_calls (fst m) = [] -> fit_calls (fst (when b m)) = [].
Proof. destruct b; simpl; auto. Qed.

Ltac silent :=
  first [ rewrite calls_seq_io | rewrite res_seq_io ];
  first [ rewrite when_res by reflexivity; rewrite ?when_calls by reflexivity
        | cbn [emit fst snd fit_calls flat_map] ];
  cbn [app].

Ltac stage k :=
  first [ rewrite calls_seq_io, stage_calls, stage_res
        | rewrite res_seq_io, stage_res ];
  let Hin := fresh "Hin" in
  let Hr := fresh "Hr" in
  destruct (str_in k (fit_method _)) eqn:Hin;
  [ destruct (fit_raises k) eqn:Hr;
    cbn [andb app upto existsb orb]; rewrite Hr;
    [ reflexivity | try apply (f_equal (cons k)) ]
  | cbn [andb app] ].

Lemma fit_channel_calls (meta : Meta) :
  fit_calls (fst (fit_channel fit_raises meta))
  = upto fit_raises (requested meta).
Proof.
  unfold fit_channel, requested, priority. cbn [filter].
  do 7 silent.
  stage "lsq"; stage "emcee"; stage "dynesty"; stage "lmfit";
    do 2 silent; reflexivity.
Qed.

Lemma fit_channel_result (meta : Meta) :
  snd (fit_channel fit_raises meta)
  = if existsb fit_raises (requested meta)
    then Raise FitterError else Ok meta.
Proof.
  unfold fit_channel, requested, priority. cbn [filter].
  do 7 silent.
  stage "lsq"; stage "emcee"; stage "dynesty"; stage "lmfit";
    do 2 silent; reflexivity.
Qed.

Lemma upto_prefix {A} (f : A -> bool) (l : list A) :
  exists n, upto f l = firstn n l.
Proof.
  induction l as [|x l [n IH]]; [exists 0%nat; reflexivity|].
  simpl. destruct (f x).
  - exists 1%nat. reflexivity.
  - exists (S n). simpl. now rewrite IH.
Qed.

Lemma upto_none {A} (f : A -> bool) (l : list A) :
  (forall x, In x l -> f x = false) ->
  upto f l = l /\ existsb f l = false.
Proof.
  induction l as [|x l IH]; intro H; [split; reflexivity|].
  simpl. rewrite (H x (or_introl eq_refl)).
  destruct IH as [IH1 IH2]; [intros y Hy; apply H; now right|].
  now rewrite IH1, IH2.
Qed.

Lemma str_in_In (x : string) (xs : list string) :
  str_in x xs = true <-> In x xs.
Proof.
  unfold str_in. rewrite existsb_exists. split.
  - intros (y & Hy & E). apply String.eqb_eq in E. now subst.
  - intro H. exists x. split; [exact H | apply String.eqb_refl].
Qed.

End FitChannelFacts.

Section FitChannelClaims.

Import FitChannel Samples.

(** C5.  The kinds for which [fit_channel] calls [lc_model.fit] are taken
    from [lsq, emcee, dynesty, lmfit] in that order, keeping exactly those
    in [meta.fit_method], each once.  When no requested backend raises,
    [fit_channel] returns and has made exactly these calls, in this order;
    when one raises, the calls made are those up to and including the
    raising one, so never an unrequested kind, a repeated call or a
    different order. *)
Theorem fit_channel_order :
  forall (fit_raises : string -> bool) (meta : Meta),
    requested meta
    = filter (fun k => str_in k (fit_method meta))
             ["lsq"; "emcee"; "dynesty"; "lmfit"]
    /\ NoDup (requested meta)
    /\ (forall k, In k (requested meta) <->
                  In k ["lsq"; "emcee"; "dynesty"; "lmfit"]
                  /\ In k (fit_method meta))
    /\ (exists n, fit_calls (fst (fit_channel fit_raises meta))
                  = firstn n (requested meta))
    /\ ((forall k, In k (requested meta) -> fit_raises k = false) ->
        exists tr, fit_channel fit_raises meta = (tr, Ok meta)
                   /\ fit_calls tr = requested meta).
Proof.
  intros fit_raises meta.
  split; [reflexivity|].
  split.
  { unfold requested. apply NoDup_filter. unfold priority.
    repeat constructor; simpl; intuition discriminate. }
  split.
  { intro k. unfold requested. rewrite filter_In, str_in_In. reflexivity. }
  split.
  { rewrite fit_channel_calls. apply upto_prefix. }
  intro H. destruct (upto_none fit_raises (requested meta) H) as [U E].
  exists (fst (fit_channel fit_raises meta)). split.
  - rewrite (surjective_pairing (fit_channel fit_raises meta)) at 1.
    now rewrite fit_channel_result, E.
  - now rewrite fit_channel_calls.
Qed.

Lemma fit_channel_order_witness :
  exists tr, fit_channel (fun _ => false) (meta_of true 3)
             = (tr, Ok (meta_of true 3))
             /\ fit_calls tr = ["lsq"; "emcee"].
Proof.
  destruct (fit_channel_order (fun _ => false) (meta_of true 3))
    as (_ & _ & _ & _ & H).
  destruct H as (tr & E & C); [reflexivity|].
  exists tr. split; [exact E | exact C].
Defined.

End FitChannelClaims.

(** ** [check_nans] *)

Section CheckNans.

Import Util.

Lemma set_item_app {A} (pre : list A) (x v : A) (rest : list A) :
  set_item (pre ++ x :: rest) (List.length pre) v = Ok (pre ++ v :: rest).
Proof.
  induction pre as [|h pre IH]; simpl; [reflexivity | now rewrite IH].
Qed.

Lemma mask_loop (data : list float) :
  forall (mask pre : list Z),
    List.length data = List.length mask ->
    for_each (where_from (List.length pre) (map isnan data))
             (fun i m => set_item m i 0%Z) (pre ++ mask)
    = Ok (pre ++ map (fun dm => if isnan (fst dm) then 0%Z else snd dm)
                     (combine data mask)).
Proof.
  induction data as [|x data IH]; intros mask pre Hlen.
  - destruct mask; [reflexivity | discriminate].
  - destruct mask as [|m mask]; [discriminate|].
    injection Hlen as Hlen. cbn [map where_from combine fst snd].
    destruct (isnan x).
    + cbn [app for_each]. rewrite set_item_app. cbn [bind].
      replace (pre ++ 0%Z :: mask) with ((pre ++ [0%Z]) ++ mask)
        by (now rewrite <- app_assoc).
      replace (S (List.length pre)) with (List.length (pre ++ [0%Z]))
        by (rewrite length_app; simpl; lia).
      rewrite IH by exact Hlen. now rewrite <- app_assoc.
    + cbn [app].
      replace (pre ++ m :: mask) with ((pre ++ [m]) ++ mask)
        by (now rewrite <- app_assoc).
      replace (S (List.length pre)) with (List.length (pre ++ [m]))
        by (rewrite length_app; simpl; lia).
      rewrite IH by exact Hlen. now rewrite <- app_assoc.
Qed.

Lemma count_true_pos (b : list bool) :
  (0 <? count_true b)%nat = true <-> In true b.
Proof.
  unfold count_true. induction b as [|[|] b IH]; simpl.
  - split; [discriminate | tauto].
  - split; [now left | reflexivity].
  - rewrite IH. split; [now right | intros [H|H]; [discriminate | exact H]].
Qed.

Lemma masked_unchanged (data : list float) (mask : list Z) :
  ~ In true (map isnan data) ->
  map (fun dm => if isnan (fst dm) then 0%Z else snd dm) (combine data mask)
  = firstn (List.length data) mask.
Proof.
  revert mask. induction data as [|x data IH]; intros mask H;
    [reflexivity|].
  destruct mask as [|m mask]; [reflexivity|]. simpl in *.
  destruct (isnan x); [exfalso; apply H; now left|].
  f_equal. apply IH. tauto.
Qed.

(** C10, as stated, fails: for a data array with two NaNs and a mask of
    one element, writing the zeros raises [IndexError]. *)
Lemma check_nans_short_mask_raises :
  ~ (exists log r, check_nans [NaN; NaN] [1%Z] "SUBDATA" = (log, Ok r)).
Proof. intros (log & r & E). vm_compute in E. discriminate. Qed.

(** C10, amended.  For a data array and a mask of the same shape,
    [check_nans] does not raise: the mask it returns has 0 where the data
    array is NaN and the input mask's entry everywhere else, the data
    array is as it was, and a warning is logged if and only if the data
    array holds at least one NaN. *)
Theorem check_nans_masks :
  forall (data : list float) (mask : list Z) (name : string),
    List.length data = List.length mask ->
    exists log,
      check_nans data mask name
      = (log,
         Ok (data,
             map (fun dm => if isnan (fst dm) then 0%Z else snd dm)
                 (combine data mask)))
      /\ (log <> [] <-> exists x, In x data /\ isnan x = true).
Proof.
  intros data mask name Hlen. unfold check_nans.
  destruct (0 <? count_true (map isnan data))%nat eqn:Hc.
  - eexists. split.
    + unfold where_. pose proof (mask_loop data mask [] Hlen) as E.
      simpl in E. rewrite E. reflexivity.
    + split; [intros _ | discriminate].
      apply count_true_pos in Hc. apply in_map_iff in Hc.
      destruct Hc as (x & E & Hx). now exists x.
  - assert (Hn : ~ In true (map isnan data)).
    { intro H. apply count_true_pos in H. congruence. }
    eexists. split.
    + rewrite (masked_unchanged data mask Hn), Hlen, firstn_all.
      reflexivity.
    + split; [congruence|]. intros (x & Hx & E). exfalso. apply Hn.
      apply in_map_iff. now exists x.
Qed.

Lemma check_nans_masks_witness :
  check_nans [NaN; Finite 1; NaN] [1; 1; 1]%Z "SUBDATA"
  = ([WarnNaNs "SUBDATA" 2], Ok ([NaN; Finite 1; NaN], [0; 1; 0]%Z)).
Proof.
  destruct (check_nans_masks [NaN; Finite 1; NaN] [1; 1; 1]%Z "SUBDATA"
              eq_refl) as (log & E & _).
  rewrite E. vm_compute in E. injection E as <-. reflexivity.
Defined.

End CheckNans.

(** ** Paths *)

Section PathFacts.

Import Util UtilModel.
Local Open Scope string_scope.

Lemma split_nonempty (s : string) : split s <> [].
Proof.
  induction s as [|c s IH]; simpl; [discriminate|].
  destruct (is_sep c); [discriminate|].
  destruct (split s); [contradiction | discriminate].
Qed.

Lemma split_app_sep (x r : string) :
  split (x ++ "/" ++ r) = (split x ++ split r)%list.
Proof.
  change ("/" ++ r) with (String "/" r).
  induction x as [|c x IH]; simpl; [reflexivity|].
  destruct (is_sep c); [now rewrite IH|].
  rewrite IH. destruct (split x) as [|h t] eqn:E; [|reflexivity].
  now apply split_nonempty in E.
Qed.

Lemma split_no_sep (d : string) : no_sep d = true -> split d = [d].
Proof.
  induction d as [|c d IH]; simpl; [reflexivity|].
  intro H. apply andb_prop in H. destruct H as [H1 H2].
  destruct (is_sep c); [discriminate|]. now rewrite IH.
Qed.

Lemma split_app_no_sep (pre d : string) :
  no_sep d = true ->
  split (pre ++ d)
  = (removelast (split pre) ++ [(last (split pre) "" ++ d)%string])%list.
Proof.
  intro Hd. induction pre as [|c pre IH]; simpl.
  - now apply split_no_sep.
  - destruct (is_sep c).
    + rewrite IH. destruct (split pre) as [|h t] eqn:E;
        [now apply split_nonempty in E | reflexivity].
    + rewrite IH. destruct (split pre) as [|h t] eqn:E;
        [now apply split_nonempty in E|].
      destruct t; reflexivity.
Qed.

Lemma components_app_sep (x r : string) :
  components (x ++ "/" ++ r) = (components x ++ components r)%list.
Proof. unfold components. now rewrite split_app_sep, filter_app. Qed.

Lemma append_nonempty_r (a d : string) : d <> "" -> a ++ d <> "".
Proof. destruct a; simpl; [auto | discriminate]. Qed.

Lemma components_app_no_sep (pre d : string) :
  no_sep d = true -> d <> "" ->
  components (pre ++ d)
  = (filter (fun c => negb (String.eqb c "")) (removelast (split pre))
     ++ [(last (split pre) "" ++ d)%string])%list.
Proof.
  intros Hd Hne. unfold components.
  rewrite (split_app_no_sep pre d Hd), filter_app. simpl.
  destruct (String.eqb_spec (last (split pre) "" ++ d) "") as [E|_];
    [now apply append_nonempty_r in E | reflexivity].
Qed.

Lemma startswith_sep_app (x r : string) :
  x <> "" -> startswith_sep (x ++ r) = startswith_sep x.
Proof. destruct x; [congruence | reflexivity]. Qed.

Lemma is_prefix_app (a b : list string) : is_prefix a (a ++ b) = true.
Proof.
  induction a as [|x a IH]; simpl; [reflexivity|].
  now rewrite String.eqb_refl, IH.
Qed.

Lemma is_prefix_firstn (a b : list string) :
  is_prefix a b = true -> firstn (List.length a) b = a.
Proof.
  revert b. induction a as [|x a IH]; intros b H; [reflexivity|].
  destruct b as [|y b]; [discriminate|]. simpl in H.
  apply andb_prop in H. destruct H as [H1 H2].
  apply String.eqb_eq in H1. subst. simpl. now rewrite IH.
Qed.

Lemma is_prefix_trans (a b c : list string) :
  is_prefix a b = true -> is_prefix b c = true -> is_prefix a c = true.
Proof.
  revert b c. induction a as [|x a IH]; intros b c H1 H2; [reflexivity|].
  destruct b as [|y b]; [discriminate|].
  destruct c as [|z c]; [discriminate|]. simpl in *.
  apply andb_prop in H1. destruct H1 as [E1 H1].
  apply andb_prop in H2. destruct H2 as [E2 H2].
  apply String.eqb_eq in E1, E2. subst.
  rewrite String.eqb_refl. simpl. now apply (IH b c).
Qed.

Lemma node_within_trans (n m e : node) :
  node_within n m = true -> node_within m e = true ->
  node_within n e = true.
Proof.
  unfold node_within. intros H1 H2.
  apply andb_prop in H1. destruct H1 as [A1 P1].
  apply andb_prop in H2. destruct H2 as [A2 P2].
  apply Bool.eqb_prop in A1, A2. rewrite A1, A2, Bool.eqb_reflx. simpl.
  now apply (is_prefix_trans _ (snd m)).
Qed.

Lemma node_within_refl (n : node) : node_within n n = true.
Proof.
  unfold node_within. rewrite Bool.eqb_reflx. simpl.
  rewrite <- (app_nil_r (snd n)) at 2. apply is_prefix_app.
Qed.

(** A directory lies within each of its descendants. *)
Lemma norm_ancestor (x r : string) :
  x <> "" -> node_within (norm x) (norm (x ++ "/" ++ r)) = true.
Proof.
  intro Hx. unfold node_within, norm. cbn [fst snd].
  rewrite (startswith_sep_app x _ Hx), Bool.eqb_reflx. cbn [andb].
  change (is_prefix (components x) (components (x ++ "/" ++ r)) = true).
  rewrite components_app_sep. apply is_prefix_app.
Qed.

Lemma path_exists_ancestor (fs : FileSystem) (x r : string) :
  x <> "" -> path_exists fs (x ++ "/" ++ r) = true ->
  path_exists fs x = true.
Proof.
  intros Hx H. unfold path_exists in *. apply existsb_exists in H.
  destruct H as (e & He & W). apply existsb_exists. exists e.
  split; [exact He|].
  now apply (node_within_trans _ (norm (x ++ "/" ++ r))); [apply norm_ancestor|].
Qed.

End PathFacts.

(** ** The run directory *)

Section RunPathFacts.

Import Util UtilModel.
Local Open Scope string_scope.

Lemma last_char_nonempty (s : string) :
  s <> "" -> exists c, last_char s = Ok c.
Proof.
  induction s as [|a s IH]; [congruence|]. intros _.
  destruct s as [|b s]; [now exists a|].
  destruct IH as (c & E); [discriminate|]. exists c. exact E.
Qed.

Lemma last_char_app (a b : string) :
  b <> "" -> last_char (a ++ b) = last_char b.
Proof.
  intro Hb. induction a as [|x a IH]; [reflexivity|].
  cbn [append last_char]. rewrite IH.
  destruct (a ++ b) eqn:E; [|reflexivity].
  now apply append_nonempty_r in E.
Qed.

Lemma drop_last_app (a b : string) :
  b <> "" -> drop_last (a ++ b) = a ++ drop_last b.
Proof.
  intro Hb. induction a as [|x a IH]; [reflexivity|].
  cbn [append drop_last]. rewrite IH.
  destruct (a ++ b) eqn:E; [|reflexivity].
  now apply append_nonempty_r in E.
Qed.

Lemma endswith_sep_app (a b : string) :
  b <> "" -> endswith_sep (a ++ b) = endswith_sep b.
Proof. intro Hb. unfold endswith_sep. now rewrite last_char_app. Qed.

Lemma fold_left_kw (kw : kwargs) (o : string) :
  fold_left (fun (o : string) (kv : string * Z) =>
               o ++ fst kv ++ str_int (snd kv) ++ "_") kw o
  = o ++ kw_string kw.
Proof.
  revert o. induction kw as [|kv kw IH]; intro o; simpl.
  - now rewrite append_nil_r.
  - rewrite IH. now rewrite !append_assoc.
Qed.

(** The finished path keeps the run directory as a leading part. *)
Lemma finish_shape (x k : string) :
  exists r, finish (x ++ "/" ++ k) = x ++ "/" ++ r.
Proof.
  unfold finish. change ("/" ++ k) with (String "/" k).
  assert (Hb : String "/" k <> "") by discriminate.
  rewrite (last_char_app x _ Hb).
  destruct k as [|a k].
  - cbn [last_char]. change (Ascii.eqb "/" "_") with false. cbv iota.
    rewrite (endswith_sep_app x _ Hb).
    exists "". reflexivity.
  - destruct (last_char (String "/" (String a k))) as [c|e] eqn:E.
    + destruct (Ascii.eqb c "_").
      * rewrite (drop_last_app x _ Hb).
        change (drop_last (String "/" (String a k)))
          with (String "/" (drop_last (String a k))).
        destruct (endswith_sep (x ++ String "/" (drop_last (String a k)))).
        -- now exists (drop_last (String a k)).
        -- exists (drop_last (String a k) ++ "/").
           rewrite append_assoc. reflexivity.
      * destruct (endswith_sep (x ++ String "/" (String a k))).
        -- now exists (String a k).
        -- exists (String a k ++ "/"). rewrite append_assoc. reflexivity.
    + destruct (last_char_nonempty _ Hb) as (c & E'). congruence.
Qed.

Lemma finish_endswith_sep (o : string) : endswith_sep (finish o) = true.
Proof.
  unfold finish.
  match goal with
  | |- context [endswith_sep ?o1] =>
      destruct (endswith_sep o1) eqn:E; [exact E|]
  end.
  now rewrite endswith_sep_app by discriminate.
Qed.

(** The two indexings [outputdir[-1]] succeed and the two steps give
    [finish]. *)
Lemma finish_steps (x k : string) :
  let o := x ++ "/" ++ k in
  exists c1 c2,
    last_char o = Ok c1
    /\ last_char (if Ascii.eqb c1 "_" then drop_last o else o) = Ok c2
    /\ (if negb (is_sep c2)
        then (if Ascii.eqb c1 "_" then drop_last o else o) ++ "/"
        else (if Ascii.eqb c1 "_" then drop_last o else o))
       = finish o.
Proof.
  intro o.
  assert (Ho : o <> "") by (apply append_nonempty_r; discriminate).
  destruct (last_char_nonempty o Ho) as (c1 & E1).
  assert (Ho1 : (if Ascii.eqb c1 "_" then drop_last o else o) <> "").
  { destruct (Ascii.eqb c1 "_") eqn:Ec; [|exact Ho].
    destruct k as [|a k].
    - unfold o in E1. rewrite last_char_app in E1 by discriminate.
      cbn in E1. injection E1 as <-. discriminate.
    - unfold o. change (x ++ "/" ++ String a k)
        with (x ++ String "/" (String a k)).
      rewrite drop_last_app by discriminate.
      apply append_nonempty_r.
      change (drop_last (String "/" (String a k)))
        with (String "/" (drop_last (String a k))). discriminate. }
  destruct (last_char_nonempty _ Ho1) as (c2 & E2).
  exists c1, c2. split; [exact E1|]. split; [exact E2|].
  unfold finish. rewrite E1. unfold endswith_sep. rewrite E2.
  now destruct (is_sep c2).
Qed.

Lemma run_path_shape (today : string) (meta : Meta) (stage ks : string)
  (kw : kwargs) :
  exists r,
    run_path today meta stage ks kw
    = (run_prefix today meta stage ++ ks) ++ "/" ++ r.
Proof.
  unfold run_path.
  destruct (finish_shape (run_prefix today meta stage ++ ks) (kw_string kw))
    as (r & E).
  exists r. rewrite <- E. now rewrite append_assoc.
Qed.

Lemma run_prefix_nonempty (today : string) (meta : Meta)
  (stage ks : string) :
  run_prefix today meta stage ++ ks <> "".
Proof.
  unfold run_prefix. intro E. apply (f_equal String.length) in E.
  rewrite !length_append in E. simpl in E. lia.
Qed.

Lemma join_figs (p : string) :
  endswith_sep p = true -> path_join p ["figs"] = p ++ "figs".
Proof.
  intro H. unfold path_join. simpl. unfold join_step. simpl.
  rewrite H. now rewrite orb_true_r.
Qed.

Lemma dated_fields (today : string) (meta : Meta) :
  topdir (dated today meta) = topdir meta
  /\ outputdir_raw (dated today meta) = outputdir_raw meta
  /\ eventlabel (dated today meta) = eventlabel meta
  /\ datetime (dated today meta) = Some (date_of today meta).
Proof.
  unfold dated, date_of. destruct (datetime meta) eqn:E; simpl; auto.
Qed.

End RunPathFacts.

(** ** [makedirectory] and [pathdirectory] in terms of [run_path] *)

Section DirectoryShape.

Import Util UtilModel.
Local Open Scope string_scope.

Lemma rootdir_step (meta : Meta) (c : ascii) :
  last_char (path_join (topdir meta) (split (outputdir_raw meta))) = Ok c ->
  (if negb (is_sep c)
   then path_join (topdir meta) (split (outputdir_raw meta)) ++ "/"
   else path_join (topdir meta) (split (outputdir_raw meta)))
  = rootdir_of meta.
Proof.
  intro E. unfold rootdir_of, endswith_sep. rewrite E.
  now destruct (is_sep c).
Qed.

Lemma makedirectory_shape (fuel : nat) (today : string) (meta : Meta)
  (stage : string) (counter : option Z) (kw : kwargs) (fs : FileSystem)
  (c : ascii) :
  last_char (path_join (topdir meta) (split (outputdir_raw meta))) = Ok c ->
  makedirectory fuel today meta stage counter kw fs
  = match (match counter with
           | None => option_map (fun k => (Z.of_nat k, str_nat k))
                       (find_counter fs (run_prefix today meta stage) fuel 1)
           | Some z => Some (z, str_int z)
           end) with
    | None => None
    | Some (k, ks) =>
        Some ('(fs2, made) <-
                 create_dirs fs (run_path today meta stage ks kw) ;;
              Ok (dated today meta, fs2, k, made))
    end.
Proof.
  intro E. unfold makedirectory. fold (dated today meta).
  destruct (dated_fields today meta) as (Ft & Fo & Fe & Fd).
  rewrite Ft, Fo, Fe, Fd, E. rewrite (rootdir_step meta c E).
  fold (run_prefix today meta stage).
  destruct (match counter with
            | None => option_map (fun k => (Z.of_nat k, str_nat k))
                        (find_counter fs (run_prefix today meta stage) fuel 1)
            | Some z => Some (z, str_int z)
            end) as [[k ks]|]; [|reflexivity].
  f_equal. rewrite fold_left_kw.
  assert (EQ : (run_prefix today meta stage ++ ks ++ "/") ++ kw_string kw
               = (run_prefix today meta stage ++ ks) ++ "/" ++ kw_string kw)
    by (now rewrite !append_assoc).
  rewrite EQ.
  destruct (finish_steps (run_prefix today meta stage ++ ks) (kw_string kw))
    as (c1 & c2 & E1 & E2 & E3).
  cbv zeta in E1, E2, E3. rewrite E1. cbn [bind]. rewrite E2. cbn [bind].
  rewrite E3.
  assert (EP : finish ((run_prefix today meta stage ++ ks) ++ "/" ++ kw_string kw)
               = run_path today meta stage ks kw)
    by (unfold run_path; now rewrite append_assoc).
  rewrite (join_figs _ (finish_endswith_sep _)). rewrite EP.
  unfold create_dirs.
  destruct (path_exists fs (run_path today meta stage ks kw)); cbn [negb].
  - cbn [bind].
    destruct (path_exists fs (run_path today meta stage ks kw ++ "figs"));
      cbn [negb bind]; [reflexivity|].
    destruct (makedirs fs (run_path today meta stage ks kw ++ "figs"));
      reflexivity.
  - destruct (makedirs fs (run_path today meta stage ks kw)) as [fs1|e];
      cbn [bind]; [|reflexivity].
    destruct (path_exists fs1 (run_path today meta stage ks kw ++ "figs"));
      cbn [negb bind]; [reflexivity|].
    destruct (makedirs fs1 (run_path today meta stage ks kw ++ "figs"));
      reflexivity.
Qed.

Lemma pathdirectory_shape (today : string) (meta : Meta) (stage : string)
  (run : Z) (kw : kwargs) (c : ascii) :
  last_char (path_join (topdir meta) (split (outputdir_raw meta))) = Ok c ->
  pathdirectory today meta stage run None kw
  = Ok (dated today meta, run_path today meta stage (str_int run) kw).
Proof.
  intro E. unfold pathdirectory.
  assert (G : (match datetime meta with
               | None => (set_datetime meta today, today)
               | Some d => (meta, d)
               end) = (dated today meta, date_of today meta))
    by (unfold dated, date_of; now destruct (datetime meta)).
  rewrite G. destruct (dated_fields today meta) as (Ft & Fo & Fe & Fd).
  rewrite Ft, Fo, Fe, E. cbn [bind]. rewrite (rootdir_step meta c E).
  rewrite fold_left_kw.
  assert (EQ : (rootdir_of meta ++ stage ++ "_" ++ date_of today meta ++ "_"
                  ++ eventlabel meta ++ "_run" ++ str_int run ++ "/")
               ++ kw_string kw
               = (run_prefix today meta stage ++ str_int run) ++ "/"
                 ++ kw_string kw)
    by (unfold run_prefix; now rewrite !append_assoc).
  rewrite EQ.
  destruct (finish_steps (run_prefix today meta stage ++ str_int run)
              (kw_string kw)) as (c1 & c2 & E1 & E2 & E3).
  cbv zeta in E1, E2, E3. rewrite E1. cbn [bind]. rewrite E2. cbn [bind].
  rewrite E3. unfold run_path. now rewrite append_assoc.
Qed.

End DirectoryShape.

(** ** The file system after [makedirectory], and the counter loop *)

Section FileSystemFacts.

Import Util UtilModel.
Local Open Scope string_scope.

Lemma path_exists_cons (n : node) (es : list node) (w : bool) (q : string) :
  path_exists (mkFS (n :: es) w) q
  = (node_within (norm q) n || path_exists (mkFS es w) q)%bool.
Proof. reflexivity. Qed.

Lemma makedirs_result (fs : FileSystem) (p : string) :
  match makedirs fs p with
  | Ok fs' =>
      path_exists fs p = false /\ writable fs = true
      /\ fs' = mkFS (norm p :: entries fs) (writable fs)
  | Raise _ => writable fs = false \/ path_exists fs p = true
  end.
Proof.
  unfold makedirs. destruct (writable fs); simpl; [|now left].
  destruct (path_exists fs p); [now right | auto].
Qed.

Lemma path_exists_added (fs : FileSystem) (p q : string) :
  path_exists fs q = true ->
  path_exists (mkFS (norm p :: entries fs) (writable fs)) q = true.
Proof.
  intro H. rewrite path_exists_cons. apply orb_true_iff. right.
  destruct fs. exact H.
Qed.

Lemma path_exists_new (fs : FileSystem) (p : string) :
  path_exists (mkFS (norm p :: entries fs) (writable fs)) p = true.
Proof.
  rewrite path_exists_cons. now rewrite node_within_refl.
Qed.

(** What [create_dirs] leaves behind. *)
Lemma create_dirs_result (fs : FileSystem) (p : string) :
  match create_dirs fs p with
  | Ok (fs', created) =>
      path_exists fs' p = true
      /\ (forall q, path_exists fs q = true -> path_exists fs' q = true)
      /\ writable fs' = writable fs
      /\ (path_exists fs p = false -> In p created)
      /\ (forall q, In q created -> q = p \/ q = p ++ "figs")
      /\ (List.length (entries fs') <= List.length (entries fs) + 2)%nat
  | Raise _ => writable fs = false
  end.
Proof.
  unfold create_dirs.
  destruct (path_exists fs p) eqn:Ep; cbn [negb bind].
  - destruct (path_exists fs (p ++ "figs")) eqn:Ef; cbn [negb bind].
    + repeat split; simpl; auto; try lia; try congruence; tauto.
    + pose proof (makedirs_result fs (p ++ "figs")) as M.
      destruct (makedirs fs (p ++ "figs")) as [fs2|e]; cbn [bind].
      * destruct M as (_ & Hw & ->).
        repeat split; simpl; auto; try lia; try congruence.
        -- now apply path_exists_added.
        -- intros q Hq. now apply path_exists_added.
        -- intros q [Hq|[]]. now right.
      * destruct M as [M|M]; [exact M | congruence].
  - pose proof (makedirs_result fs p) as M.
    destruct (makedirs fs p) as [fs1|e]; cbn [bind].
    + destruct M as (_ & Hw & ->).
      destruct (path_exists (mkFS (norm p :: entries fs) (writable fs))
                  (p ++ "figs")) eqn:Ef; cbn [negb bind].
      * repeat split; simpl; auto; try lia.
        -- apply path_exists_new.
        -- intros q Hq. now apply path_exists_added.
        -- intros q [Hq|[]]. now left.
      * pose proof (makedirs_result
                      (mkFS (norm p :: entries fs) (writable fs))
                      (p ++ "figs")) as M2.
        destruct (makedirs (mkFS (norm p :: entries fs) (writable fs))
                    (p ++ "figs")) as [fs2|e]; cbn [bind].
        -- destruct M2 as (_ & _ & ->). cbn [writable entries].
           repeat split; simpl; auto; try lia.
           ++ apply (path_exists_added
                       (mkFS (norm p :: entries fs) (writable fs))
                       (p ++ "figs") p).
              apply path_exists_new.
           ++ intros q Hq.
              apply (path_exists_added
                       (mkFS (norm p :: entries fs) (writable fs))
                       (p ++ "figs") q).
              now apply path_exists_added.
           ++ intros q [Hq|[Hq|[]]]; [now left | now right].
        -- cbn [writable] in M2. destruct M2 as [M2|M2]; congruence.
    + destruct M as [M|M]; [exact M | congruence].
Qed.

Lemma no_sep_uint (d : Decimal.uint) :
  no_sep (NilEmpty.string_of_uint d) = true.
Proof. induction d; simpl; auto. Qed.

Lemma str_int_no_sep (z : Z) : no_sep (str_int z) = true.
Proof.
  unfold str_int. destruct (Z.to_int z) as [d|d]; simpl;
    apply no_sep_uint.
Qed.

Lemma str_int_nonempty (z : Z) : str_int z <> "".
Proof.
  intro E.
  assert (H : NilEmpty.int_of_string (str_int z) = Some (Z.to_int z))
    by apply NilEmpty.isi.
  rewrite E in H. cbn in H. injection H as H.
  assert (Hz : z = 0%Z) by (rewrite <- (DecimalZ.of_to z), <- H; reflexivity).
  subst z. discriminate.
Qed.

Lemma find_counter_none (fs : FileSystem) (o : string) (fuel c : nat) :
  find_counter fs o fuel c = None ->
  forall j, (c <= j < c + fuel)%nat ->
            path_exists fs (o ++ str_nat j) = true.
Proof.
  revert c. induction fuel as [|fuel IH]; intros c H j Hj; [lia|].
  simpl in H.
  destruct (path_exists fs (o ++ str_nat c)) eqn:E; [|discriminate].
  destruct (Nat.eq_dec j c) as [->|Hne]; [exact E|].
  apply (IH (c + 1)%nat H). lia.
Qed.

Lemma find_counter_some (fs : FileSystem) (o : string) (fuel c k : nat) :
  find_counter fs o fuel c = Some k ->
  (c <= k)%nat
  /\ path_exists fs (o ++ str_nat k) = false
  /\ forall j, (c <= j < k)%nat -> path_exists fs (o ++ str_nat j) = true.
Proof.
  revert c. induction fuel as [|fuel IH]; intros c H; [discriminate|].
  simpl in H.
  destruct (path_exists fs (o ++ str_nat c)) eqn:E.
  - destruct (IH _ H) as (H1 & H2 & H3).
    split; [lia|]. split; [exact H2|].
    intros j Hj. destruct (Nat.eq_dec j c) as [->|Hne]; [exact E|].
    apply H3. lia.
  - injection H as <-. split; [lia|]. split; [exact E|]. intros j Hj. lia.
Qed.

Lemma run_node_inj (o : string) (j j' : nat) :
  norm (o ++ str_nat j) = norm (o ++ str_nat j') -> j = j'.
Proof.
  intro H. apply (f_equal snd) in H. unfold norm in H. cbn [snd] in H.
  change (components (o ++ str_nat j) = components (o ++ str_nat j')) in H.
  rewrite !components_app_no_sep in H
    by (apply str_int_no_sep || apply str_int_nonempty).
  apply app_inv_head in H. injection H as H.
  apply append_cancel_l in H. now apply str_nat_inj.
Qed.

(** As many run directories as exist, at least as many entries. *)
Lemma run_nodes_fit (fs : FileSystem) (o : string) (n : nat) :
  (forall j, (1 <= j <= n)%nat -> path_exists fs (o ++ str_nat j) = true) ->
  (n <= List.length (entries fs))%nat.
Proof.
  intro H.
  set (m := List.length
              (filter (fun c => negb (String.eqb c ""))
                      (removelast (split o)))).
  set (t := fun e : node => (fst e, firstn (S m) (snd e))).
  rewrite <- (length_map t (entries fs)).
  apply Nat.le_trans
    with (List.length (map (fun j => norm (o ++ str_nat j)) (seq 1 n)));
    [now rewrite length_map, length_seq|].
  apply NoDup_incl_length.
  - apply NoDup_map_on; [|apply seq_NoDup].
    intros x y _ _. apply run_node_inj.
  - intros nd Hnd. apply in_map_iff in Hnd. destruct Hnd as (j & <- & Hj).
    apply in_seq in Hj.
    assert (E : path_exists fs (o ++ str_nat j) = true) by (apply H; lia).
    unfold path_exists in E. apply existsb_exists in E.
    destruct E as (e & He & W). apply in_map_iff. exists e.
    split; [|exact He].
    unfold node_within in W. apply andb_prop in W. destruct W as [W1 W2].
    apply Bool.eqb_prop in W1. apply is_prefix_firstn in W2.
    unfold t. rewrite <- W1.
    assert (L : List.length (snd (norm (o ++ str_nat j))) = S m).
    { unfold norm. cbn [snd].
      change (List.length (components (o ++ str_nat j)) = S m).
      rewrite components_app_no_sep
        by (apply str_int_no_sep || apply str_int_nonempty).
      rewrite length_app. simpl. unfold m. lia. }
    rewrite <- L, W2. now destruct (norm (o ++ str_nat j)).
Qed.

Lemma find_counter_total (fs : FileSystem) (o : string) (fuel : nat) :
  (List.length (entries fs) < fuel)%nat ->
  exists k, find_counter fs o fuel 1 = Some k.
Proof.
  intro Hf. destruct (find_counter fs o fuel 1) as [k|] eqn:E;
    [now exists k|].
  pose proof (find_counter_none fs o fuel 1 E) as H.
  assert (G : (fuel <= List.length (entries fs))%nat).
  { apply (run_nodes_fit fs o fuel). intros j Hj. apply H. lia. }
  lia.
Qed.

Lemma join_step_nonempty (path b : string) :
  path <> "" -> join_step path b <> "".
Proof.
  intro H. unfold join_step. destruct b as [|c b]; simpl.
  - destruct (String.eqb path "" || endswith_sep path)%bool;
      rewrite ?append_nil_r; [exact H|].
    apply append_nonempty_r. discriminate.
  - destruct (is_sep c); [discriminate|].
    destruct (String.eqb path "" || endswith_sep path)%bool;
      apply append_nonempty_r; discriminate.
Qed.

Lemma path_join_nonempty (a : string) (ps : list string) :
  a <> "" -> path_join a ps <> "".
Proof.
  unfold path_join. revert a. induction ps as [|b ps IH]; intros a H;
    simpl; [exact H|].
  apply IH. now apply join_step_nonempty.
Qed.

Lemma rootdir_indexable (meta : Meta) :
  topdir meta <> "" ->
  exists c,
    last_char (path_join (topdir meta) (split (outputdir_raw meta))) = Ok c.
Proof. intro H. apply last_char_nonempty. now apply path_join_nonempty. Qed.

Lemma run_prefix_dated (today today' : string) (meta : Meta)
  (stage : string) :
  run_prefix today' (dated today meta) stage = run_prefix today meta stage.
Proof.
  destruct (dated_fields today meta) as (Ft & Fo & Fe & Fd).
  unfold run_prefix, rootdir_of, date_of. now rewrite Ft, Fo, Fe, Fd.
Qed.

End FileSystemFacts.

(** ** Run numbers and the round trip *)

Section DirectoryClaims.

Import Util UtilModel Samples.
Local Open Scope string_scope.

Lemma dated_idem (today today' : string) (meta : Meta) :
  dated today' (dated today meta) = dated today meta.
Proof.
  destruct (dated_fields today meta) as (_ & _ & _ & Fd).
  unfold dated at 1. now rewrite Fd.
Qed.

Lemma makedirectory_fresh (fuel : nat) (today : string) (meta : Meta)
  (stage : string) (kw : kwargs) (fs : FileSystem) :
  topdir meta <> "" -> writable fs = true ->
  (List.length (entries fs) < fuel)%nat ->
  exists (k : nat) (fs' : FileSystem) (created : list string),
    makedirectory fuel today meta stage None kw fs
    = Some (Ok (dated today meta, fs', Z.of_nat k, created))
    /\ (1 <= k)%nat
    /\ path_exists fs (run_prefix today meta stage ++ str_nat k) = false
    /\ (forall j, (1 <= j < k)%nat ->
          path_exists fs (run_prefix today meta stage ++ str_nat j) = true)
    /\ path_exists fs' (run_prefix today meta stage ++ str_nat k) = true
    /\ In (run_path today meta stage (str_nat k) kw) created
    /\ (forall q, path_exists fs q = true -> path_exists fs' q = true)
    /\ writable fs' = true.
Proof.
  intros Ht Hw Hf.
  destruct (rootdir_indexable meta Ht) as (c & E).
  destruct (find_counter_total fs (run_prefix today meta stage) fuel Hf)
    as (k & Ek).
  destruct (find_counter_some _ _ _ _ _ Ek) as (K1 & K2 & K3).
  rewrite (makedirectory_shape fuel today meta stage None kw fs c E), Ek.
  cbn [option_map].
  pose proof (create_dirs_result fs (run_path today meta stage (str_nat k) kw))
    as R.
  destruct (create_dirs fs (run_path today meta stage (str_nat k) kw))
    as [[fs' created]|e]; [|congruence].
  destruct R as (R1 & R2 & R3 & R4 & _ & _).
  destruct (run_path_shape today meta stage (str_nat k) kw) as (r & Er).
  pose proof (run_prefix_nonempty today meta stage (str_nat k)) as Hne.
  exists k, fs', created. cbn [bind].
  split; [reflexivity|]. split; [exact K1|]. split; [exact K2|].
  split; [exact K3|].
  split.
  { apply (path_exists_ancestor fs' _ r Hne). now rewrite <- Er. }
  split.
  { apply R4.
    destruct (path_exists fs (run_path today meta stage (str_nat k) kw))
      eqn:Ep; [|reflexivity].
    rewrite Er in Ep. apply (path_exists_ancestor fs _ r Hne) in Ep.
    congruence. }
  split; [exact R2 | congruence].
Qed.

(** C8.  With [counter=None], on a file system where directories can be
    made and with an output root set, [makedirectory] returns the
    smallest [k >= 1] for which [<root>/<stage>_<date>_<eventlabel>_run<k>]
    does not exist, and afterwards that directory exists (the path with
    the keyword-argument folder was given to [os.makedirs]).  A further
    call on the resulting metadata object and file system, on any day
    and for any keyword arguments, returns a larger run number whose
    directory did not exist before that call; the earlier run directory
    is still there. *)
Theorem makedirectory_new_run :
  forall (fuel : nat) (today : string) (meta : Meta) (stage : string)
         (kw : kwargs) (fs : FileSystem),
    topdir meta <> "" ->
    writable fs = true ->
    (List.length (entries fs) < fuel)%nat ->
    exists (k : nat) (fs' : FileSystem) (created : list string),
      makedirectory fuel today meta stage None kw fs
      = Some (Ok (dated today meta, fs', Z.of_nat k, created))
      /\ (1 <= k)%nat
      /\ path_exists fs (run_prefix today meta stage ++ str_nat k) = false
      /\ (forall j, (1 <= j < k)%nat ->
            path_exists fs (run_prefix today meta stage ++ str_nat j)
            = true)
      /\ path_exists fs' (run_prefix today meta stage ++ str_nat k) = true
      /\ In (run_path today meta stage (str_nat k) kw) created
      /\ (forall (fuel' : nat) (today' : string) (kw' : kwargs),
            (List.length (entries fs') < fuel')%nat ->
            exists (k' : nat) (fs'' : FileSystem) (created' : list string),
              makedirectory fuel' today' (dated today meta) stage None kw' fs'
              = Some (Ok (dated today meta, fs'', Z.of_nat k', created'))
              /\ (k < k')%nat
              /\ path_exists fs'
                   (run_prefix today meta stage ++ str_nat k') = false
              /\ path_exists fs''
                   (run_prefix today meta stage ++ str_nat k') = true
              /\ path_exists fs''
                   (run_prefix today meta stage ++ str_nat k) = true).
Proof.
  intros fuel today meta stage kw fs Ht Hw Hf.
  destruct (makedirectory_fresh fuel today meta stage kw fs Ht Hw Hf)
    as (k & fs' & created & E & K1 & K2 & K3 & K4 & K5 & K6 & K7).
  exists k, fs', created.
  repeat (split; [assumption|]).
  intros fuel' today' kw' Hf'.
  assert (Ht' : topdir (dated today meta) <> "")
    by (now rewrite (proj1 (dated_fields today meta))).
  destruct (makedirectory_fresh fuel' today' (dated today meta) stage kw'
              fs' Ht' K7 Hf')
    as (k' & fs'' & created' & E' & L1 & L2 & L3 & L4 & _ & L6 & _).
  rewrite dated_idem in E'. rewrite run_prefix_dated in L2, L3, L4.
  exists k', fs'', created'.
  split; [exact E'|].
  split.
  { destruct (Nat.lt_trichotomy k' k) as [Hlt|[->|Hgt]]; [| |exact Hgt].
    - rewrite (K6 _ (K3 k' (conj L1 Hlt))) in L2. discriminate.
    - congruence. }
  split; [exact L2|]. split; [exact L4|]. now apply L6.
Qed.

Lemma makedirectory_new_run_witness :
  exists fs' created,
    makedirectory 1 "2022-01-05" (meta_of true 3) "S5" None ap_bg empty_fs
    = Some (Ok (dated "2022-01-05" (meta_of true 3), fs', 1%Z, created))
    /\ path_exists fs' "/home/user/data/S5/S5_2022-01-05_wasp43b_run1"
       = true.
Proof.
  destruct (makedirectory_new_run 1 "2022-01-05" (meta_of true 3) "S5"
              ap_bg empty_fs) as (k & fs' & created & E & _ & _ & _ & P & _).
  - discriminate.
  - reflexivity.
  - simpl. lia.
  - assert (Hk : k = 1%nat).
    { assert (V : makedirectory 1 "2022-01-05" (meta_of true 3) "S5" None
                    ap_bg empty_fs
                  = Some (Ok (dated "2022-01-05" (meta_of true 3),
                              mkFS [norm "/home/user/data/S5/S5_2022-01-05_wasp43b_run1/ap8_bg10/figs";
                                    norm "/home/user/data/S5/S5_2022-01-05_wasp43b_run1/ap8_bg10/"]
                                   true,
                              1%Z,
                              ["/home/user/data/S5/S5_2022-01-05_wasp43b_run1/ap8_bg10/";
                               "/home/user/data/S5/S5_2022-01-05_wasp43b_run1/ap8_bg10/figs"])))
        by (vm_compute; reflexivity).
      rewrite V in E. injection E as _ E _. lia. }
    subst k. exists fs', created. split; [exact E | exact P].
Defined.

Lemma makedirectory_raise (fuel : nat) (today : string) (meta : Meta)
  (stage : string) (counter : option Z) (kw : kwargs) (fs : FileSystem)
  (e : exn) :
  last_char (path_join (topdir meta) (split (outputdir_raw meta)))
  = Raise e ->
  makedirectory fuel today meta stage counter kw fs = Some (Raise e).
Proof.
  intro E. unfold makedirectory. fold (dated today meta).
  destruct (dated_fields today meta) as (Ft & Fo & _ & _).
  now rewrite Ft, Fo, E.
Qed.

(** C9.  Whenever [makedirectory] returns a run number, [pathdirectory]
    on the metadata object as [makedirectory] left it, with that run
    number, the same stage and the same keyword arguments, on whatever
    day, returns a path [p] that exists afterwards; [p], with its
    keyword-argument folder and its final separator, is the very string
    given to [os.makedirs] when it did not exist before, and nothing else
    than [p] and [p ++ "figs"] was created. *)
Theorem pathdirectory_round_trip :
  forall (fuel : nat) (today today' : string) (meta : Meta) (stage : string)
         (counter : option Z) (kw : kwargs) (fs : FileSystem)
         (meta' : Meta) (fs' : FileSystem) (k : Z) (created : list string),
    makedirectory fuel today meta stage counter kw fs
    = Some (Ok (meta', fs', k, created)) ->
    exists p,
      pathdirectory today' meta' stage k None kw = Ok (meta', p)
      /\ path_exists fs' p = true
      /\ (path_exists fs p = false -> In p created)
      /\ (forall q, In q created -> q = p \/ q = p ++ "figs").
Proof.
  intros fuel today today' meta stage counter kw fs meta' fs' k created H.
  destruct (last_char (path_join (topdir meta) (split (outputdir_raw meta))))
    as [c|e] eqn:E;
    [|rewrite (makedirectory_raise _ _ _ _ _ _ _ _ E) in H; discriminate].
  rewrite (makedirectory_shape fuel today meta stage counter kw fs c E) in H.
  assert (G : exists ks,
             ks = str_int k
             /\ ('(fs2, made) <-
                   create_dirs fs (run_path today meta stage ks kw) ;;
                 Ok (dated today meta, fs2, k, made))
                = Ok (meta', fs', k, created)).
  { destruct counter as [z|].
    - injection H as H. exists (str_int z).
      assert (z = k).
      { destruct (create_dirs fs (run_path today meta stage (str_int z) kw))
          as [[a b]|]; cbn [bind] in H; [|discriminate].
        now injection H. }
      subst z. split; [reflexivity | exact H].
    - destruct (find_counter fs (run_prefix today meta stage) fuel 1)
        as [kn|]; [|discriminate].
      cbn [option_map] in H. injection H as H. exists (str_nat kn).
      assert (Z.of_nat kn = k).
      { destruct (create_dirs fs (run_path today meta stage (str_nat kn) kw))
          as [[a b]|]; cbn [bind] in H; [|discriminate].
        now injection H. }
      subst k. split; [reflexivity | exact H]. }
  destruct G as (ks & -> & G).
  pose proof (create_dirs_result fs (run_path today meta stage (str_int k) kw))
    as R.
  destruct (create_dirs fs (run_path today meta stage (str_int k) kw))
    as [[fs2 made]|]; cbn [bind] in G; [|discriminate].
  injection G as <- <- <-.
  destruct R as (R1 & _ & _ & R4 & R5 & _).
  exists (run_path today meta stage (str_int k) kw).
  split; [|auto].
  assert (E' : last_char (path_join (topdir (dated today meta))
                            (split (outputdir_raw (dated today meta))))
               = Ok c).
  { destruct (dated_fields today meta) as (Ft & Fo & _ & _).
    now rewrite Ft, Fo. }
  rewrite (pathdirectory_shape today' (dated today meta) stage k kw c E').
  rewrite dated_idem. unfold run_path. now rewrite run_prefix_dated.
Qed.

Lemma pathdirectory_round_trip_witness :
  pathdirectory "2022-01-06" (dated "2022-01-05" (meta_of true 3)) "S5" 1
                None ap_bg
  = Ok (dated "2022-01-05" (meta_of true 3),
        "/home/user/data/S5/S5_2022-01-05_wasp43b_run1/ap8_bg10/").
Proof.
  destruct (pathdirectory_round_trip 1 "2022-01-05" "2022-01-06"
              (meta_of true 3) "S5" None ap_bg empty_fs
              (dated "2022-01-05" (meta_of true 3))
              (mkFS [norm "/home/user/data/S5/S5_2022-01-05_wasp43b_run1/ap8_bg10/figs";
                     norm "/home/user/data/S5/S5_2022-01-05_wasp43b_run1/ap8_bg10/"]
                    true)
              1%Z
              ["/home/user/data/S5/S5_2022-01-05_wasp43b_run1/ap8_bg10/";
               "/home/user/data/S5/S5_2022-01-05_wasp43b_run1/ap8_bg10/figs"])
    as (p & E & _).
  - vm_compute. reflexivity.
  - rewrite E. vm_compute in E. injection E as <-. reflexivity.
Defined.

End DirectoryClaims.

(** ** [read_s4_meta] *)

Section ReadS4Facts.

Import ReadS4 Samples.
Local Open Scope string_scope.

Variable glob : string -> list string.
Variable glob_recursive : string -> list string.
Variable sort_nicely : list string -> list string.
Variable loadevent : string -> result Meta.

(** Once the search folder is known: no candidate gives
    [AssertionError]; otherwise the last candidate of the list is loaded,
    with a warning when there are several. *)
Lemma read_s4_meta_cases (meta : Meta) (c : ascii) :
  last_char (path_join (topdir meta) (split (inputdir meta))) = Ok c ->
  let r := path_join (topdir meta) (split (inputdir meta)) in
  let rootdir := if negb (Ascii.eqb c "/") then r ++ "/" else r in
  let direct := glob (rootdir ++ "S4_" ++ eventlabel meta ++ "*_Meta_Save.dat") in
  let files :=
    match direct with
    | [] => sort_nicely
              (glob_recursive
                 (rootdir ++ "**/S4_" ++ eventlabel meta ++ "*_Meta_Save.dat"))
    | _ => direct
    end in
  read_s4_meta glob glob_recursive sort_nicely loadevent meta
  = match files with
    | [] => ([], Raise AssertionError)
    | [f] =>
        ([], loadevent (drop_last (drop_last (drop_last (drop_last f)))))
    | _ =>
        ([WarnMultiple rootdir (last files "")],
         loadevent (drop_last (drop_last (drop_last
                      (drop_last (last files ""))))))
    end.
Proof.
  intros E r rootdir direct files. unfold read_s4_meta. rewrite E.
  fold r. fold rootdir. fold direct.
  assert (F : (if (List.length direct =? 0)%nat
               then sort_nicely
                      (glob_recursive
                         (rootdir ++ "**/S4_" ++ eventlabel meta
                                  ++ "*_Meta_Save.dat"))
               else direct) = files)
    by (unfold files; now destruct direct).
  rewrite F.
  destruct files as [|f [|g rest]]; reflexivity.
Qed.

End ReadS4Facts.

Section ReadS4Claims.

Import ReadS4 Samples.
Local Open Scope string_scope.

(** C7.  The input folder holds two matching save files, listed with the
    more recently written one first.  [read_s4_meta] warns and loads the
    last of the list, which is the older file, and returns the metadata
    stored in it. *)
Theorem read_s4_meta_loads_last_listed :
  glob_two "/home/user/data/S4/S4_wasp43b*_Meta_Save.dat"
  = [s4_newer; s4_older]
  /\ (getmtime s4_older < getmtime s4_newer)%Z
  /\ read_s4_meta glob_two (fun _ => []) (fun l => l) loadevent_two
       (meta_of true 3)
     = ([WarnMultiple "/home/user/data/S4/" s4_older], Ok meta_older)
  /\ loadevent_two "/home/user/data/S4/S4_wasp43b_Meta_Save" = Ok meta_newer
  /\ meta_older <> meta_newer.
Proof.
  split; [reflexivity|]. split; [reflexivity|].
  split; [vm_compute; reflexivity|]. split; [reflexivity|].
  discriminate.
Qed.

End ReadS4Claims.


(* ================================================================== *)
(** * Further properties *)

(** ** The expander on arbitrary parameter sets *)

Section ExpanderGeneral.

Import Expander ExpanderModel MoreModel FitJWST Samples.
Local Open Scope string_scope.

Lemma effective_cases (meta : Meta) :
  sharedp meta = false \/ (1 <= nspecchan meta)%Z ->
  exists n, effective_nspecchan meta = Z.of_nat n /\ (1 <= n)%nat
            /\ n = Z.to_nat (effective_nspecchan meta).
Proof.
  intro H. unfold effective_nspecchan. destruct (sharedp meta).
  - destruct H as [H|H]; [discriminate|].
    exists (Z.to_nat (nspecchan meta)). lia.
  - exists 1%nat. repeat split; lia.
Qed.

(** X1.  Whenever the fit is not in shared mode or there is at least one
    channel, the expander returns as many lists as the channel count it
    works with; [paramtitles] and the list of channel 0 are the declared
    names in declaration order, whatever the kinds; and every channel's
    list has one name per declared parameter. *)
Theorem make_longparamlist_titles :
  forall (meta : Meta) (params : Parameters),
    sharedp meta = false \/ (1 <= nspecchan meta)%Z ->
    exists params' longparamlist paramtitles,
      make_longparamlist meta params
      = Ok (params', (longparamlist, paramtitles))
      /\ paramtitles = keys params
      /\ nth_error longparamlist 0 = Some (keys params)
      /\ List.length longparamlist = Z.to_nat (effective_nspecchan meta)
      /\ (forall l, In l longparamlist ->
                    List.length l = List.length (keys params)).
Proof.
  intros meta params H.
  destruct (effective_cases meta H) as (n & E & Hn & En).
  eexists _, _, _. split;
    [apply (make_longparamlist_closed meta params n E Hn)|].
  split; [reflexivity|]. split.
  { rewrite (nth_error_map_seq
               (fun c => row_names n c (keys params) params)) by lia.
    now rewrite row_names_0 by apply gettable_keys. }
  split; [now rewrite length_map, length_seq|].
  intros l Hl. apply in_map_iff in Hl. destruct Hl as (c & <- & _).
  apply row_names_length, gettable_keys.
Qed.

Lemma make_longparamlist_titles_witness :
  exists params' longparamlist,
    make_longparamlist (meta_of true 3) params_colliding
    = Ok (params', (longparamlist, ["rp"; "rp_1"])).
Proof.
  destruct (make_longparamlist_titles (meta_of true 3) params_colliding)
    as (params' & ll & pt & E & -> & _).
  - right. simpl. lia.
  - exists params', ll. exact E.
Defined.

Lemma detect_shared_fold (params : Parameters) (acc : bool) :
  fold_left (fun (sharedp : bool) (item : string * entry) =>
               if is_shared (snd item) then true else sharedp) params acc
  = (acc || existsb (fun item => is_shared (snd item)) params)%bool.
Proof.
  revert acc. induction params as [|item params IH]; intro acc; simpl.
  - now rewrite orb_false_r.
  - rewrite IH. destruct (is_shared (snd item)), acc; reflexivity.
Qed.

(** X2.  Outside shared mode the expander ignores the channel count and
    the kinds: it returns the single list of declared names, with
    [paramtitles] equal to it, and leaves the parameter set as it was.
    The scan of [fitJWST] puts the fit outside shared mode exactly when no
    entry holds the string ['shared']. *)
Theorem make_longparamlist_per_channel :
  forall (meta : Meta) (params : Parameters),
    (sharedp meta = false ->
     make_longparamlist meta params
     = Ok (params, ([keys params], keys params)))
    /\ (detect_shared params = false <->
        forall k e, In (k, e) params -> is_shared e = false)
    /\ (detect_shared params = false ->
        make_longparamlist (set_sharedp meta (detect_shared params)) params
        = Ok (params, ([keys params], keys params))).
Proof.
  intros meta params.
  assert (A : forall m, sharedp m = false ->
                make_longparamlist m params
                = Ok (params, ([keys params], keys params))).
  { intros m Hm.
    rewrite (make_longparamlist_closed m params 1);
      [|unfold effective_nspecchan; now rewrite Hm | lia].
    rewrite final_one_channel. simpl.
    now rewrite row_names_0 by apply gettable_keys. }
  split; [apply A|]. split.
  - unfold detect_shared. rewrite detect_shared_fold. simpl. split.
    + intros H k e Hin.
      destruct (is_shared e) eqn:He; [|reflexivity].
      assert (G : existsb (fun item => is_shared (snd item)) params = true)
        by (apply existsb_exists; exists (k, e); auto).
      congruence.
    + intro H. destruct (existsb _ params) eqn:G; [|reflexivity].
      apply existsb_exists in G. destruct G as ([k e] & Hin & He).
      simpl in He. rewrite (H k e Hin) in He. discriminate.
  - intro H. apply A. now rewrite H.
Qed.

Lemma make_longparamlist_per_channel_witness :
  make_longparamlist (meta_of false 3) params_one_free
  = Ok (params_one_free,
        ([["rp"; "per"; "limb_dark"]], ["rp"; "per"; "limb_dark"])).
Proof.
  apply (make_longparamlist_per_channel (meta_of false 3) params_one_free).
  reflexivity.
Defined.

End ExpanderGeneral.

Section ExpanderGrowth.

Import Expander ExpanderModel MoreModel Samples.
Local Open Scope string_scope.

Lemma keys_setattr (d : Parameters) (k : string) (e : entry) :
  keys (setattr d k e) = keys d
  \/ keys (setattr d k e) = (keys d ++ [k])%list.
Proof.
  induction d as [|[k' e'] d IH]; simpl; [now right|].
  destruct (String.eqb k k'); simpl; [now left|].
  destruct IH as [IH|IH]; rewrite IH; [now left | now right].
Qed.

Lemma grows_copies (m : nat) (p : string) (e : entry) (d : Parameters) :
  exists added,
    keys (copies m p e d) = (keys d ++ added)%list
    /\ Forall (fun k => exists c, k = title p c /\ (c < m)%nat) added.
Proof.
  unfold copies.
  assert (G : forall l d,
             (forall c, In c l -> (c < m)%nat) ->
             exists added,
               keys (fold_left (fun d c => setattr d (title p c) e) l d)
               = (keys d ++ added)%list
               /\ Forall (fun k => exists c, k = title p c /\ (c < m)%nat)
                         added).
  { induction l as [|c l IH]; intros d' Hl; simpl.
    - exists []. now rewrite app_nil_r.
    - destruct (IH (setattr d' (title p c) e)) as (added & E & F);
        [intros c' Hc'; apply Hl; now right|].
      destruct (keys_setattr d' (title p c) e) as [K|K]; rewrite K in E.
      + now exists added.
      + exists (title p c :: added). split.
        * now rewrite E, <- app_assoc.
        * constructor; [|exact F]. exists c. split; [reflexivity|].
          apply Hl. now left. }
  apply G. intros c Hc. apply in_seq in Hc. lia.
Qed.

Lemma grows_final (n : nat) (tlist : list string) (d : Parameters) :
  exists added,
    keys (final n tlist d) = (keys d ++ added)%list
    /\ Forall (fun k => exists q c, k = title q c /\ (c < n - 1)%nat) added.
Proof.
  unfold final. revert d. induction tlist as [|p t IH]; intro d; simpl.
  - exists []. now rewrite app_nil_r.
  - destruct (IH (step n p d)) as (added & E & F).
    assert (S : exists added0,
               keys (step n p d) = (keys d ++ added0)%list
               /\ Forall (fun k => exists q c, k = title q c
                                               /\ (c < n - 1)%nat) added0).
    { unfold step. destruct (dict_get d p) as [e|];
        [|exists []; now rewrite app_nil_r].
      destruct (is_free e); [|exists []; now rewrite app_nil_r].
      destruct (grows_copies (n - 1) p e d) as (a0 & E0 & F0).
      exists a0. split; [exact E0|].
      eapply Forall_impl; [|exact F0]. intros k (c & -> & Hc). now exists p, c. }
    destruct S as (added0 & E0 & F0).
    exists (added0 ++ added)%list. split.
    + now rewrite E, E0, <- app_assoc.
    + apply Forall_app. split; assumption.
Qed.

Lemma make_longparamlist_needs_channel (meta : Meta) (params : Parameters) :
  sharedp meta = true -> (nspecchan meta <= 0)%Z ->
  make_longparamlist meta params = Raise IndexError.
Proof.
  intros Hsh Hn. unfold make_longparamlist.
  rewrite (effective_shared meta Hsh).
  assert (E : map (fun _ : nat => @nil string) (range (nspecchan meta)) = [])
    by (unfold range; now replace (Z.to_nat (nspecchan meta)) with 0%nat by lia).
  rewrite E.
  destruct (loop_without_channels (nspecchan meta) (keys params) params Hn
              (gettable_keys params)) as [G|G]; rewrite G; reflexivity.
Qed.

(** X3.  Whenever the expander returns, the parameter set it leaves has the
    declared names first, in their order, followed by names it added; each
    added name is some [q_c] with [1 <= c < nspecchan]; and every declared
    name still has an entry. *)
Theorem make_longparamlist_only_adds :
  forall (meta : Meta) (params params' : Parameters)
         (r : list (list string) * list string),
    make_longparamlist meta params = Ok (params', r) ->
    exists added,
      keys params' = (keys params ++ added)%list
      /\ Forall (fun k => exists q c,
                   k = q ++ "_" ++ str_nat c
                   /\ (1 <= Z.of_nat c < nspecchan meta)%Z) added
      /\ (forall k, In k (keys params) -> dict_get params' k <> None).
Proof.
  intros meta params params' r H.
  assert (G : exists added,
             keys params' = (keys params ++ added)%list
             /\ Forall (fun k => exists q c,
                          k = q ++ "_" ++ str_nat c
                          /\ (1 <= Z.of_nat c < nspecchan meta)%Z) added).
  { destruct (sharedp meta) eqn:Hsh.
    - destruct (Z.le_gt_cases (nspecchan meta) 0) as [Hn|Hn].
      + rewrite (make_longparamlist_needs_channel meta params Hsh Hn) in H.
        discriminate.
      + rewrite (make_longparamlist_closed meta params
                   (Z.to_nat (nspecchan meta))) in H;
          [|rewrite (effective_shared meta Hsh); lia | lia].
        injection H as <- _.
        destruct (grows_final (Z.to_nat (nspecchan meta)) (keys params) params)
          as (added & E & F).
        exists added. split; [exact E|].
        eapply Forall_impl; [|exact F].
        intros k (q & c & -> & Hc). exists q, (c + 1)%nat.
        split; [reflexivity | lia].
    - rewrite (make_longparamlist_closed meta params 1) in H;
        [|unfold effective_nspecchan; now rewrite Hsh | lia].
      injection H as <- _. rewrite final_one_channel.
      exists []. split; [now rewrite app_nil_r | constructor]. }
  destruct G as (added & E & F). exists added.
  split; [exact E|]. split; [exact F|].
  intros k Hk. apply dict_get_keys. rewrite E. apply in_or_app. now left.
Qed.

Lemma make_longparamlist_only_adds_witness :
  exists params' r,
    make_longparamlist (meta_of true 3) params_one_free = Ok (params', r)
    /\ keys params' = ["rp"; "per"; "limb_dark"; "rp_1"; "rp_2"].
Proof.
  assert (E : exists params' r,
             make_longparamlist (meta_of true 3) params_one_free
             = Ok (params', r)
             /\ keys params' = ["rp"; "per"; "limb_dark"; "rp_1"; "rp_2"])
    by (eexists _, _; split; vm_compute; reflexivity).
  destruct E as (params' & r & E & K).
  destruct (make_longparamlist_only_adds _ _ _ _ E) as (added & _).
  exists params', r. split; [exact E | exact K].
Defined.

Lemma lacks_uint (d : Decimal.uint) :
  lacks "_" (NilEmpty.string_of_uint d) = true.
Proof. induction d; simpl; auto. Qed.

Lemma str_int_lacks_underscore (z : Z) : lacks "_" (str_int z) = true.
Proof.
  unfold str_int. destruct (Z.to_int z) as [d|d]; simpl; apply lacks_uint.
Qed.

Lemma lacks_app_absurd (a : ascii) (u v : string) :
  lacks a (u ++ String a v) = true -> False.
Proof.
  induction u as [|x u IH]; simpl; intro H.
  - rewrite Ascii.eqb_refl in H. discriminate.
  - apply andb_prop in H. destruct H as [_ H]. auto.
Qed.

(** The part before the last underscore is determined. *)
Lemma last_underscore_unique (p q d d' : string) :
  lacks "_" d = true -> lacks "_" d' = true ->
  p ++ "_" ++ d = q ++ "_" ++ d' -> p = q.
Proof.
  intros Hd Hd'. revert q. induction p as [|a p IH]; intros q H.
  - destruct q as [|b q]; [reflexivity|]. simpl in H. injection H as <- H.
    exfalso. rewrite H in Hd. now apply lacks_app_absurd in Hd.
  - destruct q as [|b q].
    + simpl in H. injection H as -> H.
      exfalso. rewrite <- H in Hd'. now apply lacks_app_absurd in Hd'.
    + simpl in H. injection H as <- H. f_equal. now apply IH.
Qed.

Lemma title_inj_name (p q : string) (c c' : nat) :
  title p c = title q c' -> p = q.
Proof.
  unfold title. apply last_underscore_unique;
    apply str_int_lacks_underscore.
Qed.

Lemma final_title_kept (n : nat) (params : Parameters) (q : string)
  (e : entry) (c : nat) :
  no_collision n params ->
  dict_get params q = Some e -> is_free e = true -> (c < n - 1)%nat ->
  forall (tlist : list string) (d : Parameters),
    declared_kept params d ->
    (forall p, In p tlist -> dict_get params p <> None) ->
    In q tlist \/ dict_get d (title q c) = Some e ->
    dict_get (final n tlist d) (title q c) = Some e.
Proof.
  intros Hnc Hq He Hc. unfold final.
  induction tlist as [|p t IH]; intros d Hk Hdecl H; simpl.
  - destruct H as [[]|H]. exact H.
  - assert (Hp : dict_get params p <> None) by (apply Hdecl; now left).
    apply IH.
    + now apply declared_kept_step.
    + intros p' Hp'. apply Hdecl. now right.
    + destruct (String.eqb_spec p q) as [->|Hne].
      * right. unfold step. rewrite (Hk q Hp), Hq, He.
        now apply dict_get_copies_title.
      * destruct H as [[H|H]|H]; [congruence | now left | right].
        unfold step. rewrite (Hk p Hp).
        destruct (dict_get params p) as [e'|]; [|exact H].
        destruct (is_free e'); [|exact H].
        rewrite dict_get_copies_other; [exact H|].
        intros c' _ E. apply title_inj_name in E. congruence.
Qed.

Lemma row_names_renamed (n c : nat) (params : Parameters) :
  no_collision n params ->
  forall (tlist : list string) (d : Parameters),
    declared_kept params d ->
    (forall q, In q tlist -> dict_get params q <> None) ->
    row_names n c tlist d
    = map (fun p => match dict_get params p with
                    | Some e => chan_name (is_free e) p c
                    | None => p
                    end) tlist.
Proof.
  intros Hnc. induction tlist as [|p t IH]; intros d Hk Hdecl;
    [reflexivity|].
  cbn [row_names map].
  assert (Hp : dict_get params p <> None) by (apply Hdecl; now left).
  rewrite (Hk p Hp).
  destruct (dict_get params p) as [e|] eqn:E; [|congruence].
  f_equal. apply IH.
  - apply declared_kept_step; auto. congruence.
  - intros q Hq. apply Hdecl. now right.
Qed.

Lemma final_declared_kept (n : nat) (params : Parameters) :
  no_collision n params ->
  forall (tlist : list string) (d : Parameters),
    declared_kept params d ->
    (forall q, In q tlist -> dict_get params q <> None) ->
    declared_kept params (final n tlist d).
Proof.
  intros Hnc. unfold final.
  induction tlist as [|p t IH]; intros d Hk Hdecl; simpl; [exact Hk|].
  apply IH.
  - apply declared_kept_step; auto. apply Hdecl. now left.
  - intros q Hq. apply Hdecl. now right.
Qed.

(** X4.  In shared mode over [N >= 1] channels, when no declared name is a
    per-channel name of a declared free parameter: the list of every
    channel [c] is the list of declared names in which each free parameter
    [p] is replaced by [p_c] (for [c >= 1]) and every other name is kept;
    in the parameter set left behind every declared name holds its
    declared entry and every [p_c] of a free [p] holds the entry of [p]. *)
Theorem make_longparamlist_renames :
  forall (meta : Meta) (params : Parameters) (N : nat),
    sharedp meta = true ->
    nspecchan meta = Z.of_nat N ->
    (1 <= N)%nat ->
    no_collision N params ->
    exists params' longparamlist paramtitles,
      make_longparamlist meta params
      = Ok (params', (longparamlist, paramtitles))
      /\ (forall c, (c < N)%nat ->
            nth_error longparamlist c
            = Some (map (renamed params c) (keys params)))
      /\ (forall k, dict_get params k <> None ->
                    dict_get params' k = dict_get params k)
      /\ (forall q e c, dict_get params q = Some e -> is_free e = true ->
                        (1 <= c < N)%nat ->
                        dict_get params' (q ++ "_" ++ str_nat c) = Some e).
Proof.
  intros meta params N Hsh HN Hpos Hnc.
  assert (K0 : declared_kept params params) by (intros k _; reflexivity).
  assert (D0 : forall q, In q (keys params) -> dict_get params q <> None)
    by (intros q Hq; now apply dict_get_keys).
  eexists _, _, _. split.
  { apply make_longparamlist_closed with (n := N); [|exact Hpos].
    now rewrite effective_shared. }
  split.
  { intros c Hc.
    rewrite (nth_error_map_seq
               (fun c => row_names N c (keys params) params)) by lia.
    rewrite (row_names_renamed N c params Hnc (keys params) params K0 D0).
    f_equal. apply map_ext. intro p. unfold renamed.
    destruct (dict_get params p) as [e|]; [|reflexivity].
    destruct c as [|c]; [now rewrite andb_false_r|].
    destruct (is_free e); simpl; [|reflexivity].
    unfold title. now rewrite Nat.add_1_r. }
  split; [apply (final_declared_kept N params Hnc _ _ K0 D0)|].
  intros q e c Hq He Hc.
  destruct c as [|c]; [lia|].
  replace (q ++ "_" ++ str_nat (S c)) with (title q c)
    by (unfold title; now rewrite Nat.add_1_r).
  apply (final_title_kept N params q e c Hnc Hq He); auto; [lia|].
  left. apply dict_get_keys. congruence.
Qed.

Lemma make_longparamlist_renames_witness :
  exists params' longparamlist paramtitles,
    make_longparamlist (meta_of true 3) params_free_shared
    = Ok (params', (longparamlist, paramtitles))
    /\ nth_error longparamlist 2 = Some ["rp_2"; "per"].
Proof.
  destruct (make_longparamlist_renames (meta_of true 3) params_free_shared 3)
    as (params' & ll & pt & E & R & _).
  - reflexivity.
  - reflexivity.
  - lia.
  - intros q e c. simpl.
    destruct (String.eqb_spec q "rp") as [->|_].
    + intros _ _ Hc.
      assert (Hc' : c = 0%nat \/ c = 1%nat) by lia.
      destruct Hc' as [->| ->]; reflexivity.
    + destruct (String.eqb q "per"); [intros [= <-]|]; discriminate.
  - exists params', ll, pt. split; [exact E|].
    rewrite (R 2%nat) by lia. reflexivity.
Defined.

End ExpanderGrowth.

(** ** Where the directories are *)

Section RootDirectory.

Import Util UtilModel MoreModel Samples.
Local Open Scope string_scope.

Lemma join_step_empty (a b : string) :
  join_step a b = "" <-> a = "" /\ b = "".
Proof.
  split.
  - intro H. destruct (String.eqb_spec a "") as [->|Ha].
    + split; [reflexivity|]. unfold join_step in H.
      destruct (startswith_sep b); [exact H|]. exact H.
    + now apply (join_step_nonempty a b) in Ha.
  - intros [-> ->]. reflexivity.
Qed.

Lemma path_join_empty (a : string) (ps : list string) :
  path_join a ps = "" <-> a = "" /\ Forall (fun b => b = "") ps.
Proof.
  unfold path_join. revert a. induction ps as [|b ps IH]; intro a; simpl.
  - split; [intro H; split; [exact H | constructor] | tauto].
  - rewrite IH, join_step_empty. split.
    + intros [[-> ->] F]. split; [reflexivity | now constructor].
    + intros [-> F]. inversion F; subst. auto.
Qed.

Lemma split_all_empty (s : string) :
  Forall (fun b => b = "") (split s) <-> only_sep s = true.
Proof.
  induction s as [|c s IH]; simpl.
  - split; [reflexivity | intros _; now constructor].
  - destruct (is_sep c); simpl.
    + rewrite <- IH. split; [intro F; now inversion F | now constructor].
    + split; [|discriminate]. intro F.
      destruct (split s); inversion F; discriminate.
Qed.

Lemma rootdir_empty_iff (a s : string) :
  path_join a (split s) = "" <-> a = "" /\ only_sep s = true.
Proof. now rewrite path_join_empty, split_all_empty. Qed.

Lemma last_char_raise (s : string) (e : exn) :
  last_char s = Raise e -> s = "" /\ e = IndexError.
Proof.
  intro H. destruct (String.eqb_spec s "") as [->|Hs].
  - simpl in H. injection H as <-. auto.
  - destruct (last_char_nonempty s Hs) as (c & E). congruence.
Qed.

Lemma components_join_step (path b : string) :
  no_sep b = true ->
  components (join_step path b) = (components path ++ components b)%list.
Proof.
  intro Hb. unfold join_step.
  assert (Sb : startswith_sep b = false).
  { destruct b as [|c b]; [reflexivity|]. simpl in *.
    apply andb_prop in Hb. destruct Hb as [Hc _].
    now destruct (is_sep c). }
  rewrite Sb.
  destruct (String.eqb_spec path "") as [->|Hp]; [reflexivity|]. simpl.
  destruct (endswith_sep path) eqn:E.
  - unfold endswith_sep in E.
    destruct (last_char path) as [c|] eqn:L; [|discriminate].
    assert (P : exists p0, path = p0 ++ "/").
    { clear - L E. revert c L E. induction path as [|a path IH];
        intros c L E; [discriminate|].
      destruct path as [|a' path].
      - simpl in L. injection L as ->. exists "".
        unfold is_sep, sep in E. apply Ascii.eqb_eq in E. now subst.
      - destruct (IH c L E) as (p0 & ->). exists (String a p0). reflexivity. }
    destruct P as (p0 & ->).
    rewrite append_assoc.
    rewrite (components_app_sep p0 b).
    replace (p0 ++ "/") with (p0 ++ "/" ++ "") by reflexivity.
    rewrite (components_app_sep p0 ""). simpl.
    now rewrite app_nil_r.
  - apply components_app_sep.
Qed.

Lemma split_pieces_no_sep (s : string) :
  Forall (fun b => no_sep b = true) (split s).
Proof.
  induction s as [|c s IH]; simpl; [repeat constructor|].
  destruct (is_sep c) eqn:E; [now constructor|].
  destruct (split s) as [|h t]; [repeat constructor; simpl; now rewrite E|].
  inversion IH; subst. constructor; [|assumption]. simpl. now rewrite E.
Qed.

Lemma components_path_join (a : string) (ps : list string) :
  Forall (fun b => no_sep b = true) ps ->
  components (path_join a ps)
  = (components a ++ filter (fun c => negb (String.eqb c "")) ps)%list.
Proof.
  unfold path_join. intro F. revert a.
  induction F as [|b ps Hb _ IH]; intro a; simpl.
  - now rewrite app_nil_r.
  - rewrite IH, (components_join_step a b Hb), <- app_assoc. f_equal.
    unfold components. rewrite (split_no_sep b Hb). simpl.
    destruct (String.eqb b ""); reflexivity.
Qed.

Lemma path_join_keeps_start (a : string) (ps : list string) :
  Forall (fun b => no_sep b = true) ps ->
  exists r, path_join a ps = a ++ r.
Proof.
  unfold path_join. intro F. revert a.
  induction F as [|b ps Hb _ IH]; intro a; simpl.
  - exists "". now rewrite append_nil_r.
  - destruct (IH (join_step a b)) as (r & ->).
    unfold join_step.
    assert (Sb : startswith_sep b = false).
    { destruct b as [|c b]; [reflexivity|]. simpl in *.
      apply andb_prop in Hb. destruct Hb as [Hc _].
      now destruct (is_sep c). }
    rewrite Sb.
    destruct (String.eqb a "" || endswith_sep a)%bool.
    + exists (b ++ r). now rewrite append_assoc.
    + exists ("/" ++ b ++ r). now rewrite !append_assoc.
Qed.

End RootDirectory.

Section PathFormula.

Import Util UtilModel MoreModel Samples.
Local Open Scope string_scope.

Lemma kw_string_folder (kw : kwargs) :
  kw <> [] -> kw_string kw = kw_folder kw ++ "_".
Proof.
  induction kw as [|kv kw IH]; [congruence|]. intros _.
  destruct kw as [|kv' kw].
  - unfold kw_string, kw_folder. simpl.
    now rewrite !append_assoc.
  - assert (IH' : kw_string (kv' :: kw) = kw_folder (kv' :: kw) ++ "_")
      by (apply IH; discriminate).
    change (kw_string (kv :: kv' :: kw))
      with (fst kv ++ str_int (snd kv) ++ "_" ++ kw_string (kv' :: kw)).
    rewrite IH'.
    change (kw_folder (kv :: kv' :: kw))
      with ((fst kv ++ str_int (snd kv)) ++ "_" ++ kw_folder (kv' :: kw)).
    now rewrite !append_assoc.
Qed.

Lemma no_sep_endswith (s : string) :
  no_sep s = true -> endswith_sep s = false.
Proof.
  unfold endswith_sep. induction s as [|c s IH]; [reflexivity|].
  simpl. intro H. apply andb_prop in H. destruct H as [Hc Hs].
  destruct s as [|c' s]; [now destruct (is_sep c)|]. now apply IH.
Qed.

Lemma kw_folder_ends (kw : kwargs) :
  kw <> [] -> kw_folder kw <> "" /\ endswith_sep (kw_folder kw) = false.
Proof.
  induction kw as [|kv kw IH]; [congruence|]. intros _.
  destruct kw as [|kv' kw].
  - unfold kw_folder. simpl. split.
    + apply append_nonempty_r, str_int_nonempty.
    + rewrite endswith_sep_app by apply str_int_nonempty.
      apply no_sep_endswith, str_int_no_sep.
  - destruct IH as [N E]; [discriminate|].
    change (kw_folder (kv :: kv' :: kw))
      with ((fst kv ++ str_int (snd kv)) ++ "_" ++ kw_folder (kv' :: kw)).
    split.
    + apply append_nonempty_r. discriminate.
    + rewrite endswith_sep_app by discriminate.
      change ("_" ++ kw_folder (kv' :: kw))
        with (String "_" (kw_folder (kv' :: kw))).
      change (String "_" (kw_folder (kv' :: kw)))
        with ("_" ++ kw_folder (kv' :: kw)).
      now rewrite endswith_sep_app.
Qed.

(** The finished path, written out. *)
Lemma finish_formula (x : string) (kw : kwargs) :
  finish (x ++ "/" ++ kw_string kw) = x ++ "/" ++ kw_tail kw.
Proof.
  destruct kw as [|kv kw].
  - unfold finish. simpl kw_string. simpl kw_tail.
    rewrite last_char_app by discriminate. cbn [append last_char].
    change (Ascii.eqb "/" "_") with false. cbv iota.
    now rewrite endswith_sep_app by discriminate.
  - assert (Hne : kv :: kw <> []) by discriminate.
    destruct (kw_folder_ends (kv :: kw) Hne) as [N E].
    rewrite (kw_string_folder _ Hne). unfold kw_tail.
    set (f := kw_folder (kv :: kw)) in *.
    unfold finish.
    assert (A : x ++ "/" ++ f ++ "_" = (x ++ "/" ++ f) ++ "_")
      by (now rewrite !append_assoc).
    rewrite A. rewrite last_char_app by discriminate. cbn [last_char].
    rewrite Ascii.eqb_refl.
    rewrite drop_last_app by discriminate. cbn [drop_last].
    rewrite append_nil_r.
    assert (B : endswith_sep (x ++ "/" ++ f) = false).
    { rewrite <- append_assoc. now rewrite endswith_sep_app. }
    rewrite B. now rewrite !append_assoc.
Qed.

(** [pathdirectory] for either way of dating the run. *)
Lemma pathdirectory_any (today : string) (meta : Meta) (stage : string)
  (run : Z) (old_datetime : option string) (kw : kwargs) (c : ascii) :
  last_char (path_join (topdir meta) (split (outputdir_raw meta))) = Ok c ->
  pathdirectory today meta stage run old_datetime kw
  = Ok (match old_datetime with
        | Some _ => meta
        | None => dated today meta
        end,
        rootdir_of meta ++ stage ++ "_"
          ++ (match old_datetime with
              | Some d => d
              | None => date_of today meta
              end)
          ++ "_" ++ eventlabel meta ++ "_run" ++ str_int run ++ "/"
          ++ kw_tail kw).
Proof.
  intro E. destruct old_datetime as [d|].
  - unfold pathdirectory. rewrite E. cbn [bind].
    rewrite (rootdir_step meta c E), fold_left_kw.
    set (x := rootdir_of meta ++ stage ++ "_" ++ d ++ "_" ++ eventlabel meta
                ++ "_run" ++ str_int run).
    assert (EQ : (rootdir_of meta ++ stage ++ "_" ++ d ++ "_"
                    ++ eventlabel meta ++ "_run" ++ str_int run ++ "/")
                 ++ kw_string kw
                 = x ++ "/" ++ kw_string kw)
      by (unfold x; now rewrite !append_assoc).
    rewrite EQ.
    destruct (finish_steps x (kw_string kw)) as (c1 & c2 & E1 & E2 & E3).
    cbv zeta in E1, E2, E3. rewrite E1. cbn [bind]. rewrite E2. cbn [bind].
    rewrite E3, finish_formula. unfold x. now rewrite !append_assoc.
  - rewrite (pathdirectory_shape today meta stage run kw c E).
    unfold run_path.
    assert (EQ : run_prefix today meta stage ++ str_int run ++ "/"
                   ++ kw_string kw
                 = (run_prefix today meta stage ++ str_int run) ++ "/"
                   ++ kw_string kw)
      by (now rewrite !append_assoc).
    rewrite EQ, finish_formula. unfold run_prefix.
    now rewrite !append_assoc.
Qed.

(** X5.  With a non-empty [topdir], [pathdirectory] returns
    [<rootdir><stage>_<date>_<eventlabel>_run<run>/], followed by
    [key1value1_key2value2/] when there are keyword arguments.  Given
    [old_datetime], the date is that one and the metadata object is left
    as it is, even without a [datetime]; otherwise the date is
    [meta.datetime], which is first set to today when it is missing. *)
Theorem pathdirectory_path :
  forall (today : string) (meta : Meta) (stage : string) (run : Z)
         (old_datetime : option string) (kw : kwargs),
    topdir meta <> "" ->
    pathdirectory today meta stage run old_datetime kw
    = Ok (match old_datetime with
          | Some _ => meta
          | None => match datetime meta with
                    | Some _ => meta
                    | None => set_datetime meta today
                    end
          end,
          rootdir_of meta ++ stage ++ "_"
            ++ (match old_datetime with
                | Some d => d
                | None => match datetime meta with
                          | Some d => d
                          | None => today
                          end
                end)
            ++ "_" ++ eventlabel meta ++ "_run" ++ str_int run ++ "/"
            ++ match kw with
               | [] => ""
               | _ => kw_folder kw ++ "/"
               end).
Proof.
  intros today meta stage run old_datetime kw Ht.
  destruct (rootdir_indexable meta Ht) as (c & E).
  apply (pathdirectory_any today meta stage run old_datetime kw c E).
Qed.

Lemma pathdirectory_path_witness :
  pathdirectory "2022-01-06" (meta_of true 3) "S4" 2 (Some "2022-01-05") ap_bg
  = Ok (meta_of true 3,
        "/home/user/data/S5/S4_2022-01-05_wasp43b_run2/ap8_bg10/").
Proof.
  rewrite (pathdirectory_path "2022-01-06" (meta_of true 3) "S4" 2
             (Some "2022-01-05") ap_bg) by discriminate.
  reflexivity.
Defined.

(** X6.  [pathdirectory] raises exactly when [topdir] is empty and
    [outputdir_raw] holds nothing but separators, and what it raises then
    is the [IndexError] of [rootdir[-1]]. *)
Theorem pathdirectory_raises_iff :
  forall (today : string) (meta : Meta) (stage : string) (run : Z)
         (old_datetime : option string) (kw : kwargs),
    ((exists e, pathdirectory today meta stage run old_datetime kw = Raise e)
     <-> topdir meta = "" /\ only_sep (outputdir_raw meta) = true)
    /\ (forall e, pathdirectory today meta stage run old_datetime kw = Raise e
                  -> e = IndexError).
Proof.
  intros today meta stage run old_datetime kw.
  destruct (last_char (path_join (topdir meta) (split (outputdir_raw meta))))
    as [c|e0] eqn:E.
  - rewrite (pathdirectory_any today meta stage run old_datetime kw c E).
    split.
    + split; [intros (e & H); discriminate|].
      intros H. apply rootdir_empty_iff in H. rewrite H in E. discriminate.
    + intros e H. discriminate.
  - destruct (last_char_raise _ _ E) as [R ->].
    assert (P : pathdirectory today meta stage run old_datetime kw
                = Raise IndexError).
    { unfold pathdirectory.
      destruct old_datetime as [d|]; [now rewrite E|].
      destruct (datetime meta); simpl; now rewrite E. }
    rewrite P. split.
    + split; [intros _; now apply rootdir_empty_iff | intros _; now eexists].
    + intros e H. now injection H.
Qed.

(** X7.  With a non-empty [topdir], the root directory under which
    [pathdirectory] places the run ends with the separator, begins with
    [topdir], and resolves to [topdir] followed by the non-empty pieces of
    [outputdir_raw]: a leading separator in [outputdir_raw] does not
    replace [topdir], and doubled or trailing separators are dropped. *)
Theorem pathdirectory_root :
  forall (today : string) (meta : Meta) (stage : string) (run : Z)
         (old_datetime : option string) (kw : kwargs),
    topdir meta <> "" ->
    exists meta' p tail r,
      pathdirectory today meta stage run old_datetime kw = Ok (meta', p)
      /\ p = rootdir_of meta ++ tail
      /\ rootdir_of meta = topdir meta ++ r
      /\ endswith_sep (rootdir_of meta) = true
      /\ norm (rootdir_of meta)
         = (startswith_sep (topdir meta),
            (components (topdir meta)
             ++ components (outputdir_raw meta))%list).
Proof.
  intros today meta stage run old_datetime kw Ht.
  rewrite (pathdirectory_path today meta stage run old_datetime kw Ht).
  destruct (path_join_keeps_start (topdir meta) (split (outputdir_raw meta))
              (split_pieces_no_sep _)) as (r0 & R0).
  assert (C : components (path_join (topdir meta)
                            (split (outputdir_raw meta)))
              = (components (topdir meta)
                 ++ components (outputdir_raw meta))%list)
    by apply components_path_join, split_pieces_no_sep.
  unfold rootdir_of.
  destruct (endswith_sep (path_join (topdir meta)
                            (split (outputdir_raw meta)))) eqn:E.
  - eexists _, _, _, r0. split; [reflexivity|]. split; [reflexivity|].
    split; [exact R0|]. split; [exact E|].
    unfold norm. fold (components (path_join (topdir meta)
                                     (split (outputdir_raw meta)))).
    rewrite C, R0. now rewrite startswith_sep_app.
  - eexists _, _, _, (r0 ++ "/"). split; [reflexivity|].
    split; [reflexivity|].
    split; [now rewrite R0, append_assoc|].
    split; [now rewrite endswith_sep_app by discriminate|].
    unfold norm.
    change (filter (fun c => negb (String.eqb c ""))
              (split (path_join (topdir meta) (split (outputdir_raw meta))
                      ++ "/")))
      with (components (path_join (topdir meta) (split (outputdir_raw meta))
                        ++ "/" ++ "")).
    rewrite components_app_sep, C. simpl. rewrite app_nil_r.
    rewrite R0, append_assoc. now rewrite startswith_sep_app.
Qed.

Lemma pathdirectory_root_witness :
  exists meta' p,
    pathdirectory "2022-01-06"
      (mkMeta true 3 [] [] false 0 "/home/user" "" "/data//S5/" "wasp43b" None)
      "S5" 1 None []
    = Ok (meta', p)
    /\ p = "/home/user/data/S5/S5_2022-01-06_wasp43b_run1/".
Proof.
  destruct (pathdirectory_root "2022-01-06"
              (mkMeta true 3 [] [] false 0 "/home/user" "" "/data//S5/"
                      "wasp43b" None) "S5" 1 None [])
    as (meta' & p & tail & r & E & _); [discriminate|].
  exists meta', p. split; [exact E|].
  vm_compute in E. now injection E.
Defined.

End PathFormula.

(** ** The outcomes of [read_s4_meta] *)

Section ReadS4Outcomes.

Import ReadS4 UtilModel MoreModel Samples.
Local Open Scope string_scope.

Lemma strip_dat (f : string) :
  drop_last (drop_last (drop_last (drop_last (f ++ ".dat")))) = f.
Proof.
  rewrite (drop_last_app f ".dat") by discriminate. cbn [drop_last].
  rewrite (drop_last_app f ".da") by discriminate. cbn [drop_last].
  rewrite (drop_last_app f ".d") by discriminate. cbn [drop_last].
  rewrite (drop_last_app f ".") by discriminate. cbn [drop_last].
  apply append_nil_r.
Qed.

(** X8.  With a non-empty [topdir], [read_s4_meta] looks in the folder
    [topdir/inputdir/].  Without any candidate it raises [AssertionError]
    and loads nothing; with one candidate [f.dat] it loads [f] and prints
    nothing; with several it prints the warning naming the last one of the
    list and loads that one.  When the folder itself holds a candidate, the
    recursive search and [sort_nicely] have no influence. *)
Theorem read_s4_meta_outcomes :
  forall (glob glob_recursive : string -> list string)
         (sort_nicely : list string -> list string)
         (loadevent : string -> result Meta) (meta : Meta),
    topdir meta <> "" ->
    let root := search_root meta in
    let direct :=
      glob (root ++ "S4_" ++ eventlabel meta ++ "*_Meta_Save.dat") in
    let files :=
      match direct with
      | [] => sort_nicely
                (glob_recursive
                   (root ++ "**/S4_" ++ eventlabel meta ++ "*_Meta_Save.dat"))
      | _ => direct
      end in
    (files = [] ->
     read_s4_meta glob glob_recursive sort_nicely loadevent meta
     = ([], Raise AssertionError))
    /\ (forall f, files = [f ++ ".dat"] ->
          read_s4_meta glob glob_recursive sort_nicely loadevent meta
          = ([], loadevent f))
    /\ (forall f, (2 <= List.length files)%nat ->
          last files "" = f ++ ".dat" ->
          read_s4_meta glob glob_recursive sort_nicely loadevent meta
          = ([WarnMultiple root (f ++ ".dat")], loadevent f))
    /\ (direct <> [] ->
        forall glob_recursive' sort_nicely',
          read_s4_meta glob glob_recursive' sort_nicely' loadevent meta
          = read_s4_meta glob glob_recursive sort_nicely loadevent meta).
Proof.
  intros glob glob_recursive sort_nicely loadevent meta Ht root direct files.
  destruct (last_char_nonempty
              (path_join (topdir meta) (split (inputdir meta)))
              (path_join_nonempty _ _ Ht)) as (c & E).
  assert (R : (if negb (Ascii.eqb c "/")
               then path_join (topdir meta) (split (inputdir meta)) ++ "/"
               else path_join (topdir meta) (split (inputdir meta)))
              = root).
  { unfold root, search_root, endswith_sep. rewrite E.
    unfold is_sep, sep. now destruct (Ascii.eqb c "/"). }
  assert (C : forall gr sn,
             let fl := match direct with
                       | [] => sn (gr (root ++ "**/S4_" ++ eventlabel meta
                                            ++ "*_Meta_Save.dat"))
                       | _ => direct
                       end in
             read_s4_meta glob gr sn loadevent meta
             = match fl with
               | [] => ([], Raise AssertionError)
               | [f] => ([], loadevent (drop_last (drop_last (drop_last
                                          (drop_last f)))))
               | _ =>
                   ([WarnMultiple root (last fl "")],
                    loadevent (drop_last (drop_last (drop_last
                                 (drop_last (last fl ""))))))
               end).
  { intros gr sn.
    pose proof (read_s4_meta_cases glob gr sn loadevent meta c E) as H.
    cbv zeta in H. rewrite R in H. exact H. }
  cbv zeta in C.
  split; [|split; [|split]].
  - intro F. rewrite C. fold files. now rewrite F.
  - intros f F. rewrite C. fold files. rewrite F. now rewrite strip_dat.
  - intros f L F. rewrite C. fold files.
    destruct files as [|a [|b rest]]; [simpl in L; lia | simpl in L; lia|].
    rewrite F. now rewrite strip_dat.
  - intros D gr sn. rewrite !C. destruct direct; [congruence | reflexivity].
Qed.

Lemma read_s4_meta_outcomes_witness :
  read_s4_meta (fun _ => ["/home/user/data/S4/S4_wasp43b_Meta_Save.dat"])
               (fun _ => []) (fun l => l) loadevent_two (meta_of true 3)
  = ([], Ok meta_newer).
Proof.
  destruct (read_s4_meta_outcomes
              (fun _ => ["/home/user/data/S4/S4_wasp43b_Meta_Save.dat"])
              (fun _ => []) (fun l => l) loadevent_two (meta_of true 3))
    as (_ & H & _); [discriminate|].
  rewrite (H "/home/user/data/S4/S4_wasp43b_Meta_Save" eq_refl).
  reflexivity.
Defined.

End ReadS4Outcomes.

(** ** [makedirectory] with a given run number, and without permission *)

Section DirectoryEdges.

Import Util UtilModel MoreModel Samples.
Local Open Scope string_scope.

Lemma create_dirs_figs (fs : FileSystem) (p : string) :
  match create_dirs fs p with
  | Ok (fs', _) => path_exists fs' (p ++ "figs") = true
  | Raise _ => True
  end.
Proof.
  unfold create_dirs.
  destruct (path_exists fs p) eqn:Ep; cbn [negb bind].
  - destruct (path_exists fs (p ++ "figs")) eqn:Ef; cbn [negb bind];
      [exact Ef|].
    pose proof (makedirs_result fs (p ++ "figs")) as M.
    destruct (makedirs fs (p ++ "figs")) as [fs2|e]; cbn [bind]; [|exact I].
    destruct M as (_ & _ & ->). apply path_exists_new.
  - pose proof (makedirs_result fs p) as M.
    destruct (makedirs fs p) as [fs1|e]; cbn [bind]; [|exact I].
    destruct M as (_ & _ & ->).
    destruct (path_exists (mkFS (norm p :: entries fs) (writable fs))
                (p ++ "figs")) eqn:Ef; cbn [negb bind]; [exact Ef|].
    pose proof (makedirs_result (mkFS (norm p :: entries fs) (writable fs))
                  (p ++ "figs")) as M2.
    destruct (makedirs (mkFS (norm p :: entries fs) (writable fs))
                (p ++ "figs")) as [fs2|e]; cbn [bind]; [|exact I].
    destruct M2 as (_ & _ & ->).
    apply (path_exists_new (mkFS (norm p :: entries fs) (writable fs))).
Qed.

Lemma create_dirs_nothing_to_do (fs : FileSystem) (p : string) :
  path_exists fs p = true -> path_exists fs (p ++ "figs") = true ->
  create_dirs fs p = Ok (fs, []).
Proof.
  intros H1 H2. unfold create_dirs. rewrite H1. cbn [negb bind].
  now rewrite H2.
Qed.

Lemma create_dirs_read_only (fs : FileSystem) (p : string) :
  writable fs = false ->
  create_dirs fs p = Raise PermissionError
  \/ (create_dirs fs p = Ok (fs, [])
      /\ path_exists fs p = true /\ path_exists fs (p ++ "figs") = true).
Proof.
  intro W. unfold create_dirs, makedirs.
  destruct (path_exists fs p) eqn:Ep; rewrite ?W; cbn [negb bind];
    [|left; reflexivity].
  destruct (path_exists fs (p ++ "figs")) eqn:Ef; rewrite ?W;
    cbn [negb bind]; [right; auto | left; reflexivity].
Qed.

(** X9.  Given a run number, [makedirectory] searches for nothing: on a
    file system where directories can be made and with a non-empty
    [topdir] it returns that number, and afterwards the run's directory and
    its [figs] folder exist.  Called again in the same way it returns the
    same number, makes no directory and leaves the file system as it is. *)
Theorem makedirectory_given_counter :
  forall (fuel fuel' : nat) (today today' : string) (meta : Meta)
         (stage : string) (counter : Z) (kw : kwargs) (fs : FileSystem),
    topdir meta <> "" ->
    writable fs = true ->
    exists fs1 created p,
      makedirectory fuel today meta stage (Some counter) kw fs
      = Some (Ok (dated today meta, fs1, counter, created))
      /\ pathdirectory today' (dated today meta) stage counter None kw
         = Ok (dated today meta, p)
      /\ path_exists fs1 p = true
      /\ path_exists fs1 (p ++ "figs") = true
      /\ makedirectory fuel' today' (dated today meta) stage (Some counter)
           kw fs1
         = Some (Ok (dated today meta, fs1, counter, [])).
Proof.
  intros fuel fuel' today today' meta stage counter kw fs Ht Hw.
  destruct (rootdir_indexable meta Ht) as (c & E).
  assert (E' : last_char (path_join (topdir (dated today meta))
                            (split (outputdir_raw (dated today meta))))
               = Ok c).
  { destruct (dated_fields today meta) as (Ft & Fo & _ & _).
    now rewrite Ft, Fo. }
  rewrite (makedirectory_shape fuel today meta stage (Some counter) kw fs c E).
  rewrite (pathdirectory_shape today' (dated today meta) stage counter kw c E').
  rewrite !dated_idem.
  assert (P : run_path today' (dated today meta) stage (str_int counter) kw
              = run_path today meta stage (str_int counter) kw)
    by (unfold run_path; now rewrite run_prefix_dated).
  rewrite P.
  pose proof (create_dirs_result fs
                (run_path today meta stage (str_int counter) kw)) as R.
  pose proof (create_dirs_figs fs
                (run_path today meta stage (str_int counter) kw)) as G.
  destruct (create_dirs fs (run_path today meta stage (str_int counter) kw))
    as [[fs1 created]|e]; [|congruence].
  destruct R as (R1 & _).
  exists fs1, created, (run_path today meta stage (str_int counter) kw).
  cbn [bind].
  split; [reflexivity|]. split; [reflexivity|].
  split; [exact R1|]. split; [exact G|].
  rewrite (makedirectory_shape fuel' today' (dated today meta) stage
             (Some counter) kw fs1 c E').
  rewrite dated_idem, P.
  now rewrite (create_dirs_nothing_to_do fs1 _ R1 G).
Qed.

Lemma makedirectory_given_counter_witness :
  exists fs1 created,
    makedirectory 0 "2022-01-05" (meta_of true 3) "S5" (Some 7%Z) ap_bg
                  empty_fs
    = Some (Ok (dated "2022-01-05" (meta_of true 3), fs1, 7%Z, created))
    /\ makedirectory 0 "2022-01-06" (dated "2022-01-05" (meta_of true 3))
                     "S5" (Some 7%Z) ap_bg fs1
       = Some (Ok (dated "2022-01-05" (meta_of true 3), fs1, 7%Z, [])).
Proof.
  destruct (makedirectory_given_counter 0 0 "2022-01-05" "2022-01-06"
              (meta_of true 3) "S5" 7%Z ap_bg empty_fs)
    as (fs1 & created & p & E1 & _ & _ & _ & E2).
  - discriminate.
  - reflexivity.
  - exists fs1, created. split; [exact E1 | exact E2].
Defined.

Lemma create_dirs_locked (fs : FileSystem) (p : string) :
  writable fs = false ->
  create_dirs fs p
  = if (path_exists fs p && path_exists fs (p ++ "figs"))%bool
    then Ok (fs, []) else Raise PermissionError.
Proof.
  intro W. unfold create_dirs, makedirs.
  destruct (path_exists fs p) eqn:Ep; rewrite ?W; cbn [negb bind andb];
    [|reflexivity].
  destruct (path_exists fs (p ++ "figs")) eqn:Ef; rewrite ?W;
    cbn [negb bind]; reflexivity.
Qed.

(** X10.  On a file system where no directory can be made, and with a
    non-empty [topdir], [makedirectory] without a run number raises
    [PermissionError]: the directory it settles on does not exist, and
    the failure of the guarded [os.makedirs] call is re-raised as
    [PermissionError].  With a run number, whose directory is the one
    [pathdirectory] names: when that directory is missing it raises
    [PermissionError] in the same way; when the directory and its [figs]
    folder both exist already it returns the number, making nothing and
    leaving the file system as it is; when only the [figs] folder is
    missing it does not return, because the second [os.makedirs] call
    has no handler and its exception, of whatever kind, leaves
    [makedirectory]. *)
Theorem makedirectory_read_only :
  forall (fuel : nat) (today : string) (meta : Meta) (stage : string)
         (kw : kwargs) (fs : FileSystem),
    topdir meta <> "" ->
    writable fs = false ->
    ((List.length (entries fs) < fuel)%nat ->
     makedirectory fuel today meta stage None kw fs
     = Some (Raise PermissionError))
    /\ (forall counter,
          exists p,
            pathdirectory today meta stage counter None kw
            = Ok (dated today meta, p)
            /\ (path_exists fs p = false ->
                makedirectory fuel today meta stage (Some counter) kw fs
                = Some (Raise PermissionError))
            /\ (path_exists fs p = true ->
                path_exists fs (p ++ "figs") = true ->
                makedirectory fuel today meta stage (Some counter) kw fs
                = Some (Ok (dated today meta, fs, counter, [])))
            /\ (path_exists fs p = true ->
                path_exists fs (p ++ "figs") = false ->
                exists e,
                  makedirectory fuel today meta stage (Some counter) kw fs
                  = Some (Raise e))).
Proof.
  intros fuel today meta stage kw fs Ht Hw.
  destruct (rootdir_indexable meta Ht) as (c & E). split.
  - intro Hf.
    rewrite (makedirectory_shape fuel today meta stage None kw fs c E).
    destruct (find_counter_total fs (run_prefix today meta stage) fuel Hf)
      as (k & Ek).
    destruct (find_counter_some _ _ _ _ _ Ek) as (_ & K2 & _).
    rewrite Ek. cbn [option_map].
    destruct (create_dirs_read_only fs
                (run_path today meta stage (str_nat k) kw) Hw)
      as [R|(_ & R & _)]; [now rewrite R|].
    destruct (run_path_shape today meta stage (str_nat k) kw) as (r & Er).
    rewrite Er in R.
    apply (path_exists_ancestor fs _ r
             (run_prefix_nonempty today meta stage (str_nat k))) in R.
    congruence.
  - intro counter.
    exists (run_path today meta stage (str_int counter) kw).
    rewrite (pathdirectory_shape today meta stage counter kw c E).
    rewrite (makedirectory_shape fuel today meta stage (Some counter) kw fs
               c E).
    rewrite (create_dirs_locked fs _ Hw).
    split; [reflexivity|]. split; [|split].
    + intros H. now rewrite H.
    + intros H1 H2. now rewrite H1, H2.
    + intros H1 H2. rewrite H1, H2. now eexists.
Qed.

Lemma makedirectory_read_only_witness :
  makedirectory 1 "2022-01-05" (meta_of true 3) "S5" None ap_bg
                (mkFS [] false)
  = Some (Raise PermissionError).
Proof.
  apply (makedirectory_read_only 1 "2022-01-05" (meta_of true 3) "S5" ap_bg
           (mkFS [] false)).
  - discriminate.
  - reflexivity.
  - simpl. lia.
Defined.

End DirectoryEdges.

(** ** [check_nans] on masks of any length, and repeated *)

Section CheckNansGeneral.

Import Util MoreModel.

Lemma set_item_spec {A} (l : list A) (i : nat) (v : A) :
  set_item l i v
  = if (i <? List.length l)%nat
    then Ok (firstn i l ++ v :: skipn (S i) l)
    else Raise IndexError.
Proof.
  revert i. induction l as [|x l IH]; intro i; [reflexivity|].
  destruct i as [|i]; [reflexivity|]. cbn [set_item]. rewrite IH.
  change (S i <? List.length (x :: l))%nat with (i <? List.length l)%nat.
  destruct (i <? List.length l)%nat; reflexivity.
Qed.

Lemma zero_where_nil (flags : list bool) : zero_where flags [] = [].
Proof. destruct flags; reflexivity. Qed.

Lemma skipn_cons_nth {A} (l : list A) (i : nat) :
  (i < List.length l)%nat ->
  exists a, skipn i l = a :: skipn (S i) l /\ firstn (S i) l = firstn i l ++ [a].
Proof.
  revert i. induction l as [|x l IH]; intros i Hi; [simpl in Hi; lia|].
  destruct i as [|i]; [exists x; split; reflexivity|].
  destruct (IH i) as (a & E1 & E2); [simpl in Hi; lia|].
  exists a. split; [exact E1|].
  change (firstn (S (S i)) (x :: l)) with (x :: firstn (S i) l).
  now rewrite E2.
Qed.

(** The assignment [mask[inan] = 0] for indices counted from [i]. *)
Lemma zero_loop (flags : list bool) :
  forall (i : nat) (arr : list Z),
    for_each (where_from i flags) (fun j m => set_item m j 0%Z) arr
    = if existsb (fun b => b) (skipn (List.length arr - i) flags)
      then Raise IndexError
      else Ok (firstn i arr ++ zero_where flags (skipn i arr)).
Proof.
  induction flags as [|b flags IH]; intros i arr.
  - simpl. rewrite skipn_nil. simpl. now rewrite firstn_skipn.
  - cbn [where_from].
    destruct (Nat.ltb_spec i (List.length arr)) as [Hlt|Hge].
    + destruct (skipn_cons_nth arr i Hlt) as (a & S1 & S2).
      replace (List.length arr - i)%nat with (S (List.length arr - S i))
        by lia.
      cbn [skipn]. rewrite S1. cbn [zero_where].
      destruct b; cbn [app for_each].
      * rewrite set_item_spec.
        destruct (Nat.ltb_spec i (List.length arr)) as [_|H]; [|lia].
        cbn [bind]. rewrite IH.
        assert (L : List.length (firstn i arr ++ 0%Z :: skipn (S i) arr)
                    = List.length arr).
        { rewrite length_app, length_firstn. cbn [List.length].
          rewrite length_skipn. lia. }
        rewrite L.
        destruct (existsb (fun b => b) (skipn (List.length arr - S i) flags));
          [reflexivity|].
        f_equal.
        assert (F : firstn (S i) (firstn i arr ++ 0%Z :: skipn (S i) arr)
                    = firstn i arr ++ [0%Z]).
        { rewrite firstn_app, length_firstn.
          replace (Nat.min i (List.length arr)) with i by lia.
          replace (S i - i)%nat with 1%nat by lia.
          rewrite firstn_all2 by (rewrite length_firstn; lia).
          reflexivity. }
        assert (K : skipn (S i) (firstn i arr ++ 0%Z :: skipn (S i) arr)
                    = skipn (S i) arr).
        { rewrite skipn_app, length_firstn.
          replace (Nat.min i (List.length arr)) with i by lia.
          replace (S i - i)%nat with 1%nat by lia.
          rewrite skipn_all2 by (rewrite length_firstn; lia).
          reflexivity. }
        rewrite F, K. now rewrite <- app_assoc.
      * rewrite IH.
        destruct (existsb (fun b => b) (skipn (List.length arr - S i) flags));
          [reflexivity|].
        f_equal. rewrite S2. now rewrite <- app_assoc.
    + replace (List.length arr - i)%nat with 0%nat by lia.
      cbn [skipn existsb].
      rewrite (skipn_all2 arr) by lia. rewrite zero_where_nil.
      destruct b; cbn [app for_each orb].
      * rewrite set_item_spec.
        destruct (Nat.ltb_spec i (List.length arr)) as [H|_]; [lia|].
        reflexivity.
      * rewrite IH.
        replace (List.length arr - S i)%nat with 0%nat by lia.
        rewrite (skipn_all2 arr) by lia. rewrite zero_where_nil.
        change (skipn 0 flags) with flags.
        destruct (existsb (fun b => b) flags); [reflexivity|].
        now rewrite !firstn_all2 by lia.
Qed.

Lemma check_nans_general (data : list float) (mask : list Z)
  (name : string) :
  snd (check_nans data mask name)
  = if existsb isnan (skipn (List.length mask) data)
    then Raise IndexError
    else Ok (data, zero_where (map isnan data) mask).
Proof.
  unfold check_nans.
  assert (X : existsb (fun b => b)
                (skipn (List.length mask) (map isnan data))
              = existsb isnan (skipn (List.length mask) data)).
  { rewrite skipn_map. generalize (skipn (List.length mask) data).
    induction l as [|x l IH]; simpl; [reflexivity | now rewrite IH]. }
  destruct (0 <? count_true (map isnan data))%nat eqn:Hc; cbn [snd].
  - unfold where_. rewrite zero_loop, Nat.sub_0_r, X.
    destruct (existsb isnan (skipn (List.length mask) data)); reflexivity.
  - assert (Hn : ~ In true (map isnan data)).
    { intro H. apply count_true_pos in H. congruence. }
    assert (E : existsb isnan (skipn (List.length mask) data) = false).
    { rewrite <- X. destruct (existsb _ _) eqn:G; [|reflexivity].
      apply existsb_exists in G. destruct G as (b & Hb & ->).
      exfalso. apply Hn.
      rewrite <- (firstn_skipn (List.length mask) (map isnan data)).
      apply in_or_app. now right. }
    rewrite E. f_equal. f_equal.
    clear - Hn. revert mask. induction data as [|x data IH]; intro mask;
      [reflexivity|].
    destruct mask as [|m mask]; [reflexivity|]. simpl in *.
    destruct (isnan x); [exfalso; apply Hn; now left|].
    f_equal. apply IH. tauto.
Qed.

Lemma zero_where_length (flags : list bool) (mask : list Z) :
  List.length (zero_where flags mask) = List.length mask.
Proof.
  revert mask. induction flags as [|b flags IH]; intros [|m mask];
    simpl; auto.
Qed.

(** X11.  For a one-dimensional data array and a one-dimensional mask, of
    any two lengths: [check_nans] raises exactly when the data array has a
    NaN at an index at or beyond the length of the mask, and what it
    raises is [IndexError].  Otherwise it returns the data array as it
    was and a mask of the input mask's length, with 0 at the NaN indices
    and the input mask's entries elsewhere, also beyond the end of the
    data array.  (With more dimensions and different shapes NumPy tests
    each axis on its own, which is not covered here.) *)
Theorem check_nans_raises_iff :
  forall (data : list float) (mask : list Z) (name : string),
    ((exists e, snd (check_nans data mask name) = Raise e)
     <-> exists i x, nth_error data i = Some x /\ isnan x = true
                     /\ (List.length mask <= i)%nat)
    /\ (forall e, snd (check_nans data mask name) = Raise e ->
                  e = IndexError)
    /\ (forall r, snd (check_nans data mask name) = Ok r ->
          r = (data, zero_where (map isnan data) mask)
          /\ List.length (snd r) = List.length mask).
Proof.
  intros data mask name. rewrite check_nans_general.
  destruct (existsb isnan (skipn (List.length mask) data)) eqn:E.
  - split; [|split].
    + split; [intros _ | intros _; now eexists].
      apply existsb_exists in E. destruct E as (x & Hx & Hn).
      apply In_nth_error in Hx. destruct Hx as (j & Hj).
      exists (List.length mask + j)%nat, x.
      rewrite nth_error_skipn in Hj. split; [exact Hj|]. split; [exact Hn|lia].
    + intros e H. now injection H.
    + intros r H. discriminate.
  - split; [|split].
    + split; [intros (e & H); discriminate|].
      intros (i & x & Hi & Hn & Hle). exfalso.
      assert (G : existsb isnan (skipn (List.length mask) data) = true).
      { apply existsb_exists. exists x. split; [|exact Hn].
        apply (nth_error_In _ (i - List.length mask)).
        rewrite nth_error_skipn.
        now replace (List.length mask + (i - List.length mask))%nat with i
          by lia. }
      congruence.
    + intros e H. discriminate.
    + intros r H. injection H as <-. split; [reflexivity|].
      apply zero_where_length.
Qed.

Lemma zero_where_comm (f g : list bool) (mask : list Z) :
  zero_where f (zero_where g mask) = zero_where g (zero_where f mask).
Proof.
  revert g mask. induction f as [|a f IH]; intros g mask.
  - destruct g; reflexivity.
  - destruct g as [|b g]; [now destruct mask|].
    destruct mask as [|m mask]; [reflexivity|]. simpl.
    rewrite IH. now destruct a, b.
Qed.

Lemma zero_where_idem (f : list bool) (mask : list Z) :
  zero_where f (zero_where f mask) = zero_where f mask.
Proof.
  revert mask. induction f as [|a f IH]; intros [|m mask]; simpl;
    try reflexivity.
  rewrite IH. now destruct a.
Qed.

(** X12.  For data arrays no longer than the mask: checking one array and
    then another on the resulting mask gives the same mask in either
    order, and checking an array again on the mask it produced changes
    nothing. *)
Theorem check_nans_composes :
  forall (data1 data2 : list float) (mask : list Z) (n1 n2 : string),
    (List.length data1 <= List.length mask)%nat ->
    (List.length data2 <= List.length mask)%nat ->
    exists m1 m2 m,
      snd (check_nans data1 mask n1) = Ok (data1, m1)
      /\ snd (check_nans data2 mask n2) = Ok (data2, m2)
      /\ snd (check_nans data2 m1 n2) = Ok (data2, m)
      /\ snd (check_nans data1 m2 n1) = Ok (data1, m)
      /\ snd (check_nans data1 m1 n1) = Ok (data1, m1).
Proof.
  intros data1 data2 mask n1 n2 H1 H2.
  exists (zero_where (map isnan data1) mask),
         (zero_where (map isnan data2) mask),
         (zero_where (map isnan data2) (zero_where (map isnan data1) mask)).
  rewrite !check_nans_general, !zero_where_length.
  rewrite (skipn_all2 data1) by lia. rewrite (skipn_all2 data2) by lia.
  simpl. repeat split.
  - now rewrite zero_where_comm.
  - now rewrite zero_where_idem.
Qed.

Lemma check_nans_composes_witness :
  exists m,
    snd (check_nans [Finite 1; NaN] [1; 1; 1]%Z "SUBERR") = Ok ([Finite 1; NaN], m)
    /\ snd (check_nans [NaN; Finite 2] m "SUBDATA")
       = Ok ([NaN; Finite 2], [0; 0; 1]%Z).
Proof.
  destruct (check_nans_composes [NaN; Finite 2] [Finite 1; NaN] [1; 1; 1]%Z
              "SUBDATA" "SUBERR") as (m1 & m2 & m & _ & E2 & _ & E4 & _).
  - simpl. lia.
  - simpl. lia.
  - exists m2. split; [exact E2|]. rewrite E4. f_equal. f_equal.
    vm_compute in E2. injection E2 as <-.
    vm_compute in E4. now injection E4.
Defined.

End CheckNansGeneral.

(** ** The whole trace of [fit_channel] *)

Section FitChannelTrace.

Import FitChannel MoreModel Samples.

(** The part of [fit_channel] from the first fitter test on. *)
Local Abbreviation fitters fit_raises meta :=
  (seq_io (fit_stage fit_raises meta "lsq") (fun _ =>
   seq_io (fit_stage fit_raises meta "emcee") (fun _ =>
   seq_io (fit_stage fit_raises meta "dynesty") (fun _ =>
   seq_io (fit_stage fit_raises meta "lmfit") (fun _ =>
   seq_io (emit (Log "=========================")) (fun _ =>
   seq_io (when (Z.leb 1 (isplots_S5 meta)) (emit Plot)) (fun _ =>
   ret meta))))))).

Ltac by_stage fit_raises meta k R :=
  destruct (str_in k (fit_method meta));
  [destruct (fit_raises k) eqn:R|].

Ltac by_stages fit_raises meta R1 R2 R3 R4 :=
  unfold fit_stage, lc_fit, requested, priority; cbn [filter];
  by_stage fit_raises meta "lsq" R1;
  by_stage fit_raises meta "emcee" R2;
  by_stage fit_raises meta "dynesty" R3;
  by_stage fit_raises meta "lmfit" R4;
  destruct (1 <=? isplots_S5 meta)%Z.

Lemma fitters_models (fit_raises : string -> bool) (meta : Meta) :
  model_calls (fst (fitters fit_raises meta)) = []
  /\ forall prev, fitter_tagged prev (fst (fitters fit_raises meta)) = true.
Proof.
  by_stages fit_raises meta R1 R2 R3 R4; split; try intro prev; reflexivity.
Qed.

Lemma fitters_end (fit_raises : string -> bool) (meta : Meta) :
  let t := fst (fitters fit_raises meta) in
  t <> []
  /\ existsb is_plot t
     = ((1 <=? isplots_S5 meta)%Z
        && negb (existsb fit_raises (requested meta)))%bool
  /\ (existsb is_plot t = true -> last t NewLightCurve = Plot)
  /\ (existsb fit_raises (requested meta) = true ->
      exists k, last t NewLightCurve = Fit k /\ fit_raises k = true
                /\ In k (requested meta)).
Proof.
  cbv zeta.
  by_stages fit_raises meta R1 R2 R3 R4;
  cbn [existsb orb andb negb]; rewrite ?R1, ?R2, ?R3, ?R4;
  cbn [existsb orb andb negb];
  (split; [discriminate|]);
  (split; [reflexivity|]);
  (split; [intro H; first [reflexivity | discriminate H]|]);
  intro H;
  first [ discriminate H
        | exists "lsq"; split; [reflexivity|]; split; [assumption|];
          simpl; tauto
        | exists "emcee"; split; [reflexivity|]; split; [assumption|];
          simpl; tauto
        | exists "dynesty"; split; [reflexivity|]; split; [assumption|];
          simpl; tauto
        | exists "lmfit"; split; [reflexivity|]; split; [assumption|];
          simpl; tauto ].
Qed.

Lemma models_first_none (tr : list event) :
  model_calls tr = [] -> forall started, models_first started tr = true.
Proof.
  induction tr as [|ev tr IH]; intros H started; [reflexivity|].
  destruct ev; simpl in *; try discriminate; auto.
Qed.

Lemma last_cons_ne {A} (x : A) (t : list A) (d : A) :
  t <> [] -> last (x :: t) d = last t d.
Proof. destruct t; [congruence | reflexivity]. Qed.

(** X13.  In every run of [fit_channel], whatever the settings and whichever
    backends raise: the models constructed are the fake ramp when
    [testing_S5] is set, then those of [transit], [polynomial], [expramp]
    that [run_myfuncs] names, in this order and under the names [transit],
    [polynom], [ramp]; all of them are constructed before the first fitter
    is chosen; and every call of [lc_model.fit] with a kind comes
    directly after [model.fitter] was set to that kind. *)
Theorem fit_channel_models_then_fitters :
  forall (fit_raises : string -> bool) (meta : Meta),
    let tr := fst (fit_channel fit_raises meta) in
    model_calls tr
    = ((if testing_S5 meta then ["ramp"] else [])
       ++ map snd (filter (fun p => str_in (fst p) (run_myfuncs meta))
                     [("transit", "transit"); ("polynomial", "polynom");
                      ("expramp", "ramp")]))%list
    /\ models_first false tr = true
    /\ fitter_tagged None tr = true.
Proof.
  intros fit_raises meta. cbv zeta.
  generalize (fitters_models fit_raises meta). unfold fit_channel.
  destruct (fitters fit_raises meta) as [t r]. cbn [fst].
  intros [M T]. pose proof (models_first_none t M) as F.
  unfold model_calls in *. cbn [filter fst].
  destruct (testing_S5 meta);
    destruct (str_in "transit" (run_myfuncs meta));
    destruct (str_in "polynomial" (run_myfuncs meta));
    destruct (str_in "expramp" (run_myfuncs meta));
    cbn; rewrite M, T, F; repeat split.
Qed.

(** X14.  [fit_channel] plots exactly when [isplots_S5] is at least 1 and
    no requested backend raised, and the plot is then the last thing it
    does.  When a requested backend raises, the raising [lc_model.fit]
    call is the last thing it does: no completion message, no later
    fitter and no plot follow. *)
Theorem fit_channel_plot_last :
  forall (fit_raises : string -> bool) (meta : Meta),
    let tr := fst (fit_channel fit_raises meta) in
    existsb is_plot tr
    = ((1 <=? isplots_S5 meta)%Z
       && negb (existsb fit_raises (requested meta)))%bool
    /\ (existsb is_plot tr = true -> last tr NewLightCurve = Plot)
    /\ (existsb fit_raises (requested meta) = true ->
        exists k, last tr NewLightCurve = Fit k /\ fit_raises k = true
                  /\ In k (requested meta)).
Proof.
  intros fit_raises meta. cbv zeta.
  generalize (fitters_end fit_raises meta). cbv zeta. unfold fit_channel.
  destruct (fitters fit_raises meta) as [t r]. cbn [fst].
  intros (N & P & L & R).
  destruct (testing_S5 meta);
    destruct (str_in "transit" (run_myfuncs meta));
    destruct (str_in "polynomial" (run_myfuncs meta));
    destruct (str_in "expramp" (run_myfuncs meta));
    cbn [seq_io emit when ret fst snd app existsb is_plot orb];
    rewrite !last_cons_ne by (exact N || discriminate);
    auto.
Qed.

Lemma fit_channel_plot_last_witness :
  last (fst (fit_channel (fun k => String.eqb k "emcee") (meta_of true 3)))
       NewLightCurve = Fit "emcee".
Proof.
  destruct (fit_channel_plot_last (fun k => String.eqb k "emcee")
              (meta_of true 3)) as (_ & _ & H).
  destruct H as (k & Hk & Hr & _); [reflexivity|].
  apply String.eqb_eq in Hr. now rewrite Hk, Hr.
Defined.

End FitChannelTrace.

(** ** The flux arrays of [fitJWST] at the edges and per channel *)

Section FlattenEdges.

Import Flatten FitJWST.

Context {F : Type} (fdiv : F -> F -> F) (fmean : list F -> F).

Lemma for_each_app {A S} (xs ys : list A) (body : A -> S -> result S)
  (s : S) :
  for_each (xs ++ ys) body s = bind (for_each xs body s) (for_each ys body).
Proof.
  revert s. induction xs as [|x xs IH]; intro s; [reflexivity|].
  cbn [app for_each]. destruct (body x s) as [s'|e]; [apply IH|reflexivity].
Qed.

Lemma flatten_shared_prefix (n : nat) (lcdata lcerr : list (list F)) :
  (n <= List.length lcdata)%nat -> (n <= List.length lcerr)%nat ->
  flatten_shared fdiv fmean (Z.of_nat n) lcdata lcerr
  = Ok (List.concat (map (fun r => normalize_by fdiv fmean r r)
                         (firstn n lcdata)),
        List.concat (map (fun re => normalize_by fdiv fmean (fst re) (snd re))
                         (combine (firstn n lcdata) (firstn n lcerr)))).
Proof.
  intros Hd He. unfold flatten_shared, range. rewrite Nat2Z.id.
  now rewrite flatten_loop by lia.
Qed.

Lemma flatten_shared_short (n : nat) (lcdata lcerr : list (list F)) :
  (List.length lcdata < n)%nat \/ (List.length lcerr < n)%nat ->
  flatten_shared fdiv fmean (Z.of_nat n) lcdata lcerr = Raise IndexError.
Proof.
  intro H. unfold flatten_shared, range. rewrite Nat2Z.id.
  set (j := Nat.min (List.length lcdata) (List.length lcerr)).
  replace n with (j + S (n - S j))%nat by lia.
  rewrite seq_app, for_each_app, flatten_loop by lia.
  cbn [bind Nat.add seq for_each]. unfold index at 1 2.
  destruct (nth_error lcdata j) as [row|] eqn:Ed; [|reflexivity].
  cbn [bind].
  destruct (nth_error lcerr j) as [erow|] eqn:Ee; [|reflexivity].
  exfalso.
  assert (j < List.length lcdata)%nat
    by (apply nth_error_Some; congruence).
  assert (j < List.length lcerr)%nat
    by (apply nth_error_Some; congruence).
  lia.
Qed.

End FlattenEdges.

Section FlattenEdgeClaims.

Import Flatten FitJWST.

(** X15.  The shared-mode flattening for any [nspecchan] and any numbers of
    rows: with [nspecchan <= 0] both arrays come back empty; when both
    [lcdata] and [lcerr] have at least [nspecchan] rows, the result is
    built from their first [nspecchan] rows only, each divided by the
    mean of the [lcdata] row, and further rows are ignored; when either
    has fewer rows, [IndexError] is raised. *)
Theorem flatten_shared_outcomes :
  forall (F : Type) (fdiv : F -> F -> F) (fmean : list F -> F)
         (nspecchan : Z) (lcdata lcerr : list (list F)),
    ((nspecchan <= 0)%Z ->
     flatten_shared fdiv fmean nspecchan lcdata lcerr = Ok ([], []))
    /\ ((Z.to_nat nspecchan <= List.length lcdata)%nat ->
        (Z.to_nat nspecchan <= List.length lcerr)%nat ->
        flatten_shared fdiv fmean nspecchan lcdata lcerr
        = Ok (List.concat
                (map (fun row => map (fun x => fdiv x (fmean row)) row)
                     (firstn (Z.to_nat nspecchan) lcdata)),
              List.concat
                (map (fun re => map (fun x => fdiv x (fmean (fst re)))
                                    (snd re))
                     (combine (firstn (Z.to_nat nspecchan) lcdata)
                              (firstn (Z.to_nat nspecchan) lcerr)))))
    /\ ((List.length lcdata < Z.to_nat nspecchan)%nat
        \/ (List.length lcerr < Z.to_nat nspecchan)%nat ->
        flatten_shared fdiv fmean nspecchan lcdata lcerr = Raise IndexError).
Proof.
  intros F fdiv fmean nspecchan lcdata lcerr.
  assert (E : flatten_shared fdiv fmean nspecchan lcdata lcerr
              = flatten_shared fdiv fmean (Z.of_nat (Z.to_nat nspecchan))
                  lcdata lcerr).
  { unfold flatten_shared, range. now rewrite Nat2Z.id. }
  split; [|split].
  - intro H. unfold flatten_shared, range.
    replace (Z.to_nat nspecchan) with 0%nat by lia. reflexivity.
  - intros Hd He. rewrite E. now apply flatten_shared_prefix.
  - intro H. rewrite E. now apply flatten_shared_short.
Qed.

Lemma flatten_shared_outcomes_witness :
  flatten_shared Qdiv Qmean 3 [[1%Q]; [2%Q]] [[1%Q]; [2%Q]; [3%Q]]
  = Raise IndexError.
Proof.
  apply (proj2 (proj2 (flatten_shared_outcomes Q Qdiv Qmean 3
                         [[1%Q]; [2%Q]] [[1%Q]; [2%Q]; [3%Q]]))).
  left. simpl. lia.
Defined.

(** X16.  For [N] channels of [L] samples each: what the per-channel loop
    of [fitJWST] passes to [fit_channel] for channel [c] is the [c]-th
    block of [L] samples of what the shared-mode flattening builds, for
    the flux and for the uncertainties; so a shared fit sees the
    per-channel arrays laid end to end.  A channel index from [N] on
    raises [IndexError]. *)
Theorem normalize_channel_is_block :
  forall (F : Type) (fdiv : F -> F -> F) (fmean : list F -> F)
         (N L : nat) (lcdata lcerr : list (list F)),
    List.length lcdata = N ->
    List.length lcerr = N ->
    Forall (fun r => List.length r = L) lcdata ->
    Forall (fun r => List.length r = L) lcerr ->
    exists flux flux_err,
      flatten_shared fdiv fmean (Z.of_nat N) lcdata lcerr
      = Ok (flux, flux_err)
      /\ (forall channel, (channel < N)%nat ->
            normalize_channel fdiv fmean lcdata lcerr channel
            = Ok (block L channel flux, block L channel flux_err))
      /\ (forall channel, (N <= channel)%nat ->
            normalize_channel fdiv fmean lcdata lcerr channel
            = Raise IndexError).
Proof.
  intros F fdiv fmean N L lcdata lcerr Hd He Fd Fe.
  eexists _, _. split; [now apply flatten_shared_closed|].
  split.
  - intros c Hc.
    destruct (nth_error lcdata c) as [row|] eqn:Er;
      [|apply nth_error_None in Er; lia].
    destruct (nth_error lcerr c) as [erow|] eqn:Ee;
      [|apply nth_error_None in Ee; lia].
    unfold normalize_channel, index. rewrite Er, Ee. cbn [bind].
    f_equal. f_equal.
    + symmetry. apply (block_of_concat L _ c).
      * apply Forall_map. eapply Forall_impl; [|exact Fd].
        intros r Hr. unfold normalize_by. now rewrite length_map.
      * rewrite nth_error_map, Er. reflexivity.
    + symmetry. apply (block_of_concat L _ c).
      * apply Forall_map.
        eapply Forall_impl; [|apply (Forall_combine_snd _ lcdata lcerr Fe)].
        intros re Hr. unfold normalize_by. now rewrite length_map.
      * rewrite nth_error_map,
          (nth_error_combine_some lcdata lcerr c row erow Er Ee).
        reflexivity.
  - intros c Hc. unfold normalize_channel, index.
    assert (G : nth_error lcdata c = None) by (apply nth_error_None; lia).
    now rewrite G.
Qed.

Lemma normalize_channel_is_block_witness :
  exists flux flux_err,
    flatten_shared Qdiv Qmean 2 [[1; 3]; [2; 2]]%Q [[1; 1]; [1; 1]]%Q
    = Ok (flux, flux_err)
    /\ normalize_channel Qdiv Qmean [[1; 3]; [2; 2]]%Q [[1; 1]; [1; 1]]%Q 1
       = Ok (block 2 1 flux, block 2 1 flux_err).
Proof.
  destruct (normalize_channel_is_block Q Qdiv Qmean 2 2 [[1; 3]; [2; 2]]%Q
              [[1; 1]; [1; 1]]%Q) as (flux & flux_err & E & B & _).
  - reflexivity.
  - reflexivity.
  - repeat constructor.
  - repeat constructor.
  - exists flux, flux_err. split; [exact E|]. apply B. lia.
Defined.

End FlattenEdgeClaims.

(** ** The directory loops of [fitJWST] *)

Section RunsLoop.

Import Util UtilModel FitJWST MoreModel Samples.
Local Open Scope string_scope.

Lemma makedirectory_step (fuel : nat) (today : string) (meta : Meta)
  (stage : string) (kw : kwargs) (fs : FileSystem) :
  topdir meta <> "" -> writable fs = true ->
  (List.length (entries fs) < fuel)%nat ->
  exists (k : nat) (fs' : FileSystem) (created : list string),
    makedirectory fuel today meta stage None kw fs
    = Some (Ok (dated today meta, fs', Z.of_nat k, created))
    /\ (1 <= k)%nat
    /\ path_exists fs (run_prefix today meta stage ++ str_nat k) = false
    /\ path_exists fs' (run_prefix today meta stage ++ str_nat k) = true
    /\ path_exists fs (run_path today meta stage (str_nat k) kw) = false
    /\ path_exists fs' (run_path today meta stage (str_nat k) kw) = true
    /\ (forall q, path_exists fs q = true -> path_exists fs' q = true)
    /\ writable fs' = true
    /\ (List.length (entries fs') <= List.length (entries fs) + 2)%nat.
Proof.
  intros Ht Hw Hf.
  destruct (rootdir_indexable meta Ht) as (c & E).
  destruct (find_counter_total fs (run_prefix today meta stage) fuel Hf)
    as (k & Ek).
  destruct (find_counter_some _ _ _ _ _ Ek) as (K1 & K2 & _).
  rewrite (makedirectory_shape fuel today meta stage None kw fs c E), Ek.
  cbn [option_map].
  pose proof (create_dirs_result fs (run_path today meta stage (str_nat k) kw))
    as R.
  destruct (create_dirs fs (run_path today meta stage (str_nat k) kw))
    as [[fs' created]|e]; [|congruence].
  destruct R as (R1 & R2 & R3 & _ & _ & R6).
  destruct (run_path_shape today meta stage (str_nat k) kw) as (r & Er).
  pose proof (run_prefix_nonempty today meta stage (str_nat k)) as Hne.
  exists k, fs', created. cbn [bind].
  split; [reflexivity|]. split; [exact K1|]. split; [exact K2|].
  split.
  { apply (path_exists_ancestor fs' _ r Hne). now rewrite <- Er. }
  split.
  { destruct (path_exists fs (run_path today meta stage (str_nat k) kw))
      eqn:Ep; [|reflexivity].
    rewrite Er in Ep. apply (path_exists_ancestor fs _ r Hne) in Ep.
    congruence. }
  split; [exact R1|]. split; [exact R2|]. split; [congruence | exact R6].
Qed.

Lemma make_runs_pairs_app (fuel : nat) (today : string)
  (p1 p2 : list (Z * Z)) (st : runs_state) :
  make_runs_pairs fuel today (p1 ++ p2) st
  = match make_runs_pairs fuel today p1 st with
    | None => None
    | Some (Raise e) => Some (Raise e)
    | Some (Ok st') => make_runs_pairs fuel today p2 st'
    end.
Proof.
  revert st. induction p1 as [|[a b] p1 IH]; intro st; [reflexivity|].
  destruct st as [[meta fs] runs]. cbn [app make_runs_pairs].
  destruct (makedirectory fuel today meta "S5" None _ fs)
    as [[[[[meta' fs'] run] made]|e]|]; [apply IH | reflexivity ..].
Qed.

Lemma make_runs_bg_pairs (fuel : nat) (today : string) (spec_hw_val : Z)
  (bg_hw_range : list Z) (st : runs_state) :
  make_runs_bg fuel today spec_hw_val bg_hw_range st
  = make_runs_pairs fuel today (map (pair spec_hw_val) bg_hw_range) st.
Proof.
  revert st. induction bg_hw_range as [|b bgs IH]; intro st; [reflexivity|].
  destruct st as [[meta fs] runs]. cbn [map make_runs_bg make_runs_pairs].
  destruct (makedirectory fuel today meta "S5" None _ fs)
    as [[[[[meta' fs'] run] made]|e]|]; [apply IH | reflexivity ..].
Qed.

(** The nested loops visit the pairs in the order of [list_prod]. *)
Lemma make_runs_spec_pairs (fuel : nat) (today : string)
  (spec_hw_range bg_hw_range : list Z) (st : runs_state) :
  make_runs_spec fuel today spec_hw_range bg_hw_range st
  = make_runs_pairs fuel today (list_prod spec_hw_range bg_hw_range) st.
Proof.
  revert st. induction spec_hw_range as [|a specs IH]; intro st;
    [reflexivity|].
  cbn [make_runs_spec list_prod].
  rewrite make_runs_pairs_app, make_runs_bg_pairs.
  destruct (make_runs_pairs fuel today (map (pair a) bg_hw_range) st)
    as [[st'|e]|]; [apply IH | reflexivity ..].
Qed.

Lemma run_path_dated (today today' : string) (meta : Meta)
  (stage ks : string) (kw : kwargs) :
  run_path today' (dated today meta) stage ks kw
  = run_path today meta stage ks kw.
Proof. unfold run_path. now rewrite run_prefix_dated. Qed.

Lemma make_runs_pairs_loop (fuel : nat) (today : string)
  (pairs : list (Z * Z)) :
  forall (meta : Meta) (fs : FileSystem) (acc : list Z) (bound : nat),
    topdir meta <> "" -> writable fs = true ->
    (List.length (entries fs) + 2 * List.length pairs < fuel)%nat ->
    (forall j, (1 <= j <= bound)%nat ->
       path_exists fs (run_prefix today meta "S5" ++ str_nat j) = true) ->
    exists (fs' : FileSystem) (new : list nat),
      make_runs_pairs fuel today pairs (meta, fs, acc)
      = Some (Ok (match pairs with
                  | [] => meta
                  | _ :: _ => dated today meta
                  end, fs', (acc ++ map Z.of_nat new)%list))
      /\ StronglySorted lt new
      /\ Forall (fun r => (bound < r)%nat) new
      /\ (forall q, path_exists fs q = true -> path_exists fs' q = true)
      /\ Forall2 (fun (pr : Z * Z) (r : nat) =>
                    let p := run_path today meta "S5" (str_nat r)
                               [("ap", fst pr); ("bg", snd pr)] in
                    path_exists fs' p = true /\ path_exists fs p = false)
                 pairs new.
Proof.
  induction pairs as [|[ap bg] pairs IH]; intros meta fs acc bound Ht Hw Hf Hb.
  - exists fs, []. cbn [make_runs_pairs map]. rewrite app_nil_r.
    repeat split; auto; constructor.
  - cbn [List.length] in Hf.
    destruct (makedirectory_step fuel today meta "S5"
                [("ap", ap); ("bg", bg)] fs Ht Hw)
      as (k & fs1 & created & E & K1 & K2 & K3 & K4 & K5 & K6 & K7 & K8);
      [lia|].
    assert (Hk : (bound < k)%nat).
    { destruct (Nat.lt_ge_cases bound k) as [H|H]; [exact H|].
      rewrite Hb in K2 by lia. discriminate. }
    assert (Ht1 : topdir (dated today meta) <> "")
      by (now rewrite (proj1 (dated_fields today meta))).
    destruct (IH (dated today meta) fs1 (acc ++ [Z.of_nat k])%list k Ht1 K7)
      as (fs' & new & E' & S' & B' & M' & P'); [lia| |].
    { intros j Hj. rewrite run_prefix_dated.
      destruct (Nat.eq_dec j k) as [->|Hne]; [exact K3|].
      apply K6.
      destruct (find_counter_total fs (run_prefix today meta "S5") fuel)
        as (k0 & Ek0); [lia|].
      pose proof E as E0.
      destruct (rootdir_indexable meta Ht) as (c & Ec).
      rewrite (makedirectory_shape fuel today meta "S5" None _ fs c Ec), Ek0
        in E0.
      cbn [option_map] in E0.
      destruct (create_dirs fs _) as [[fs0 made0]|e0];
        cbn [bind] in E0; [|discriminate].
      injection E0 as _ Ek _. apply Nat2Z.inj in Ek. subst k0.
      destruct (find_counter_some _ _ _ _ _ Ek0) as (_ & _ & G).
      apply G. lia. }
    exists fs', (k :: new).
    cbn [make_runs_pairs]. rewrite E, E'.
    split.
    { f_equal. f_equal. f_equal.
      - rewrite dated_idem. now destruct pairs.
      - cbn [map]. now rewrite <- app_assoc. }
    split.
    { constructor; [exact S'|].
      eapply Forall_impl; [|exact B']. intros r Hr. exact Hr. }
    split.
    { constructor; [exact Hk|].
      eapply Forall_impl; [|exact B']. intros r Hr. cbv beta in Hr. lia. }
    split; [intros q Hq; apply M', K6, Hq|].
    constructor.
    + cbn [fst snd]. split; [apply M', K5 | exact K4].
    + eapply Forall2_impl; [|exact P'].
      intros [a b] r. cbv beta zeta. rewrite run_path_dated. intros [P1 P2].
      split; [exact P1|].
      match goal with
      | |- ?x = false => destruct x eqn:Eq; [|reflexivity]
      end.
      apply K6 in Eq. congruence.
Qed.

Lemma run_path_fields (today today' : string) (m meta : Meta)
  (stage ks : string) (kw : kwargs) :
  topdir m = topdir meta -> outputdir_raw m = outputdir_raw meta ->
  eventlabel m = eventlabel meta ->
  datetime m = Some (date_of today meta) ->
  run_path today' m stage ks kw = run_path today meta stage ks kw.
Proof.
  intros Ft Fo Fe Fd.
  unfold run_path, run_prefix, rootdir_of. rewrite Ft, Fo, Fe.
  unfold date_of at 1. now rewrite Fd.
Qed.

(** X17.  The loops that create the Stage 5 directories, on a file system
    where directories can be made and with an output root set: they
    return with one run number per [(spec_hw_val, bg_hw_val)] pair, in
    the order the pairs are visited; the run numbers are at least 1 and
    strictly increasing, so no two pairs share a run folder; nothing that
    existed is removed.  For the [i]-th pair and the [i]-th run number,
    [pathdirectory] on any metadata object with the same [topdir],
    [outputdir_raw], [eventlabel] and [datetime], on any day, gives a
    directory that exists now and did not exist before the loops. *)
Theorem make_runs_directories :
  forall (fuel : nat) (today : string) (meta : Meta)
         (spec_hw_range bg_hw_range : list Z) (fs : FileSystem),
    topdir meta <> "" ->
    writable fs = true ->
    (List.length (entries fs)
     + 2 * (List.length spec_hw_range * List.length bg_hw_range)
     < fuel)%nat ->
    exists (meta' : Meta) (fs' : FileSystem) (runs_s5 : list Z),
      make_runs fuel today meta spec_hw_range bg_hw_range fs
      = Some (Ok (meta', fs', runs_s5))
      /\ List.length runs_s5
         = (List.length spec_hw_range * List.length bg_hw_range)%nat
      /\ StronglySorted Z.lt runs_s5
      /\ Forall (fun r => (1 <= r)%Z) runs_s5
      /\ (forall q, path_exists fs q = true -> path_exists fs' q = true)
      /\ (forall (i : nat) (ap bg run : Z),
            nth_error (list_prod spec_hw_range bg_hw_range) i
            = Some (ap, bg) ->
            nth_error runs_s5 i = Some run ->
            forall (today' : string) (m : Meta),
              topdir m = topdir meta' ->
              outputdir_raw m = outputdir_raw meta' ->
              eventlabel m = eventlabel meta' ->
              datetime m = datetime meta' ->
              exists p,
                pathdirectory today' m "S5" run None [("ap", ap); ("bg", bg)]
                = Ok (m, p)
                /\ path_exists fs' p = true
                /\ path_exists fs p = false).
Proof.
  intros fuel today meta specs bgs fs Ht Hw Hf.
  unfold make_runs. rewrite make_runs_spec_pairs.
  rewrite <- length_prod in Hf.
  destruct (make_runs_pairs_loop fuel today (list_prod specs bgs) meta fs []
              0%nat Ht Hw Hf)
    as (fs' & new & E & S & B & M & P); [intros j Hj; lia|].
  cbn [app] in E. rewrite E.
  eexists _, fs', (map Z.of_nat new). split; [reflexivity|].
  split.
  { rewrite length_map, <- (Forall2_length P). apply length_prod. }
  split.
  { clear - S. induction S as [|r new S IH F]; cbn [map]; constructor;
      [exact IH|].
    apply Forall_map. eapply Forall_impl; [|exact F].
    intros x Hx. cbv beta. lia. }
  split.
  { apply Forall_map. eapply Forall_impl; [|exact B].
    intros x Hx. cbv beta in *. lia. }
  split; [exact M|].
  intros i ap bg run Hi Hr today' m Ft Fo Fe Fd.
  rewrite nth_error_map in Hr.
  destruct (nth_error new i) as [k|] eqn:Ek; [|discriminate].
  injection Hr as <-.
  assert (Q : path_exists fs'
                (run_path today meta "S5" (str_nat k) [("ap", ap); ("bg", bg)])
              = true
              /\ path_exists fs
                   (run_path today meta "S5" (str_nat k)
                      [("ap", ap); ("bg", bg)]) = false).
  { clear - P Hi Ek. revert i Hi Ek.
    induction P as [|pr r pairs new H P IH]; intros i Hi Ek;
      [destruct i; discriminate|].
    destruct i as [|i]; cbn [nth_error] in Hi, Ek.
    - injection Hi as ->. injection Ek as ->. exact H.
    - exact (IH i Hi Ek). }
  destruct (list_prod specs bgs) as [|pr0 prs] eqn:Epr;
    [destruct i; discriminate|].
  destruct (dated_fields today meta) as (Dt & Do & De & Dd).
  rewrite Dt in Ft. rewrite Do in Fo. rewrite De in Fe. rewrite Dd in Fd.
  assert (Htm : topdir m <> "") by (now rewrite Ft).
  destruct (rootdir_indexable m Htm) as (c & Ec).
  exists (run_path today meta "S5" (str_nat k) [("ap", ap); ("bg", bg)]).
  split; [|exact Q].
  rewrite (pathdirectory_shape today' m "S5" (Z.of_nat k) _ c Ec).
  f_equal. f_equal.
  - unfold dated. now rewrite Fd.
  - change (str_int (Z.of_nat k)) with (str_nat k).
    now apply run_path_fields.
Qed.

Lemma make_runs_directories_witness :
  exists meta' fs',
    make_runs 10 "2022-01-06" (meta_of true 3) [8; 9]%Z [10]%Z empty_fs
    = Some (Ok (meta', fs', [1; 2]%Z)).
Proof.
  destruct (make_runs_directories 10 "2022-01-06" (meta_of true 3)
              [8; 9]%Z [10]%Z empty_fs)
    as (meta' & fs' & runs & E & _).
  - discriminate.
  - reflexivity.
  - simpl. lia.
  - exists meta', fs'. rewrite E. f_equal. f_equal. f_equal.
    vm_compute in E. now injection E.
Defined.

End RunsLoop.

(** ** [trim]: the window and the recorded sizes *)

Section TrimFacts.

Import Trim.

Lemma clip_le (i : Z) (n : nat) : (clip i n <= n)%nat.
Proof. unfold clip. destruct (i <? 0)%Z eqn:E; lia. Qed.

Lemma clip_nat (a n : nat) : clip (Z.of_nat a) n = Nat.min a n.
Proof.
  unfold clip. destruct (Z.of_nat a <? 0)%Z eqn:E; [lia|]. lia.
Qed.

Lemma slice_length {A} (a b : Z) (l : list A) :
  List.length (slice a b l)
  = (clip b (List.length l) - clip a (List.length l))%nat.
Proof.
  unfold slice. rewrite length_firstn, length_skipn.
  pose proof (clip_le b (List.length l)). lia.
Qed.

Lemma slice_nth {A} (a b : nat) (l : list A) (i : nat) :
  (a <= b <= List.length l)%nat -> (i < b - a)%nat ->
  nth_error (slice (Z.of_nat a) (Z.of_nat b) l) i = nth_error l (a + i).
Proof.
  intros H Hi. unfold slice. rewrite !clip_nat.
  replace (Nat.min a (List.length l)) with a by lia.
  replace (Nat.min b (List.length l)) with b by lia.
  rewrite nth_error_firstn.
  destruct (Nat.ltb_spec i (b - a)) as [_|G]; [|lia].
  apply nth_error_skipn.
Qed.

Lemma slice_incl {A} (a b : Z) (l : list A) (x : A) :
  In x (slice a b l) -> In x l.
Proof.
  unfold slice. intro H.
  rewrite <- (firstn_skipn (clip a (List.length l)) l).
  apply in_or_app. right.
  rewrite <- (firstn_skipn (clip b (List.length l) - clip a (List.length l))
                (skipn (clip a (List.length l)) l)).
  apply in_or_app. now left.
Qed.

Lemma crop2_shape {A} (y0 y1 x0 x1 : Z) (ny nx : nat)
  (img : list (list A)) :
  shape2 ny nx img ->
  shape2 (clip y1 ny - clip y0 ny) (clip x1 nx - clip x0 nx)
         (crop2 y0 y1 x0 x1 img).
Proof.
  intros [L R]. unfold crop2, shape2. rewrite length_map, slice_length, L.
  split; [reflexivity|].
  apply Forall_map. apply Forall_forall. intros row Hrow.
  apply slice_incl in Hrow. rewrite Forall_forall in R.
  now rewrite slice_length, (R row Hrow).
Qed.

Lemma crop3_shape {A} (y0 y1 x0 x1 : Z) (ny nx : nat)
  (cube : list (list (list A))) :
  shape3 ny nx cube ->
  shape3 (clip y1 ny - clip y0 ny) (clip x1 nx - clip x0 nx)
         (crop3 y0 y1 x0 x1 cube).
Proof.
  unfold shape3, crop3. intro H. apply Forall_map.
  eapply Forall_impl; [|exact H]. intros img. apply crop2_shape.
Qed.

Lemma crop2_window {A} (y0 y1 x0 x1 ny nx : nat) (img : list (list A)) :
  (y0 <= y1 <= ny)%nat -> (x0 <= x1 <= nx)%nat ->
  shape2 ny nx img ->
  window2 y0 x0 (y1 - y0) (x1 - x0) img
          (crop2 (Z.of_nat y0) (Z.of_nat y1) (Z.of_nat x0) (Z.of_nat x1) img).
Proof.
  intros Hy Hx S. pose proof (crop2_shape (Z.of_nat y0) (Z.of_nat y1)
                                (Z.of_nat x0) (Z.of_nat x1) ny nx img S) as C.
  rewrite !clip_nat in C.
  replace (Nat.min y1 ny - Nat.min y0 ny)%nat with (y1 - y0)%nat in C by lia.
  replace (Nat.min x1 nx - Nat.min x0 nx)%nat with (x1 - x0)%nat in C by lia.
  split; [exact C|].
  intros i j Hi Hj. destruct S as [L R]. rewrite Forall_forall in R.
  unfold at2, crop2. rewrite nth_error_map, slice_nth by lia.
  destruct (nth_error img (y0 + i)) as [row|] eqn:Er;
    [|apply nth_error_None in Er; lia].
  cbn [option_map].
  assert (Lr : List.length row = nx) by (apply R; eapply nth_error_In; eauto).
  rewrite slice_nth by lia. split; [reflexivity|].
  intro E. apply nth_error_None in E. lia.
Qed.

Lemma crop3_window {A} (y0 y1 x0 x1 ny nx : nat)
  (cube : list (list (list A))) :
  (y0 <= y1 <= ny)%nat -> (x0 <= x1 <= nx)%nat ->
  shape3 ny nx cube ->
  window3 y0 x0 (y1 - y0) (x1 - x0) cube
          (crop3 (Z.of_nat y0) (Z.of_nat y1) (Z.of_nat x0) (Z.of_nat x1)
                 cube).
Proof.
  intros Hy Hx S. unfold window3, crop3.
  induction S as [|img cube Hi _ IH]; cbn [map]; constructor;
    [now apply (crop2_window y0 y1 x0 x1 ny nx) | exact IH].
Qed.

End TrimFacts.

Section TrimClaims.

Import Trim TrimSamples.

(** X18.  For cubes of images of [ny] rows and [nx] columns, a [ywindow]
    of [y0] and [y1] and an [xwindow] of [x0] and [x1] with
    [0 <= y0 <= y1 <= ny] and [0 <= x0 <= x1 <= nx], and no [diffmask]:
    [trim] returns; [subny] and [subnx] are [y1 - y0] and [x1 - x0];
    each of [subdata], [suberr], [subdq], [subv0] has as many images as
    its source, each of exactly [subny] rows and [subnx] columns, with
    sample [(i, j)] the source's sample [(y0 + i, x0 + j)]; [subwave] is
    that window of [wave]; and the source arrays are left as they were. *)
Theorem trim_window :
  forall (F D : Type) (d : @Data F D) (meta : @TrimMeta F)
         (y0 y1 x0 x1 ny nx : nat),
    ywindow meta = [Z.of_nat y0; Z.of_nat y1] ->
    xwindow meta = [Z.of_nat x0; Z.of_nat x1] ->
    diffmask meta = None ->
    (y0 <= y1 <= ny)%nat ->
    (x0 <= x1 <= nx)%nat ->
    shape3 ny nx (data d) -> shape3 ny nx (err d) ->
    shape3 ny nx (dq d) -> shape2 ny nx (wave d) ->
    shape3 ny nx (v0 d) ->
    exists d' meta' sdata serr sdq swave sv0,
      trim d meta = Returns (d', meta')
      /\ subny meta' = Some (Z.of_nat (y1 - y0))
      /\ subnx meta' = Some (Z.of_nat (x1 - x0))
      /\ subdata d' = Some sdata
      /\ window3 y0 x0 (y1 - y0) (x1 - x0) (data d) sdata
      /\ suberr d' = Some serr
      /\ window3 y0 x0 (y1 - y0) (x1 - x0) (err d) serr
      /\ subdq d' = Some sdq
      /\ window3 y0 x0 (y1 - y0) (x1 - x0) (dq d) sdq
      /\ subwave d' = Some swave
      /\ window2 y0 x0 (y1 - y0) (x1 - x0) (wave d) swave
      /\ subv0 d' = Some sv0
      /\ window3 y0 x0 (y1 - y0) (x1 - x0) (v0 d) sv0
      /\ data d' = data d /\ err d' = err d /\ dq d' = dq d
      /\ wave d' = wave d /\ v0 d' = v0 d.
Proof.
  intros F D d meta y0 y1 x0 x1 ny nx Ey Ex Em Hy Hx S1 S2 S3 S4 S5.
  unfold trim. rewrite Ey, Ex. cbn [item nth_error and_then diffmask].
  rewrite Em.
  eexists _, _, _, _, _, _, _. split; [reflexivity|].
  cbn [subny subnx subdata suberr subdq subwave subv0 data err dq wave v0].
  split; [f_equal; lia|]. split; [f_equal; lia|].
  split; [reflexivity|].
  split; [now apply (crop3_window y0 y1 x0 x1 ny nx)|].
  split; [reflexivity|].
  split; [now apply (crop3_window y0 y1 x0 x1 ny nx)|].
  split; [reflexivity|].
  split; [now apply (crop3_window y0 y1 x0 x1 ny nx)|].
  split; [reflexivity|].
  split; [now apply (crop2_window y0 y1 x0 x1 ny nx)|].
  split; [reflexivity|].
  split; [now apply (crop3_window y0 y1 x0 x1 ny nx)|].
  repeat split.
Qed.

Lemma trim_window_witness :
  exists d' meta',
    trim data23 meta_inside = Returns (d', meta')
    /\ subdata d' = Some [[[2; 3]]]%Z
    /\ subny meta' = Some 1%Z /\ subnx meta' = Some 2%Z.
Proof.
  destruct (trim_window Z Z data23 meta_inside 0 1 1 3 2 3)
    as (d' & meta' & sdata & serr & sdq & swave & sv0 & E & Ny & Nx & Sd & _).
  - reflexivity.
  - reflexivity.
  - reflexivity.
  - lia.
  - lia.
  - repeat constructor.
  - repeat constructor.
  - repeat constructor.
  - repeat constructor.
  - repeat constructor.
  - exists d', meta'. split; [exact E|].
    vm_compute in E. injection E as <- <-. repeat split.
Defined.

(** X19.  With two entries in each window and no [diffmask], [trim] never
    raises, whatever the windows: a bound outside the array is clipped and
    a negative one counts from the end.  For images of [ny] rows and [nx]
    columns each image of [subdata] has [clip y1 - clip y0] rows and
    [clip x1 - clip x0] columns, while [subny] and [subnx] are the plain
    differences [y1 - y0] and [x1 - x0].  For [0 <= y0 <= y1] the recorded
    [subny] is the number of rows exactly when [y1 <= ny] or the window is
    empty. *)
Theorem trim_out_of_range :
  forall (F D : Type) (d : @Data F D) (meta : @TrimMeta F)
         (y0 y1 x0 x1 : Z) (ny nx : nat),
    ywindow meta = [y0; y1] ->
    xwindow meta = [x0; x1] ->
    diffmask meta = None ->
    shape3 ny nx (data d) ->
    exists d' meta' sdata,
      trim d meta = Returns (d', meta')
      /\ subdata d' = Some sdata
      /\ subny meta' = Some (y1 - y0)%Z
      /\ subnx meta' = Some (x1 - x0)%Z
      /\ shape3 (clip y1 ny - clip y0 ny) (clip x1 nx - clip x0 nx) sdata
      /\ ((0 <= y0 <= y1)%Z ->
          (Z.of_nat (clip y1 ny - clip y0 ny) = (y1 - y0)%Z
           <-> (y1 <= Z.of_nat ny)%Z \/ y0 = y1)).
Proof.
  intros F D d meta y0 y1 x0 x1 ny nx Ey Ex Em S.
  unfold trim. rewrite Ey, Ex. cbn [item nth_error and_then diffmask].
  rewrite Em.
  eexists _, _, _. split; [reflexivity|].
  cbn [subny subnx subdata].
  split; [reflexivity|]. split; [reflexivity|]. split; [reflexivity|].
  split; [now apply crop3_shape|].
  intro H. unfold clip.
  destruct (y1 <? 0)%Z eqn:E1; [lia|]. destruct (y0 <? 0)%Z eqn:E0; [lia|].
  lia.
Qed.

Lemma trim_out_of_range_witness :
  exists d' meta',
    trim data23 meta_outside = Returns (d', meta')
    /\ subdata d' = Some [[[1; 2]; [4; 5]]]%Z
    /\ subny meta' = Some 5%Z /\ subnx meta' = Some (-1)%Z.
Proof.
  destruct (trim_out_of_range Z Z data23 meta_outside 0 5 0 (-1) 2 3)
    as (d' & meta' & sdata & E & Sd & Ny & Nx & _).
  - reflexivity.
  - reflexivity.
  - reflexivity.
  - repeat constructor.
  - exists d', meta'. split; [exact E|].
    vm_compute in E. injection E as <- <-. repeat split.
Defined.

End TrimClaims.

(** ** [find_fits]: which folder it settles on *)

Section FindFitsFacts.

Import FindFits.
Local Open Scope string_scope.

Lemma insert_sorted_perm (x : string) (l : list string) :
  Permutation (insert_sorted x l) (x :: l).
Proof.
  induction l as [|y l IH]; simpl; [apply Permutation_refl|].
  destruct (String.leb x y); [apply Permutation_refl|].
  eapply Permutation_trans; [apply perm_skip, IH | apply perm_swap].
Qed.

Lemma unique_perm (l : list string) :
  Permutation (unique l) (nodup string_dec l).
Proof.
  unfold unique. induction (nodup string_dec l) as [|x m IH]; simpl;
    [apply Permutation_refl|].
  eapply Permutation_trans; [apply insert_sorted_perm | now apply perm_skip].
Qed.

Lemma unique_In (l : list string) (x : string) :
  In x (unique l) <-> In x l.
Proof.
  split; intro H.
  - apply (nodup_In string_dec).
    eapply Permutation_in; [apply unique_perm | exact H].
  - eapply Permutation_in; [apply Permutation_sym, unique_perm|].
    apply (nodup_In string_dec), H.
Qed.

Lemma unique_NoDup (l : list string) : NoDup (unique l).
Proof.
  eapply Permutation_NoDup; [apply Permutation_sym, unique_perm|].
  apply NoDup_nodup.
Qed.

Lemma unique_several (l : list string) :
  (1 <? List.length (unique l))%nat = true
  <-> exists a b, In a l /\ In b l /\ a <> b.
Proof.
  rewrite Nat.ltb_lt. pose proof (unique_NoDup l) as N.
  pose proof (unique_In l) as I. split.
  - destruct (unique l) as [|a [|b u]]; simpl; try lia. intros _.
    exists a, b. split; [apply I; now left|].
    split; [apply I; right; now left|].
    inversion N as [|? ? Ha _]. intros ->. apply Ha. now left.
  - intros (a & b & Ha & Hb & Hab). apply I in Ha, Hb.
    destruct (unique l) as [|c [|d u]]; simpl in *; [tauto | | lia].
    destruct Ha as [<-|[]], Hb as [<-|[]]. congruence.
Qed.

Section Keys.
Variable getmtime : string -> option Z.

Lemma max_from_returns (xs : list string) :
  forall best kbest b,
    max_from getmtime best kbest xs = Returns b ->
    exists t,
      (b = best /\ t = kbest \/ In b xs /\ getmtime b = Some t)
      /\ (kbest <= t)%Z
      /\ forall x, In x xs ->
           exists t', getmtime x = Some t' /\ (t' <= t)%Z.
Proof.
  induction xs as [|x xs IH]; intros best kbest b H; simpl in H.
  - injection H as <-. exists kbest. split; [now left|].
    split; [lia | intros x []].
  - destruct (getmtime x) as [k|] eqn:Ek; [|discriminate].
    destruct (kbest <? k)%Z eqn:Ec.
    + destruct (IH _ _ _ H) as (t & Hb & Hk & Hall).
      apply Z.ltb_lt in Ec. exists t. split.
      * right. destruct Hb as [[-> ->]|[Hin Hg]];
          [split; [now left | exact Ek] | split; [now right | exact Hg]].
      * split; [lia|]. intros y [<-|Hy]; [exists k; split; [exact Ek | lia]|].
        now apply Hall.
    + destruct (IH _ _ _ H) as (t & Hb & Hk & Hall).
      apply Z.ltb_ge in Ec. exists t. split.
      * destruct Hb as [Hb|[Hin Hg]]; [now left | right; split;
          [now right | exact Hg]].
      * split; [exact Hk|].
        intros y [<-|Hy]; [exists k; split; [exact Ek | lia]|].
        now apply Hall.
Qed.

Lemma max_from_raises (xs : list string) :
  forall best kbest,
    (exists e, max_from getmtime best kbest xs = Raises e)
    <-> exists x, In x xs /\ getmtime x = None.
Proof.
  induction xs as [|x xs IH]; intros best kbest; simpl.
  - split; [intros (e & H); discriminate | intros (x & [] & _)].
  - destruct (getmtime x) as [k|] eqn:Ek.
    + destruct (kbest <? k)%Z; rewrite IH; split;
        try (intros (y & Hy & Hn); exists y; split; [now right | exact Hn]);
        intros (y & [<-|Hy] & Hn); try congruence;
        exists y; split; assumption.
    + split; [intros _; exists x; split; [now left | exact Ek]|].
      intros _. now exists OSError.
Qed.

Lemma max_from_only_oserror (xs : list string) :
  forall best kbest e,
    max_from getmtime best kbest xs = Raises e -> e = OSError.
Proof.
  induction xs as [|x xs IH]; intros best kbest e H; simpl in H;
    [discriminate|].
  destruct (getmtime x) as [k|]; [|now injection H].
  destruct (kbest <? k)%Z; eapply IH; exact H.
Qed.

Lemma newest_spec (x : string) (xs : list string) :
  let r := match getmtime x with
           | None => Raises OSError
           | Some k => max_from getmtime x k xs
           end in
  (r = Raises OSError <-> exists y, In y (x :: xs) /\ getmtime y = None)
  /\ (forall e, r = Raises e -> e = OSError)
  /\ (forall b, r = Returns b ->
        In b (x :: xs)
        /\ exists t, getmtime b = Some t
             /\ forall y, In y (x :: xs) ->
                  exists t', getmtime y = Some t' /\ (t' <= t)%Z).
Proof.
  cbv zeta. destruct (getmtime x) as [k|] eqn:Ek.
  - split; [|split].
    + split.
      * intro H. destruct (proj1 (max_from_raises xs x k)) as (y & Hy & Hn);
          [now exists OSError|].
        exists y. split; [now right | exact Hn].
      * intros (y & [<-|Hy] & Hn); [congruence|].
        destruct (proj2 (max_from_raises xs x k)) as (e & He);
          [now exists y|].
        now rewrite He, (max_from_only_oserror _ _ _ _ He).
    + intros e He. exact (max_from_only_oserror _ _ _ _ He).
    + intros b Hb.
      destruct (max_from_returns xs x k b Hb) as (t & Hc & Hk & Hall).
      split; [destruct Hc as [[-> _]|[Hin _]]; [now left | now right]|].
      exists t. split; [destruct Hc as [[-> ->]|[_ Hg]]; assumption|].
      intros y [<-|Hy]; [exists k; split; [exact Ek | exact Hk]|].
      now apply Hall.
  - split; [|split].
    + split; [intros _; exists x; split; [now left | exact Ek] | reflexivity].
    + intros e He. now injection He.
    + intros b Hb. discriminate.
Qed.

End Keys.

End FindFitsFacts.

Section FindFitsClaims.

Import FindFits FindFitsSamples.
Local Open Scope string_scope.

(** X20.  [find_fits] works with the files of the input folder itself
    when there are any, otherwise with those below it.  It raises
    [AssertionError] exactly when there is none, and the [OSError] of
    [os.path.getmtime] exactly when there are files and the modification
    time of the folder of one of them cannot be read; [folder] is never
    read unassigned.  It prints the warning only when two of the files lie
    in different folders.  When it returns, the new [inputdir] is the
    folder of one of the files, with a separator added unless it ends with
    one; no folder of any of the files was modified later than this one;
    [inputdir_raw] is the folder without its first [len(topdir)]
    characters; [topdir] and [suffix] are as before. *)
Theorem find_fits_outcomes :
  forall (glob glob_recursive : string -> list string)
         (sort_nicely : list string -> list string)
         (getmtime : string -> option Z) (meta : FitsMeta),
    let fnames := found glob glob_recursive sort_nicely meta in
    let r := find_fits glob glob_recursive sort_nicely getmtime meta in
    (glob (inputdir meta ++ "*" ++ suffix meta ++ ".fits") <> [] ->
     fnames = glob (inputdir meta ++ "*" ++ suffix meta ++ ".fits"))
    /\ (snd r = Raises AssertionError <-> fnames = [])
    /\ (snd r = Raises OSError
        <-> exists f, In f fnames /\ getmtime (parent f) = None)
    /\ snd r <> Raises UnboundLocalError
    /\ (fst r <> [] ->
        exists f g, In f fnames /\ In g fnames /\ parent f <> parent g)
    /\ (forall meta', snd r = Returns meta' ->
        exists f t,
          In f fnames
          /\ getmtime (parent f) = Some t
          /\ (forall g, In g fnames ->
                exists t', getmtime (parent g) = Some t' /\ (t' <= t)%Z)
          /\ inputdir meta'
             = (if Os.endswith_sep (parent f) then parent f
                else parent f ++ "/")
          /\ inputdir_raw meta'
             = str_from (String.length (topdir meta)) (parent f)
          /\ topdir meta' = topdir meta
          /\ suffix meta' = suffix meta).
Proof.
  intros glob grec sortn getmtime meta. cbv zeta.
  split.
  { intro H. unfold found.
    destruct (glob (inputdir meta ++ "*" ++ suffix meta ++ ".fits"));
      [congruence | reflexivity]. }
  unfold find_fits.
  generalize (found glob grec sortn meta) as fnames. intro fnames.
  destruct fnames as [|f0 fs].
  { cbn [List.length Nat.eqb fst snd].
    split; [tauto|]. split; [|split; [discriminate|split]].
    - split; [discriminate | intros (f & [] & _)].
    - intro H. now elim H.
    - intros meta' H. discriminate. }
  set (l := f0 :: fs). cbn [List.length Nat.eqb].
  pose proof (unique_In (map parent l)) as I.
  pose proof (unique_several (map parent l)) as V.
  assert (P : forall y, In y (unique (map parent l)) ->
                        exists f, In f l /\ parent f = y).
  { intros y Hy. apply I, in_map_iff in Hy. destruct Hy as (f & E & Hf).
    now exists f. }
  assert (Q : forall f, In f l -> In (parent f) (unique (map parent l)))
    by (intros f Hf; apply I, in_map; exact Hf).
  destruct (unique (map parent l)) as [|x xs] eqn:Eu.
  { exfalso. apply (Q f0). now left. }
  destruct (newest_spec getmtime x xs) as (N1 & N2 & N3).
  destruct (match getmtime x with
            | Some k => max_from getmtime x k xs
            | None => Raises OSError
            end) as [b|e] eqn:Er.
  - destruct (N3 b eq_refl) as (Hb & t & Ht & Hall).
    destruct (P b Hb) as (f & Hf & Ef).
    assert (NoNone : ~ exists g, In g l /\ getmtime (parent g) = None).
    { intros (g & Hg & Hn). destruct (Hall _ (Q g Hg)) as (t' & E' & _).
      congruence. }
    cbn [fst snd FindFits.inputdir].
    split; [split; [destruct (last_char b); discriminate | discriminate]|].
    split; [split; [destruct (last_char b); discriminate | tauto]|].
    split; [destruct (last_char b); discriminate|].
    split.
    { intro H.
      destruct (1 <? List.length (x :: xs))%nat eqn:E1; [|now elim H].
      destruct (proj1 V eq_refl) as (a & c & Ha & Hc & Hac).
      apply in_map_iff in Ha, Hc.
      destruct Ha as (fa & <- & Hfa), Hc as (fc & <- & Hfc).
      now exists fa, fc. }
    intros meta' H.
    destruct (last_char b) as [c|e] eqn:El; [|discriminate].
    injection H as <-. exists f, t. rewrite Ef.
    split; [exact Hf|]. split; [exact Ht|].
    split; [intros g Hg; apply Hall, Q, Hg|].
    unfold Os.endswith_sep. rewrite El.
    destruct (Os.is_sep c); cbn [negb FindFits.inputdir
      FindFits.inputdir_raw FindFits.topdir FindFits.suffix]; repeat split.
  - pose proof (N2 e eq_refl) as ->. cbn [fst snd].
    split; [split; discriminate|].
    split.
    { split; [intros _ | reflexivity].
      destruct (proj1 N1 eq_refl) as (y & Hy & Hn).
      destruct (P y Hy) as (f & Hf & Ef). exists f. now rewrite Ef. }
    split; [discriminate|]. split; [intro H; now elim H|].
    intros meta' H. discriminate.
Qed.

Lemma find_fits_outcomes_witness :
  exists meta',
    snd (find_fits glob_runs (fun _ => []) (fun l => l) mtime_runs
           fits_meta) = Returns meta'
    /\ inputdir meta' = "/home/user/data/S2_run2/".
Proof.
  destruct (find_fits_outcomes glob_runs (fun _ => []) (fun l => l)
              mtime_runs fits_meta) as (_ & _ & _ & _ & _ & H).
  destruct (H (mkFitsMeta "/home/user/data/S2_run2/" "data/S2_run2"
                 "/home/user/" "rateints" "S3_wasp43b.ecf") eq_refl)
    as (f & t & _).
  eexists. split; reflexivity.
Defined.

End FindFitsClaims.

(** ** [load_general_s4_meta_info]: the new input folder *)

Section LoadS4Facts.

Import FindFits LoadS4 UtilModel.
Local Open Scope string_scope.

Lemma str_from_app (a r : string) :
  str_from (String.length a) (a ++ r) = r.
Proof. induction a as [|c a IH]; simpl; [now destruct r | exact IH]. Qed.

Lemma last_char_decompose (s : string) (c : ascii) :
  last_char s = Ok c -> s = drop_last s ++ String c "".
Proof.
  induction s as [|a s IH]; intro H; [discriminate|].
  destruct s as [|b s]; [simpl in H; now injection H as ->|].
  change (last_char (String a (String b s))) with (last_char (String b s))
    in H.
  change (drop_last (String a (String b s)))
    with (String a (drop_last (String b s))).
  simpl. f_equal. exact (IH H).
Qed.

Lemma endswith_sep_decompose (s : string) :
  endswith_sep s = true -> exists s', s = s' ++ "/".
Proof.
  unfold endswith_sep. destruct (last_char s) as [c|e] eqn:E; [|discriminate].
  intro H. unfold is_sep, sep in H. apply Ascii.eqb_eq in H. subst c.
  exists (drop_last s). now apply last_char_decompose.
Qed.

Lemma components_nil : components "" = [].
Proof. reflexivity. Qed.

Lemma components_leading_sep (s : string) :
  components (String "/" s) = components s.
Proof.
  change (String "/" s) with ("" ++ "/" ++ s). now rewrite components_app_sep.
Qed.

Lemma components_trailing_sep (s : string) :
  components (s ++ "/") = components s.
Proof.
  change (s ++ "/") with (s ++ "/" ++ "").
  now rewrite components_app_sep, components_nil, app_nil_r.
Qed.

Lemma components_relative_dir (rest : string) :
  components (relative_dir rest) = components rest.
Proof.
  unfold relative_dir.
  assert (E : components (if startswith_sep rest then str_from 1 rest
                          else rest) = components rest).
  { destruct rest as [|c r]; [reflexivity|]. cbn [startswith_sep].
    destruct (is_sep c) eqn:Ec; [|reflexivity].
    unfold is_sep, sep in Ec. apply Ascii.eqb_eq in Ec. subst c.
    cbn [str_from]. symmetry. apply components_leading_sep. }
  destruct (endswith_sep _); [exact E|].
  now rewrite components_trailing_sep.
Qed.

Lemma components_app_joined (a r : string) :
  endswith_sep a = true \/ startswith_sep r = true ->
  components (a ++ r) = (components a ++ components r)%list.
Proof.
  intros [H|H].
  - destruct (endswith_sep_decompose a H) as (a' & ->).
    rewrite append_assoc.
    now rewrite components_app_sep, components_trailing_sep.
  - destruct r as [|c r]; [discriminate|]. cbn [startswith_sep] in H.
    unfold is_sep, sep in H. apply Ascii.eqb_eq in H. subst c.
    change (a ++ String "/" r) with (a ++ "/" ++ r).
    now rewrite components_app_sep, components_leading_sep.
Qed.

Lemma relative_dir_steps (rest : string) (c0 : ascii) :
  first_char rest = Ok c0 ->
  forall c1,
    last_char (if Ascii.eqb c0 "/" then str_from 1 rest else rest) = Ok c1 ->
    (if negb (Ascii.eqb c1 "/")
     then (if Ascii.eqb c0 "/" then str_from 1 rest else rest) ++ "/"
     else (if Ascii.eqb c0 "/" then str_from 1 rest else rest))
    = relative_dir rest.
Proof.
  intros H0 c1 H1. unfold relative_dir.
  destruct rest as [|c r]; [discriminate|]. injection H0 as ->.
  cbn [startswith_sep]. unfold endswith_sep, is_sep, sep in *.
  destruct (Ascii.eqb c0 "/"); rewrite H1;
    now destruct (Ascii.eqb c1 "/").
Qed.

Lemma relative_dir_ends (rest : string) :
  endswith_sep (relative_dir rest) = true.
Proof.
  unfold relative_dir.
  set (r := if startswith_sep rest then str_from 1 rest else rest).
  destruct (endswith_sep r) eqn:E; [exact E|].
  now rewrite endswith_sep_app by discriminate.
Qed.

End LoadS4Facts.

Section LoadS4Claims.

Import FindFits LoadS4 LoadS4Samples UtilModel.
Local Open Scope string_scope.

(** X21.  Let [rest] be the Stage 4 [outputdir] without its first
    [len(topdir)] characters.  When [rest] is empty or just the
    separator, [load_general_s4_meta_info] raises [IndexError] before
    the control file is read.  Otherwise it raises what reading the
    control file raises, or returns the Stage 4 object with the control
    file's values, in which [inputdir] and [inputdir_raw] are [rest]
    with one leading separator removed and a trailing one ensured,
    [datetime] is reset, [old_datetime] is the [datetime] held until
    then, [outputdir_raw] is [outputdir], and [s4_allapers] is the
    [allapers] Stage 4 had before the control file was read.  When [outputdir] begins with a non-empty
    [topdir], with a separator between it and the rest, and the control
    file leaves [topdir] as it is, [topdir] joined with the new [inputdir]
    resolves to the Stage 4 output directory. *)
Theorem load_general_s4_meta_info_inputdir :
  forall (apply_ecf : string -> S4Meta -> result S4Meta)
         (meta s4_meta : S4Meta),
    let rest :=
      str_from (String.length (topdir s4_meta)) (outputdir s4_meta) in
    let ecffile := "S5_" ++ eventlabel s4_meta ++ ".ecf" in
    (rest = "" \/ rest = "/" ->
     load_general_s4_meta_info apply_ecf meta s4_meta = Raise Py.IndexError)
    /\ (rest <> "" -> rest <> "/" ->
        (forall e, apply_ecf ecffile s4_meta = Raise e ->
           load_general_s4_meta_info apply_ecf meta s4_meta = Raise e)
        /\ (forall m1, apply_ecf ecffile s4_meta = Ok m1 ->
            exists m,
              load_general_s4_meta_info apply_ecf meta s4_meta = Ok m
              /\ inputdir m = relative_dir rest
              /\ inputdir_raw m = relative_dir rest
              /\ endswith_sep (inputdir m) = true
              /\ datetime m = None
              /\ old_datetime m = datetime m1
              /\ outputdir_raw m = outputdir m1
              /\ s4_allapers m = Some (allapers s4_meta)
              /\ topdir m = topdir m1
              /\ (forall r,
                    outputdir s4_meta = topdir s4_meta ++ r ->
                    topdir s4_meta <> "" ->
                    topdir m1 = topdir s4_meta ->
                    endswith_sep (topdir s4_meta) = true
                    \/ startswith_sep r = true ->
                    norm (path_join (topdir m) (split (inputdir m)))
                    = norm (outputdir s4_meta)))).
Proof.
  intros apply_ecf meta s4_meta. cbv zeta.
  set (rest := str_from (String.length (topdir s4_meta)) (outputdir s4_meta)).
  unfold load_general_s4_meta_info. fold rest.
  split.
  { intros [->| ->]; reflexivity. }
  intros H0 H1.
  destruct rest as [|c0 r0] eqn:Er; [congruence|].
  cbn [first_char bind].
  assert (L : exists c1,
             last_char (if Ascii.eqb c0 "/" then str_from 1 (String c0 r0)
                        else String c0 r0) = Ok c1).
  { apply last_char_nonempty.
    destruct (Ascii.eqb c0 "/") eqn:E0; [|discriminate].
    apply Ascii.eqb_eq in E0. subst c0. cbn [str_from].
    intros ->. congruence. }
  destruct L as (c1 & L). rewrite L. cbn [bind].
  rewrite (relative_dir_steps (String c0 r0) c0 eq_refl c1 L).
  split.
  { intros e He. now rewrite He. }
  intros m1 Hm. rewrite Hm. cbn [bind].
  eexists. split; [reflexivity|].
  cbn [inputdir inputdir_raw datetime old_datetime outputdir_raw
       s4_allapers topdir].
  split; [reflexivity|]. split; [reflexivity|].
  split; [apply relative_dir_ends|].
  split; [reflexivity|]. split; [reflexivity|]. split; [reflexivity|].
  split; [reflexivity|]. split; [reflexivity|].
  intros r Ho Ht Hm1 Hsep.
  assert (Rr : String c0 r0 = r).
  { rewrite <- Er. unfold rest. rewrite Ho. apply str_from_app. }
  rewrite Rr, Hm1, Ho. unfold norm. f_equal.
  - destruct (path_join_keeps_start (topdir s4_meta)
                (split (relative_dir r)) (split_pieces_no_sep _))
      as (t & ->).
    now rewrite !startswith_sep_app by exact Ht.
  - change (filter (fun c => negb (String.eqb c "")) (split ?p))
      with (components p).
    rewrite (components_path_join _ _ (split_pieces_no_sep _)).
    change (filter (fun c => negb (String.eqb c "")) (split ?p))
      with (components p).
    now rewrite components_relative_dir, components_app_joined.
Qed.

Lemma load_general_s4_meta_info_inputdir_witness :
  exists m,
    load_general_s4_meta_info ecf_s5 s4_saved s4_saved = Ok m
    /\ inputdir m = "data/S4_2022-01-05_wasp43b_run1/ap8_bg10/"
    /\ norm (path_join (topdir m) (split (inputdir m)))
       = norm (outputdir s4_saved).
Proof.
  destruct (load_general_s4_meta_info_inputdir ecf_s5 s4_saved s4_saved)
    as (_ & H).
  destruct H as (_ & H); [discriminate | discriminate |].
  destruct (H _ eq_refl)
    as (m & E & I & _ & _ & _ & _ & _ & _ & _ & N).
  exists m. split; [exact E|]. split; [rewrite I; reflexivity|].
  apply (N "/data/S4_2022-01-05_wasp43b_run1/ap8_bg10/");
    [reflexivity | discriminate | reflexivity | now right].
Defined.

End LoadS4Claims.
